(** * The rke2 bootstrap package, embedded and verified

    A shallow embedding of [pkg/bootstrap/bootstrap.go] and of the
    decompression adapters that live next to it.  Go strings are byte
    strings ([string]), Go's [(value, error)] results are pairs of options,
    the operating system is an explicit [World] threaded through every
    call, and a Go map that is ranged over is a [gmap] together with the
    order in which the runtime hands out its entries. *)

From Stdlib Require Import ZArith Lia Ascii String List Permutation.
From stdpp Require Import base option list strings pretty sorting gmap.

Set Warnings "-register-all,-abstract-large-number".
Local Open Scope string_scope.
Local Open Scope list_scope.

(** ** Go's [strings], [regexp] and [encoding/hex], on byte strings *)

Module GoStrings.

Definition byte_of (c : ascii) : Z := Z.of_N (N_of_ascii c).

Definition bytes (s : string) : list Z := map byte_of (list_ascii_of_string s).

(** [strings.HasPrefix]. *)
Fixpoint HasPrefix (s pre : string) : bool :=
  match pre, s with
  | EmptyString, _ => true
  | String p pre', String c s' => if ascii_dec p c then HasPrefix s' pre' else false
  | String _ _, EmptyString => false
  end.

(** [strings.HasSuffix]: some tail of [s] is [suf]. *)
Fixpoint HasSuffix (s suf : string) : bool :=
  if decide (s = suf) then true
  else match s with
       | EmptyString => false
       | String _ s' => HasSuffix s' suf
       end.

(** [strings.ToLower] on the ASCII letters; every other byte is kept. *)
Definition lower_ascii (c : ascii) : ascii :=
  let n := N_of_ascii c in
  if ((65 <=? n) && (n <=? 90))%N then ascii_of_N (n + 32) else c.

Fixpoint ToLower (s : string) : string :=
  match s with
  | EmptyString => EmptyString
  | String c s' => String (lower_ascii c) (ToLower s')
  end.

(** [strings.SplitN(s, sep, 2)] for a one-byte separator: the text before
    the first separator and the text after it, or [s] alone when the
    separator does not occur. *)
Fixpoint cut (sep : ascii) (s : string) : option (string * string) :=
  match s with
  | EmptyString => None
  | String c s' =>
      if ascii_dec c sep then Some (EmptyString, s')
      else match cut sep s' with
           | Some (a, b) => Some (String c a, b)
           | None => None
           end
  end.

Definition SplitN2 (s : string) (sep : ascii) : list string :=
  match cut sep s with
  | Some (a, b) => [a; b]
  | None => [s]
  end.

Fixpoint contains_byte (sep : ascii) (s : string) : bool :=
  match s with
  | EmptyString => false
  | String c s' => if ascii_dec c sep then true else contains_byte sep s'
  end.

Definition is_digit (c : ascii) : bool :=
  let n := N_of_ascii c in ((48 <=? n) && (n <=? 57))%N.

Definition hex_digit (n : Z) : ascii :=
  ascii_of_N (Z.to_N (if (n <? 10)%Z then 48 + n else 87 + n)%Z).

(** [hex.EncodeToString]: two lower-case digits per byte. *)
Fixpoint EncodeToString (bs : list Z) : string :=
  match bs with
  | [] => EmptyString
  | b :: bs' =>
      String (hex_digit (Z.shiftr b 4))
        (String (hex_digit (Z.land b 15)) (EncodeToString bs'))
  end.

End GoStrings.

(** ** [crypto/sha256] (FIPS 180-4), on 32-bit words held in [Z] *)

Module Sha256.
Local Open Scope Z_scope.

Definition wrap32 (x : Z) : Z := x mod 2 ^ 32.

Definition rotr (n x : Z) : Z :=
  Z.lor (Z.shiftr x n) (wrap32 (Z.shiftl x (32 - n))).

Definition Ch (x y z : Z) : Z :=
  Z.lxor (Z.land x y) (Z.land (Z.lxor x (2 ^ 32 - 1)) z).
Definition Maj (x y z : Z) : Z :=
  Z.lxor (Z.lxor (Z.land x y) (Z.land x z)) (Z.land y z).
Definition bsig0 (x : Z) : Z := Z.lxor (Z.lxor (rotr 2 x) (rotr 13 x)) (rotr 22 x).
Definition bsig1 (x : Z) : Z := Z.lxor (Z.lxor (rotr 6 x) (rotr 11 x)) (rotr 25 x).
Definition ssig0 (x : Z) : Z := Z.lxor (Z.lxor (rotr 7 x) (rotr 18 x)) (Z.shiftr x 3).
Definition ssig1 (x : Z) : Z := Z.lxor (Z.lxor (rotr 17 x) (rotr 19 x)) (Z.shiftr x 10).

(** The round constants and the initial chaining words are the first 32
    bits of the fractional parts of the cube roots, and of the square
    roots, of the first primes. *)
Definition primes : list Z :=
  filter (fun n => forallb (fun d => negb (n mod d =? 0)) (map Z.of_nat (seq 2 (Z.to_nat n - 2))))
         (map Z.of_nat (seq 2 310)).

Fixpoint cbrt_bits (k : nat) (n acc : Z) : Z :=
  match k with
  | O => acc
  | S k' =>
      let c := acc + 2 ^ Z.of_nat k' in
      if c * c * c <=? n then cbrt_bits k' n c else cbrt_bits k' n acc
  end.

Definition K : list Z :=
  Eval vm_compute in map (fun p => wrap32 (cbrt_bits 36 (p * 2 ^ 96) 0)) primes.

(** The eight chaining words. *)
Record digest := Digest
  { h0 : Z; h1 : Z; h2 : Z; h3 : Z; h4 : Z; h5 : Z; h6 : Z; h7 : Z }.

Definition root_word (i : nat) : Z := wrap32 (Z.sqrt (nth i primes 0 * 2 ^ 64)).

Definition init : digest :=
  Eval vm_compute in
    Digest (root_word 0) (root_word 1) (root_word 2) (root_word 3)
           (root_word 4) (root_word 5) (root_word 6) (root_word 7).

Definition be32 (x : Z) : list Z :=
  [ Z.land (Z.shiftr x 24) 255; Z.land (Z.shiftr x 16) 255;
    Z.land (Z.shiftr x 8) 255; Z.land x 255 ].

Definition be64 (x : Z) : list Z := be32 (Z.shiftr x 32) ++ be32 (wrap32 x).

(** Padding: the byte 0x80, zeros up to 56 modulo 64, the bit length. *)
Definition pad (msg : list Z) : list Z :=
  let len := Z.of_nat (length msg) in
  msg ++ [128] ++ repeat 0 (Z.to_nat ((55 - len) mod 64)) ++ be64 (8 * len).

Fixpoint words (n : nat) (bs : list Z) : list Z :=
  match n, bs with
  | S n', a :: b :: c :: d :: bs' =>
      (Z.shiftl a 24 + Z.shiftl b 16 + Z.shiftl c 8 + d) :: words n' bs'
  | _, _ => []
  end.

(** The message schedule, most recent word first. *)
Fixpoint schedule (n : nat) (w : list Z) : list Z :=
  match n with
  | O => w
  | S n' =>
      let x := wrap32 (ssig1 (nth 1 w 0) + nth 6 w 0 + ssig0 (nth 14 w 0) + nth 15 w 0) in
      schedule n' (x :: w)
  end.

Definition round (s : digest) (kw : Z * Z) : digest :=
  let t1 := wrap32 (h7 s + bsig1 (h4 s) + Ch (h4 s) (h5 s) (h6 s) + fst kw + snd kw) in
  let t2 := wrap32 (bsig0 (h0 s) + Maj (h0 s) (h1 s) (h2 s)) in
  Digest (wrap32 (t1 + t2)) (h0 s) (h1 s) (h2 s)
         (wrap32 (h3 s + t1)) (h4 s) (h5 s) (h6 s).

Definition block (s : digest) (bs : list Z) : digest :=
  let w := rev (schedule 48 (rev (words 16 bs))) in
  let r := fold_left round (combine K w) s in
  Digest (wrap32 (h0 s + h0 r)) (wrap32 (h1 s + h1 r))
         (wrap32 (h2 s + h2 r)) (wrap32 (h3 s + h3 r))
         (wrap32 (h4 s + h4 r)) (wrap32 (h5 s + h5 r))
         (wrap32 (h6 s + h6 r)) (wrap32 (h7 s + h7 r)).

Fixpoint blocks (n : nat) (s : digest) (bs : list Z) : digest :=
  match n with
  | O => s
  | S n' => blocks n' (block s (firstn 64 bs)) (skipn 64 bs)
  end.

(** [sha256.Sum256]: the 32 bytes of the digest. *)
Definition Sum256 (msg : list Z) : list Z :=
  let p := pad msg in
  let r := blocks (length p / 64)%nat init p in
  be32 (h0 r) ++ be32 (h1 r) ++ be32 (h2 r) ++ be32 (h3 r) ++
  be32 (h4 r) ++ be32 (h5 r) ++ be32 (h6 r) ++ be32 (h7 r).

End Sha256.

(** ** Errors

    [errors.New]/[fmt.Errorf] values, the operating system's path errors,
    [errors.Wrapf] and wrangler's [merr.Errors]. *)

Inductive Errno :=
| ENOENT | EEXIST | ENOTEMPTY | ENOTDIR | EISDIR | EBUSY | ELOOP | EINVAL | EIO.

Inductive error :=
| ErrNew (msg : string)
| ErrPath (op path : string) (no : Errno)
| ErrWrap (cause : error) (msg : string)
| ErrMulti (errs : list error).

#[global] Instance Errno_eq_dec : EqDecision Errno.
Proof. solve_decision. Defined.

(** [os.IsExist]: only a bare system error counts, [EEXIST] or [ENOTEMPTY]. *)
Definition IsExist (e : option error) : bool :=
  match e with
  | Some (ErrPath _ _ (EEXIST | ENOTEMPTY)) => true
  | _ => false
  end.

(** [os.IsNotExist]. *)
Definition IsNotExist (e : option error) : bool :=
  match e with
  | Some (ErrPath _ _ ENOENT) => true
  | _ => false
  end.

(** [merr.NewErrors]: nil for no error, the error itself for one, the
    collection for several. *)
Definition NewErrors (errs : list error) : option error :=
  match errs with
  | [] => None
  | [e] => Some e
  | _ => Some (ErrMulti errs)
  end.

(** ** Image references (go-containerregistry's [name] package) *)

Module name.

Record Repository := { Registry_Name : string; RepositoryStr : string }.

Definition Repository_Name (r : Repository) : string :=
  if decide (Registry_Name r = "") then RepositoryStr r
  else Registry_Name r +:+ "/" +:+ RepositoryStr r.

(** A [Tag] and a [Digest] hold the repository, the tag or the digest,
    and [original], the string the reference was parsed from. *)
Inductive Reference :=
| Tag (repo : Repository) (tag : string) (original : string)
| Digest (repo : Repository) (digest : string) (original : string).

(** [ref.Name()]: the fully qualified name. *)
Definition Name (ref : Reference) : string :=
  match ref with
  | Tag r t _ => Repository_Name r +:+ ":" +:+ t
  | Digest r d _ => Repository_Name r +:+ "@" +:+ d
  end.

(** [ref.String()], which [%s] prints: the string as it was given to the
    parser. *)
Definition String (ref : Reference) : string :=
  match ref with
  | Tag _ _ original => original
  | Digest _ _ original => original
  end.

Definition DefaultRegistry : string := "index.docker.io".

End name.

(** ** The reference digest namer *)

(** [releasePattern = regexp.MustCompile("^v[0-9]")], and its [MatchString]. *)
Definition releasePattern : string := "^v[0-9]".

Definition releasePattern_MatchString (s : string) : bool :=
  match s with
  | String "v" (String c _) => GoStrings.is_digit c
  | _ => false
  end.

(** [hex.EncodeToString(hash[:])] for [hash := sha256.Sum256([]byte(s))]:
    always 64 characters, so that the slice [[:12]] taken of it below is in
    range ([hex_Sum256_length]). *)
Definition hex_Sum256 (s : string) : string :=
  GoStrings.EncodeToString (Sha256.Sum256 (GoStrings.bytes s)).

(** [releaseRefDigest], lines 215-228. *)
Definition releaseRefDigest (ref : name.Reference) : string * option error :=
  match ref with
  | name.Tag _ t _ =>
      if releasePattern_MatchString t then
        (t +:+ "-" +:+ substring 0 12 (hex_Sum256 (name.String ref)), None)
      else
        ("", Some (ErrNew ("Runtime image " +:+ name.String ref +:+
                " is not a not a reference to a digest or version tag (" +:+
                releasePattern +:+ ")")))
  | name.Digest _ d _ =>
      let parts := GoStrings.SplitN2 d ":" in
      if decide (length parts = 2%nat) then (nth 1 parts "", None)
      else (nth 0 parts "", None)
  end.

(** ** A state monad *)

Definition ST (S A : Type) : Type := S -> A * S.

#[global] Instance ST_ret {S} : MRet (ST S) := fun A a s => (a, s).
#[global] Instance ST_bind {S} : MBind (ST S) :=
  fun A B f m s => let '(a, s') := m s in f a s'.

(** ** [path/filepath] on Unix *)

Module filepath.
Import GoStrings.

Fixpoint split_slash (s : string) : list string :=
  match s with
  | EmptyString => [""]
  | String c s' =>
      if ascii_dec c "/" then "" :: split_slash s'
      else match split_slash s' with
           | h :: t => String c h :: t
           | [] => [String c ""]
           end
  end.

(** One element of the lexical clean-up; [out] is the stack of elements
    kept so far, innermost first. *)
Definition clean_step (rooted : bool) (out : list string) (e : string) : list string :=
  if decide (e = "" \/ e = ".") then out
  else if decide (e = "..") then
    match out with
    | h :: t => if decide (h = "..") then e :: out else t
    | [] => if rooted then [] else [e]
    end
  else e :: out.

(** [filepath.Clean]. *)
Definition Clean (path : string) : string :=
  let rooted := HasPrefix path "/" in
  let out := rev (fold_left (clean_step rooted) (split_slash path) []) in
  if rooted then "/" +:+ String.concat "/" out
  else if decide (out = []) then "." else String.concat "/" out.

Fixpoint drop_empty (elem : list string) : list string :=
  match elem with
  | e :: rest => if decide (e = "") then drop_empty rest else elem
  | [] => []
  end.

(** [filepath.Join]: leading empty elements are ignored, the rest is
    joined with slashes and cleaned. *)
Definition Join (elem : list string) : string :=
  match drop_empty elem with
  | [] => ""
  | l => Clean (String.concat "/" l)
  end.

(** [path[:i+1]] for the index [i] of the last separator. *)
Fixpoint dir_prefix (s : string) : string :=
  match s with
  | EmptyString => ""
  | String c s' =>
      let r := dir_prefix s' in
      if decide (r <> "" \/ c = "/"%char) then String c r else ""
  end.

(** [filepath.Dir]. *)
Definition Dir (path : string) : string := Clean (dir_prefix path).

End filepath.

(** ** The operating system

    A file system is a tree of inodes keyed by the list of path elements
    from the root, with the bytes of the regular files kept beside it.
    Names are resolved lexically and from the root (the working directory
    is the root); a symbolic link is followed only as the last element of a
    name.  [busy] lists the entries that cannot be unlinked or renamed
    (mount points, immutable files), [rand] is what the runtime's random
    source yields next, and [trace] records every system call and every log
    line, oldest first. *)

Abbreviation path := (list string).

Inductive Inode :=
| IFile (mode : N)
| IDir (mode : N)
| ILink (target : string).

Record FileInfo := { Name : string; IsDir : bool; Mode : N }.

Inductive Level := LDebug | LInfo | LError.

Inductive Call :=
| CStat | CMkdir | CMkdirAll | CRename | CReadDir | CRemoveAll | CSymlink
| CChmod | COpenFile | CWrite | CClose | CReadFile | CWalk.

Inductive Event :=
| EvLog (l : Level) (msg : string)
| EvSys (c : Call) (name : string)
| EvPull (ref : string).

Record World := mkWorld
  { tree : gmap path Inode;
    data : gmap path string;
    busy : gset path;
    rand : list nat;
    trace : list Event }.

Definition M (A : Type) : Type := ST World A.

(** Octal 0755 and 0700. *)
Definition perm_0755 : N := 493.
Definition perm_0700 : N := 448.

Module os.
Import GoStrings.

Definition resolve (name : string) : path :=
  rev (fold_left (filepath.clean_step true) (filepath.split_slash name) []).

Definition last_elem (name : string) : string :=
  default "" (last (filepath.split_slash name)).

(** The last element is [.] or [..]: such a name never creates an entry. *)
Definition dot_name (name : string) : bool :=
  bool_decide (last_elem name = "." \/ last_elem name = "..").

(** [endsWithDot] of [os/removeall]. *)
Definition endsWithDot (name : string) : bool :=
  bool_decide (name = ".") || HasSuffix name "/.".

Fixpoint walk_from (t : gmap path Inode) (cur : path) (n : Inode)
    (rest : list string) : Errno + Inode :=
  match rest with
  | [] => inr n
  | c :: rest' =>
      match n with
      | IDir _ =>
          match t !! (cur ++ [c]) with
          | Some n' => walk_from t (cur ++ [c]) n' rest'
          | None => inl ENOENT
          end
      | _ => inl ENOTDIR
      end
  end.

(** [lstat(2)]: the inode a name leads to, no link followed. *)
Definition lstat (t : gmap path Inode) (p : path) : Errno + Inode :=
  walk_from t [] (IDir perm_0755) p.

Definition link_dest (p : path) (target : string) : path :=
  if HasPrefix target "/" then resolve target
  else rev (fold_left (filepath.clean_step true) (filepath.split_slash target)
              (rev (removelast p))).

(** [stat(2)]: as [lstat], following a final symbolic link, at most 40
    times. *)
Fixpoint realpath (fuel : nat) (t : gmap path Inode) (p : path) : Errno + (path * Inode) :=
  match lstat t p with
  | inl e => inl e
  | inr (ILink tg) =>
      match fuel with
      | O => inl ELOOP
      | S fuel' => realpath fuel' t (link_dest p tg)
      end
  | inr n => inr (p, n)
  end.

Definition stat (t : gmap path Inode) (p : path) : Errno + (path * Inode) :=
  realpath 40 t p.

Definition info_of (p : path) (n : Inode) : FileInfo :=
  {| Name := default "/" (last p);
     IsDir := match n with IDir _ => true | _ => false end;
     Mode := match n with IFile m | IDir m => m | ILink _ => 511%N end |}.

(** Some busy entry that exists lies at or below [k]. *)
Definition pinned (t : gmap path Inode) (b : gset path) (k : path) : bool :=
  existsb (fun x => bool_decide (k `prefix_of` x) && bool_decide (is_Some (t !! x)))
          (elements b).

Definition drop_under {V} (p : path) (m : gmap path V) : gmap path V :=
  filter (fun kv => ~ p `prefix_of` kv.1) m.

Definition move_under {V} (s d : path) (m : gmap path V) : gmap path V :=
  list_to_map ((fun kv : path * V => (d ++ drop (length s) kv.1, kv.2)) <$>
               map_to_list (filter (fun kv => s `prefix_of` kv.1) m))
  ∪ drop_under d (drop_under s m).

(** *** The calls on the tree *)

Definition fs_mkdir (t : gmap path Inode) (name : string) (mode : N)
    : Errno + gmap path Inode :=
  let p := resolve name in
  if decide (name = "") then inl ENOENT
  else if dot_name name then
    match lstat t p with inr _ => inl EEXIST | inl e => inl e end
  else if decide (p = []) then inl EEXIST
  else match lstat t (removelast p) with
       | inl e => inl e
       | inr (IDir _) =>
           match t !! p with
           | Some _ => inl EEXIST
           | None => inr (<[p := IDir mode]> t)
           end
       | inr _ => inl ENOTDIR
       end.

Fixpoint mkdirall_from (t : gmap path Inode) (cur : path) (rest : list string)
    (mode : N) : (path * Errno) + gmap path Inode :=
  match rest with
  | [] => inr t
  | c :: rest' =>
      let p := cur ++ [c] in
      match t !! p with
      | Some (IDir _) => mkdirall_from t p rest' mode
      | Some (IFile _) => inl (p, ENOTDIR)
      | Some (ILink _) => inl (p, match rest' with [] => EEXIST | _ => ENOTDIR end)
      | None => mkdirall_from (<[p := IDir mode]> t) p rest' mode
      end
  end.

(** [os.MkdirAll]: nothing to do for a directory, [ENOTDIR] for another
    kind of file, and otherwise every missing ancestor is made on the
    way down. *)
Definition fs_MkdirAll (t : gmap path Inode) (name : string) (mode : N)
    : (path * Errno) + gmap path Inode :=
  match stat t (resolve name) with
  | inr (_, IDir _) => inr t
  | inr _ => inl (resolve name, ENOTDIR)
  | inl _ => mkdirall_from t [] (resolve name) mode
  end.

(** [os.Rename].  Go refuses an existing directory as the new name with
    [EEXIST] before it asks the kernel; the kernel replaces an existing
    file, and moves a directory with everything below it. *)
Definition fs_rename (w : World) (old new : string)
    : Errno + (gmap path Inode * gmap path string) :=
  let t := tree w in
  let s := resolve old in
  let d := resolve new in
  match lstat t s with
  | inl e => inl e
  | inr n =>
      match lstat t d with
      | inr (IDir _) => if decide (s = d) then inr (t, data w) else inl EEXIST
      | inl ENOTDIR => inl ENOTDIR
      | r =>
          match lstat t (removelast d) with
          | inl e => inl e
          | inr (IDir _) =>
              if decide (s = [] \/ d = []) then inl EBUSY
              else if decide (s = d) then inr (t, data w)
              else if bool_decide (s `prefix_of` d) then inl EINVAL
              else if pinned t (busy w) s || bool_decide (d ∈ busy w) then inl EBUSY
              else match r, n with
                   | inr _, IDir _ => inl ENOTDIR
                   | _, _ => inr (move_under s d t, move_under s d (data w))
                   end
          | inr _ => inl ENOTDIR
          end
      end
  end.

(** [os.RemoveAll]: everything at and below the name goes, except what
    is pinned by a busy entry; a name that does not exist is no error. *)
Definition fs_RemoveAll (w : World) (name : string)
    : option Errno * (gmap path Inode * gmap path string) :=
  let t := tree w in
  let p := resolve name in
  if decide (name = "") then (None, (t, data w))
  else if endsWithDot name then (Some EINVAL, (t, data w))
  else match lstat t p with
       | inl ENOENT => (None, (t, data w))
       | inl e => (Some e, (t, data w))
       | inr _ =>
           let gone (k : path) : Prop := p `prefix_of` k /\ pinned t (busy w) k = false in
           ((if pinned t (busy w) p then Some EBUSY else None),
            (filter (fun kv => ~ gone kv.1) t,
             filter (fun kv => ~ gone kv.1) (data w)))
       end.

Definition fs_symlink (t : gmap path Inode) (target name : string)
    : Errno + gmap path Inode :=
  let p := resolve name in
  if decide (name = "") then inl ENOENT
  else if dot_name name || bool_decide (p = []) then inl EEXIST
  else match lstat t (removelast p) with
       | inl e => inl e
       | inr (IDir _) =>
           match t !! p with
           | Some _ => inl EEXIST
           | None => inr (<[p := ILink target]> t)
           end
       | inr _ => inl ENOTDIR
       end.

Definition fs_chmod (t : gmap path Inode) (name : string) (mode : N)
    : Errno + gmap path Inode :=
  match stat t (resolve name) with
  | inl e => inl e
  | inr (q, IFile _) => inr (<[q := IFile mode]> t)
  | inr (q, IDir _) => if decide (q = []) then inr t else inr (<[q := IDir mode]> t)
  | inr (q, ILink _) => inl ELOOP
  end.

(** [open(2)] with [O_RDWR|O_TRUNC], and [O_CREATE] when [create]: the
    regular file is emptied, or made with [mode] when it is missing;
    the handle is the place of the file in the tree. *)
Definition fs_open_trunc (w : World) (create : bool) (name : string) (mode : N)
    : Errno + (path * gmap path Inode * gmap path string) :=
  let t := tree w in
  let p := resolve name in
  match stat t p with
  | inr (q, IFile _) => inr (q, t, <[q := ""]> (data w))
  | inr (_, _) => inl EISDIR
  | inl ENOENT =>
      if negb create then inl ENOENT
      else if decide (name = "") then inl ENOENT
      else match lstat t (removelast p), t !! p with
           | inr (IDir _), None => inr (p, <[p := IFile mode]> t, <[p := ""]> (data w))
           | inr (IDir _), Some _ => inl ENOENT
           | inr _, _ => inl ENOTDIR
           | inl e, _ => inl e
           end
  | inl e => inl e
  end.

Definition fs_readfile (w : World) (name : string) : Errno + string :=
  match stat (tree w) (resolve name) with
  | inr (q, IFile _) => inr (default "" (data w !! q))
  | inr (_, _) => inl EISDIR
  | inl e => inl e
  end.

(** The entries of a directory, sorted by name as [ioutil.ReadDir] does. *)
Definition fs_readdir (t : gmap path Inode) (name : string) : Errno + list FileInfo :=
  match stat t (resolve name) with
  | inr (q, IDir _) =>
      inr (merge_sort (fun a b => String.leb (Name a) (Name b))
             ((fun kv : path * Inode => info_of kv.1 kv.2) <$>
              map_to_list (filter (fun kv => kv.1 <> [] /\ removelast kv.1 = q) t)))
  | inr (_, _) => inl ENOTDIR
  | inl e => inl e
  end.

(** What [filepath.Walk] visits from [root]: the root and, when it is a
    directory, everything below it, each under the name Walk builds for
    it; no link is followed. *)
Definition fs_walk (t : gmap path Inode) (root : string)
    : Errno + list (string * FileInfo) :=
  let r := resolve root in
  match lstat t r with
  | inl e => inl e
  | inr (IDir m) =>
      inr ((root, info_of r (IDir m)) ::
           ((fun kv : path * Inode =>
               (filepath.Join [root; String.concat "/" (drop (length r) kv.1)],
                info_of kv.1 kv.2)) <$>
            map_to_list (filter (fun kv => r `prefix_of` kv.1 /\ kv.1 <> r) t)))
  | inr n => inr [(root, info_of r n)]
  end.

(** *** The calls as the program makes them *)

Definition emit (e : Event) : M unit :=
  fun w => (tt, mkWorld (tree w) (data w) (busy w) (rand w) (trace w ++ [e])).

Definition sys (c : Call) (name : string) : M unit := emit (EvSys c name).

Definition put (t : gmap path Inode) (d : gmap path string) : M unit :=
  fun w => (tt, mkWorld t d (busy w) (rand w) (trace w)).

Definition get : M World := fun w => (w, w).

Definition show (p : path) : string := "/" +:+ String.concat "/" p.

Definition Stat (name : string) : M (option FileInfo * option error) :=
  _ ← sys CStat name;
  w ← get;
  match stat (tree w) (resolve name) with
  | inr (q, n) => mret (Some (info_of q n), None)
  | inl e => mret (None, Some (ErrPath "stat" name e))
  end.

Definition Mkdir (name : string) (mode : N) : M (option error) :=
  _ ← sys CMkdir name;
  w ← get;
  match fs_mkdir (tree w) name mode with
  | inr t => _ ← put t (data w); mret None
  | inl e => mret (Some (ErrPath "mkdir" name e))
  end.

Definition MkdirAll (name : string) (mode : N) : M (option error) :=
  _ ← sys CMkdirAll name;
  w ← get;
  match fs_MkdirAll (tree w) name mode with
  | inr t => _ ← put t (data w); mret None
  | inl (p, e) => mret (Some (ErrPath "mkdir" (show p) e))
  end.

Definition Rename (old new : string) : M (option error) :=
  _ ← sys CRename old;
  w ← get;
  match fs_rename w old new with
  | inr (t, d) => _ ← put t d; mret None
  | inl e => mret (Some (ErrPath "rename" (old +:+ " " +:+ new) e))
  end.

Definition RemoveAll (name : string) : M (option error) :=
  _ ← sys CRemoveAll name;
  w ← get;
  let '(e, (t, d)) := fs_RemoveAll w name in
  _ ← put t d;
  mret (ErrPath "unlinkat" name <$> e).

Definition Symlink (target name : string) : M (option error) :=
  _ ← sys CSymlink name;
  w ← get;
  match fs_symlink (tree w) target name with
  | inr t => _ ← put t (data w); mret None
  | inl e => mret (Some (ErrPath "symlink" (target +:+ " " +:+ name) e))
  end.

Definition Chmod (name : string) (mode : N) : M (option error) :=
  _ ← sys CChmod name;
  w ← get;
  match fs_chmod (tree w) name mode with
  | inr t => _ ← put t (data w); mret None
  | inl e => mret (Some (ErrPath "chmod" name e))
  end.

(** [os.OpenFile(name, O_RDWR|O_TRUNC [|O_CREATE], mode)]. *)
Definition OpenFile (create : bool) (name : string) (mode : N)
    : M (option path * option error) :=
  _ ← sys COpenFile name;
  w ← get;
  match fs_open_trunc w create name mode with
  | inr (q, t, d) => _ ← put t d; mret (Some q, None)
  | inl e => mret (None, Some (ErrPath "open" name e))
  end.

(** Writing through a handle appends to the file; closing it has no
    further effect. *)
Definition Write (f : path) (bytes : string) : M (option error) :=
  _ ← sys CWrite (show f);
  w ← get;
  _ ← put (tree w) (<[f := default "" (data w !! f) +:+ bytes]> (data w));
  mret None.

Definition Close (f : path) : M (option error) :=
  _ ← sys CClose (show f); mret None.

Definition ReadFile (name : string) : M (option string * option error) :=
  _ ← sys CReadFile name;
  w ← get;
  match fs_readfile w name with
  | inr s => mret (Some s, None)
  | inl e => mret (None, Some (ErrPath "open" name e))
  end.

Definition ReadDir (name : string) : M (list FileInfo * option error) :=
  _ ← sys CReadDir name;
  w ← get;
  match fs_readdir (tree w) name with
  | inr l => mret (l, None)
  | inl e => mret ([], Some (ErrPath "open" name e))
  end.

(** [filepath.Walk(root, fn)] for a callback that returns the error it
    is given and nil otherwise: the visited entries, or the error of the
    root. *)
Definition Walk (root : string) : M (list (string * FileInfo) * option error) :=
  _ ← sys CWalk root;
  w ← get;
  match fs_walk (tree w) root with
  | inr l => mret (l, None)
  | inl e => mret ([], Some (ErrPath "lstat" root e))
  end.

(** [nextRandom]. *)
Definition nextRandom : M string :=
  fun w => (pretty (hd O (rand w)),
            mkWorld (tree w) (data w) (busy w) (tl (rand w)) (trace w)).

(** [ioutil.TempDir(dir, prefix + "*" + suffix)]: up to [tries] random
    names are tried while the name exists; when the directory cannot be
    made because something does not exist, [dir] is examined, and the
    error of that [Stat] is returned if it says so too. *)
Fixpoint TempDir_loop (tries : nat) (dir pre suf : string) : M (string * option error) :=
  match tries with
  | O => mret ("", Some (ErrPath "mkdir" (filepath.Join [dir; pre +:+ "*" +:+ suf]) EEXIST))
  | S tries' =>
      r ← nextRandom;
      let try := filepath.Join [dir; pre +:+ r +:+ suf] in
      err ← Mkdir try perm_0700;
      if IsExist err then TempDir_loop tries' dir pre suf
      else match err with
           | None => mret (try, None)
           | Some e =>
               if IsNotExist err then
                 '(_, serr) ← Stat dir;
                 if IsNotExist serr then mret ("", serr) else mret ("", Some e)
               else mret ("", Some e)
           end
  end.

Definition TempDir (dir pre suf : string) : M (string * option error) :=
  TempDir_loop 10000 (if decide (dir = "") then "/tmp" else dir) pre suf.

End os.

(** ** [logrus] *)

Module logrus.
Definition log (l : Level) (msg : string) : M unit := os.emit (EvLog l msg).
Definition Debugf := log LDebug.
Definition Infof := log LInfo.
Definition Errorf := log LError.
End logrus.

Definition errno_text (e : Errno) : string :=
  match e with
  | ENOENT => "no such file or directory"
  | EEXIST => "file exists"
  | ENOTEMPTY => "directory not empty"
  | ENOTDIR => "not a directory"
  | EISDIR => "is a directory"
  | EBUSY => "device or resource busy"
  | ELOOP => "too many levels of symbolic links"
  | EINVAL => "invalid argument"
  | EIO => "input/output error"
  end.

(** [err.Error()]. *)
Fixpoint Error (e : error) : string :=
  match e with
  | ErrNew msg => msg
  | ErrPath op p no => op +:+ " " +:+ p +:+ ": " +:+ errno_text no
  | ErrWrap cause msg => msg +:+ ": " +:+ Error cause
  | ErrMulti errs =>
      (fix all (l : list error) : string :=
         match l with
         | [] => ""
         | [x] => Error x
         | x :: l' => Error x +:+ ", " +:+ all l'
         end) errs
  end.

(** ** Decompression adapters

    The wrappers hold references to a decompressor and to the file it
    reads from.  Both live in a store of closable objects: an object is
    open or closed and carries what its [Close] reports. *)

Module readclosers.

Record Obj := mkObj { closed : bool; on_close : option error }.

Abbreviation Store := (gmap nat Obj).

Definition ErrClosed : error := ErrNew "file already closed".
Definition ErrInvalid : error := ErrNew "invalid argument".

(** [Close] of an [io.Closer]: an [os.File] and a [gzip.Reader] report the
    outcome of releasing the object; a file closed twice reports
    [os.ErrClosed]. *)
Definition Closer_Close (h : nat) : ST Store (option error) :=
  fun st =>
    match st !! h with
    | None => (Some ErrInvalid, st)
    | Some o =>
        if closed o then (Some ErrClosed, st)
        else (on_close o, <[h := mkObj true (on_close o)]> st)
    end.

(** The decoder's own Close ([zstd.Decoder]), which has no result. *)
Definition Decoder_Close (h : nat) : ST Store unit :=
  fun st =>
    match st !! h with
    | None => (tt, st)
    | Some o => (tt, <[h := mkObj true (on_close o)]> st)
    end.

Record zstdReadCloser := ZstdReadCloser { zstd_r : nat; zstd_c : nat }.
Record multiReadCloser := MultiReadCloser { multi_r : nat; multi_c : nat }.
Record splitReadCloser := SplitReadCloser { split_r : nat; split_c : nat }.

Definition zstdReadCloser_Close (w : zstdReadCloser) : ST Store (option error) :=
  _ ← Decoder_Close (zstd_r w);
  Closer_Close (zstd_c w).

Definition multiReadCloser_Close (w : multiReadCloser) : ST Store (option error) :=
  let errs := [] in
  err ← Closer_Close (multi_r w);
  let errs := match err with Some e => errs ++ [e] | None => errs end in
  err ← Closer_Close (multi_c w);
  let errs := match err with Some e => errs ++ [e] | None => errs end in
  mret (NewErrors errs).

Definition splitReadCloser_Close (w : splitReadCloser) : ST Store (option error) :=
  Closer_Close (split_c w).

Definition is_closed (st : Store) (h : nat) : bool :=
  match st !! h with Some o => closed o | None => false end.

End readclosers.

(** ** Images, archives and charts *)

Module tar.
Inductive Flag := TypeReg | TypeDir | TypeOther.
Record Header := { Name : string; Typeflag : Flag; Mode : N }.
End tar.

(** A [v1.Image], as far as extraction sees it: the entries of its
    flattened file system with their bytes, and how the stream ends
    ([None] for [io.EOF]). *)
Record Image := { entries : list (tar.Header * string); stream_end : option error }.

(** The openers [preloadFile] builds, one per archive format. *)
Inductive Opener := OpenTar | OpenLz4 | OpenBzip2 | OpenGzip | OpenZstd.

Inductive IntOrStringType := Int | String_.
Record IntOrString := { Type_ : IntOrStringType; IntVal : Z; StrVal : string }.

(** [intstr.FromString]. *)
Definition FromString (s : string) : IntOrString :=
  {| Type_ := String_; IntVal := 0; StrVal := s |}.

(** A [helmv1.HelmChart]: [Spec.Set] ([None] for the nil map),
    [Spec.JobImage], and all its other fields. *)
Record HelmChart :=
  { Spec_Set : option (gmap string IntOrString);
    Spec_JobImage : string;
    Others : string }.

Inductive Object := ObjHelmChart (c : HelmChart) | ObjOther (kind : string).

(** Indexing a map that may be nil: the zero value when the key is absent. *)
Definition index (m : option (gmap string IntOrString)) (k : string) : IntOrString :=
  default {| Type_ := Int; IntVal := 0; StrVal := "" |} (default ∅ m !! k).

(** Modelled from the spec: [images.Resolver] of [pkg/images], which is
    not among the sources: it holds the configured registry and the runtime
    image reference, and hands the reference out under its own registry or
    under the one asked for, tag or digest as configured. *)
Record Resolver := { Registry : string; Runtime : name.Reference }.

(** Modelled from the spec: [images.WithRegistry], which moves a reference
    to another registry and keeps its repository and its tag or digest;
    the string the reference was parsed from stays with it. *)
Definition WithRegistry (registry : string) (ref : name.Reference) : name.Reference :=
  match ref with
  | name.Tag r t o =>
      name.Tag {| name.Registry_Name := registry; name.RepositoryStr := name.RepositoryStr r |} t o
  | name.Digest r d o =>
      name.Digest {| name.Registry_Name := registry; name.RepositoryStr := name.RepositoryStr r |} d o
  end.

(** Modelled from the spec: [resolver.MustGetReference(images.Runtime, ...)],
    under the resolver's registry unless another one is asked for. *)
Definition MustGetReference (resolver : Resolver) (registry : option string) : name.Reference :=
  WithRegistry (default (Registry resolver) registry) (Runtime resolver).

(** Modelled from the spec: [images.DefaultRegistry], the well-known
    default registry. *)
Definition images_DefaultRegistry : string := "docker.io".

(** ** The bootstrap package *)

Definition binDirForDigest (dataDir refDigest : string) : string :=
  filepath.Join [dataDir; "data"; refDigest; "bin"].

Definition manifestsDir (dataDir : string) : string :=
  filepath.Join [dataDir; "server"; "manifests"].

Definition imagesDir (dataDir : string) : string :=
  filepath.Join [dataDir; "agent"; "images"].

Definition symlinkBinDir (dataDir : string) : string :=
  filepath.Join [dataDir; "bin"].

Definition runtimeCacheDir (dataDir : string) : string :=
  filepath.Join [dataDir; "agent"; "cache"; "runtime"].

Definition dirExists (dir : string) : M bool :=
  '(s, err) ← os.Stat dir;
  mret (match s, err with
        | Some s, None => IsDir s
        | _, _ => false
        end).

(** [util.HasSuffixI] of k3s. *)
Definition HasSuffixI (s : string) (suffixes : list string) : bool :=
  existsb (fun suffix => GoStrings.HasSuffix (GoStrings.ToLower s) (GoStrings.ToLower suffix))
          suffixes.

(** The [switch] of [preloadFile], lines 377-428: return at once, build an
    opener, or refuse the file. *)
Inductive Selected := Skipped | Opened (o : Opener) | Unhandled.

Definition selectOpener (fileName : string) : Selected :=
  if HasSuffixI fileName [".txt"] then Skipped
  else if HasSuffixI fileName [".tar"] then Opened OpenTar
  else if HasSuffixI fileName [".tar.lz4"] then Opened OpenLz4
  else if HasSuffixI fileName [".tar.bz2"; ".tbz"] then Opened OpenBzip2
  else if HasSuffixI fileName [".tar.gz"; ".tgz"] then Opened OpenGzip
  else if HasSuffixI fileName ["tar.zst"; ".tzst"] then Opened OpenZstd
  else Unhandled.

(** The step of the placement loop: [return err], or go on with [errs]. *)
Inductive Step := Return (err : error) | Continue (errs : list error).

Section Bootstrap.

(** The order in which a [range] over a map yields its entries. *)
Variable range : forall V : Type, gmap string V -> list (string * V).

(** What lies outside the package: the parser of (decompressed) image
    archives behind [tarball.Image], the registry behind [remote.Image],
    [getPrivateRegistries] of this package's registry file, the
    serializer of the manifests, and [helm.DefaultJobImage]. *)
Variable Registries : Type.
Variable tarball_parse : Opener -> string -> name.Reference -> error + Image.
Variable remote_Image : name.Reference -> Registries -> error + Image.
Variable getPrivateRegistries : string -> World -> error + Registries.
Variable Decode : string -> error + Object.
Variable Encode : HelmChart -> error + string.
Variable DefaultJobImage : string.

(** [tarball.Image(opener, &imageTag)]: the archive is opened and read
    through the opener's decompressor, and searched for the tag. *)
Definition tarball_Image (opener : Opener) (fileName : string) (imageTag : name.Reference)
    : M (error + Image) :=
  '(bytes, err) ← os.ReadFile fileName;
  match bytes, err with
  | Some b, None => mret (tarball_parse opener b imageTag)
  | _, Some e => mret (inl e)
  | None, None => mret (inl (ErrNew "unexpected EOF"))
  end.

(** Lines 161-209; the loop over the entries of the stream. *)
Fixpoint extract_loop (targetDir : string) (dirs : gmap string string)
    (t : list (tar.Header * string)) (last : option error) : M (option error) :=
  match t with
  | [] => mret last
  | (h, body) :: t' =>
      let targetName := filepath.Join [targetDir; tar.Name h] in
      let targetDir' := filepath.Dir (tar.Name h) in
      match tar.Typeflag h with
      | tar.TypeDir =>
          match dirs !! targetDir' with
          | None => extract_loop targetDir dirs t' last
          | Some _ =>
              '(_, err) ← os.Stat targetName;
              match err with
              | Some _ =>
                  err ← os.MkdirAll targetName perm_0755;
                  match err with
                  | Some e => mret (Some e)
                  | None => extract_loop targetDir dirs t' last
                  end
              | None => extract_loop targetDir dirs t' last
              end
          end
      | tar.TypeReg =>
          match dirs !! targetDir' with
          | None => extract_loop targetDir dirs t' last
          | Some _ =>
              _ ← logrus.Infof ("Extracting file " +:+ tar.Name h);
              let mode := N.land (tar.Mode h) perm_0755 in
              '(f, err) ← os.OpenFile true targetName mode;
              match f, err with
              | Some f, None =>
                  err ← os.Write f body;
                  match err with
                  | Some e => _ ← os.Close f; mret (Some e)
                  | None =>
                      err ← os.Close f;
                      match err with
                      | Some e => mret (Some e)
                      | None => extract_loop targetDir dirs t' last
                      end
                  end
              | _, Some e => mret (Some e)
              | None, None => mret (Some (ErrNew "invalid argument"))
              end
          end
      | tar.TypeOther => extract_loop targetDir dirs t' last
      end
  end.

Definition extract (targetDir : string) (dirs : gmap string string) (reader : Image)
    : M (option error) :=
  err ← os.MkdirAll targetDir perm_0755;
  match err with
  | Some e => mret (Some e)
  | None => extract_loop targetDir dirs (entries reader) (stream_end reader)
  end.

(** Lines 284-301: the files of a staged subtree, one by one. *)
Fixpoint place_files (tempSource dest : string) (files : list FileInfo)
    (errs : list error) : M (list error) :=
  match files with
  | [] => mret errs
  | file :: files' =>
      let src := filepath.Join [tempSource; Name file] in
      let dst := filepath.Join [dest; Name file] in
      err ← os.Rename src dst;
      if IsExist err then
        err ← os.RemoveAll dst;
        match err with
        | Some e =>
            place_files tempSource dest files'
              (errs ++ [ErrWrap e ("failed to remove " +:+ dst)])
        | None =>
            err ← os.Rename src dst;
            match err with
            | Some e =>
                place_files tempSource dest files'
                  (errs ++ [ErrWrap e ("failed to rename " +:+ src +:+ " to " +:+ dst)])
            | None => place_files tempSource dest files' errs
            end
        end
      else
        match err with
        | Some e =>
            place_files tempSource dest files'
              (errs ++ [ErrWrap e ("failed to rename " +:+ src +:+ " to " +:+ dst)])
        | None => place_files tempSource dest files' errs
        end
  end.

(** Lines 251-301: one planned subtree. *)
Definition place_dir (tempDir source dest : string) (errs : list error) : M Step :=
  let tempSource := filepath.Join [tempDir; source] in
  '(_, err) ← os.Stat tempSource;
  match err with
  | Some e => mret (Continue (errs ++ [e]))
  | None =>
      _ ← logrus.Debugf ("Moving extracted content from " +:+ tempSource +:+ " to " +:+ dest);
      let destParent := filepath.Dir dest in
      '(_, err) ← os.Stat destParent;
      err ← match err with
            | Some _ => os.MkdirAll destParent perm_0755
            | None => mret None
            end;
      match err with
      | Some e => mret (Return e)
      | None =>
          err ← os.Rename tempSource dest;
          match err with
          | None => mret (Continue errs)
          | Some e =>
              if negb (IsExist err) then mret (Continue (errs ++ [e]))
              else
                '(files, err) ← os.ReadDir tempSource;
                match err with
                | Some e => mret (Continue (errs ++ [e]))
                | None =>
                    errs ← place_files tempSource dest files errs;
                    mret (Continue errs)
                end
          end
      end
  end.

(** Lines 247-304: the loop over the plan. *)
Fixpoint place_loop (tempDir : string) (plan : list (string * string))
    (errs : list error) : M (option error) :=
  match plan with
  | [] => mret (NewErrors errs)
  | (source, dest) :: plan' =>
      r ← place_dir tempDir source dest errs;
      match r with
      | Return e => mret (Some e)
      | Continue errs' => place_loop tempDir plan' errs'
      end
  end.

(** Lines 232-305.  The deferred calls run when the body has returned:
    closing the image reader, which touches nothing here, and then
    [os.RemoveAll(tempDir)]. *)
Definition extractToDirs (img : Image) (dataDir : string) (dirs : gmap string string)
    : M (option error) :=
  '(tempDir, err) ← os.TempDir dataDir "runtime-" "";
  match err with
  | Some e => mret (Some e)
  | None =>
      let imageReader := img in
      r ← (err ← extract tempDir dirs imageReader;
           match err with
           | Some e => mret (Some e)
           | None => place_loop tempDir (range _ dirs) []
           end);
      _ ← os.RemoveAll tempDir;
      mret r
  end.

(** Lines 375-436. *)
Definition preloadFile (imageTag : name.Reference) (fileName : string)
    : M (option Image * option error) :=
  match selectOpener fileName with
  | Skipped => mret (None, None)
  | Unhandled => mret (None, Some (ErrNew "unhandled file type"))
  | Opened opener =>
      r ← tarball_Image opener fileName imageTag;
      match r with
      | inl err =>
          _ ← logrus.Debugf ("Did not find " +:+ name.String imageTag +:+ " in " +:+
                             fileName +:+ ": " +:+ Error err);
          mret (None, None)
      | inr img => mret (Some img, None)
      end
  end.

(** Lines 360-371: the files of the images directory, one by one. *)
Fixpoint scan_files (imageTag : name.Reference) (imagesDir : string)
    (fileNames : list string) : M (option Image * option error) :=
  match fileNames with
  | [] =>
      _ ← logrus.Debugf ("No local image available for " +:+ name.String imageTag +:+
                         ": not found in any file in " +:+ imagesDir);
      mret (None, None)
  | fileName :: rest =>
      '(img, err) ← preloadFile imageTag fileName;
      match img with
      | Some i =>
          _ ← logrus.Debugf ("Found " +:+ name.String imageTag +:+ " in " +:+ fileName);
          mret (Some i, None)
      | None =>
          _ ← match err with
              | Some e => logrus.Infof ("Failed to check " +:+ fileName +:+ ": " +:+ Error e)
              | None => mret tt
              end;
          scan_files imageTag imagesDir rest
      end
  end.

(** The callback of [filepath.Walk] at lines 347-355 keeps what is not a
    directory. *)
Definition collect_files (visited : list (string * FileInfo)) : gmap string FileInfo :=
  fold_left (fun files '(p, info) => if IsDir info then files else <[p := info]> files)
            visited ∅.

(** Lines 329-372. *)
Definition preloadBootstrapImage (dataDir : string) (imageRef : name.Reference)
    : M (option Image * option error) :=
  match imageRef with
  | name.Digest _ _ _ =>
      _ ← logrus.Debugf ("No local image available for " +:+ name.String imageRef +:+
                         ": reference is not a tag");
      mret (None, None)
  | name.Tag _ _ _ =>
      let imageTag := imageRef in
      let imagesDir := imagesDir dataDir in
      '(_, err) ← os.Stat imagesDir;
      match err with
      | Some e =>
          if IsNotExist err then
            _ ← logrus.Debugf ("No local image available for " +:+ name.String imageTag +:+
                               ": directory " +:+ imagesDir +:+ " does not exist");
            mret (None, None)
          else mret (None, Some e)
      | None =>
          '(visited, err) ← os.Walk imagesDir;
          let files := collect_files visited in
          match err with
          | Some e => mret (None, Some e)
          | None => scan_files imageTag imagesDir (fst <$> range _ files)
          end
      end
  end.

(** Lines 315-324. *)
Fixpoint preload_refs (dataDir : string) (refs : list name.Reference)
    : M (option Image * option error) :=
  match refs with
  | [] => mret (None, None)
  | ref :: refs' =>
      '(img, err) ← preloadBootstrapImage dataDir ref;
      match img with
      | Some i => mret (Some i, err)
      | None =>
          _ ← match err with
              | Some e => logrus.Errorf ("Failed to load for bootstrap image " +:+
                                         name.String ref +:+ ": " +:+ Error e)
              | None => mret tt
              end;
          preload_refs dataDir refs'
      end
  end.

(** Lines 310-325. *)
Definition preloadBootstrapFromRuntime (dataDir : string) (resolver : Resolver)
    : M (option Image * option error) :=
  let refs := [MustGetReference resolver None] in
  let refs :=
    if decide (Registry resolver <> name.DefaultRegistry)
    then refs ++ [MustGetReference resolver (Some images_DefaultRegistry)]
    else refs in
  preload_refs dataDir refs.

(** What [rewriteChart] makes of a decoded chart, lines 503-525: the
    chart to store and whether it changed. *)
Definition patchChart (chart : HelmChart) (dataDir systemDefaultRegistry : string)
    : HelmChart * bool :=
  let chartChanged := false in
  let set := default ∅ (Spec_Set chart) in
  let '(set, chartChanged) :=
    if decide (StrVal (index (Some set) "global.rke2DataDir") <> dataDir)
    then (<["global.rke2DataDir" := FromString dataDir]> set, true)
    else (set, chartChanged) in
  let '(set, chartChanged) :=
    if decide (StrVal (index (Some set) "global.systemDefaultRegistry") <> systemDefaultRegistry)
    then (<["global.systemDefaultRegistry" := FromString systemDefaultRegistry]> set, true)
    else (set, chartChanged) in
  let jobImage :=
    if decide (systemDefaultRegistry <> "")
    then systemDefaultRegistry +:+ "/" +:+ DefaultJobImage
    else DefaultJobImage in
  let '(image, chartChanged) :=
    if decide (Spec_JobImage chart <> jobImage) then (jobImage, true)
    else (Spec_JobImage chart, chartChanged) in
  ({| Spec_Set := Some set; Spec_JobImage := image; Others := Others chart |},
   chartChanged).

(** Lines 478-545.  [serializer.Encode(chart, f)] marshals the chart and
    writes the bytes to [f] in one piece. *)
Definition rewriteChart (fileName : string) (info : FileInfo)
    (dataDir systemDefaultRegistry : string) : M (option error) :=
  '(bytes, err) ← os.ReadFile fileName;
  match err with
  | Some e => mret (Some (ErrWrap e ("Failed to read manifest " +:+ fileName)))
  | None =>
      match Decode (default "" bytes) with
      | inl e =>
          _ ← logrus.Debugf ("Failed to decode manifest " +:+ fileName +:+ ": " +:+ Error e);
          mret None
      | inr (ObjOther kind) =>
          _ ← logrus.Debugf ("Manifest " +:+ fileName +:+ " is " +:+ kind +:+ ", not HelmChart");
          mret None
      | inr (ObjHelmChart chart) =>
          let '(chart, chartChanged) := patchChart chart dataDir systemDefaultRegistry in
          if chartChanged then
            '(f, err) ← os.OpenFile false fileName (Mode info);
            match f, err with
            | Some f, None =>
                err ← match Encode chart with
                      | inl e => mret (Some e)
                      | inr out => os.Write f out
                      end;
                match err with
                | Some e =>
                    _ ← os.Close f;
                    mret (Some (ErrWrap e ("Failed to serialize modified HelmChart " +:+ fileName)))
                | None =>
                    err ← os.Close f;
                    match err with
                    | Some e =>
                        mret (Some (ErrWrap e ("Failed to write modified HelmChart " +:+ fileName)))
                    | None =>
                        _ ← logrus.Infof ("Updated HelmChart " +:+ fileName +:+
                               " to apply --system-default-registry modifications");
                        mret None
                    end
                end
            | _, Some e => mret (Some (ErrWrap e ("Unable to open HelmChart " +:+ fileName)))
            | None, None => mret (Some (ErrNew "invalid argument"))
            end
          else mret None
      end
  end.

(** The callback of [filepath.Walk] at lines 448-462 keeps the files
    named [.yml] or [.yaml]. *)
Definition collect_manifests (visited : list (string * FileInfo)) : gmap string FileInfo :=
  fold_left (fun files '(p, info) =>
               if IsDir info then files
               else if GoStrings.HasSuffix p ".yml" then <[p := info]> files
               else if GoStrings.HasSuffix p ".yaml" then <[p := info]> files
               else files)
            visited ∅.

(** Lines 466-472. *)
Fixpoint rewrite_files (files : list (string * FileInfo))
    (dataDir systemDefaultRegistry : string) (errs : list error) : M (list error) :=
  match files with
  | [] => mret errs
  | (fileName, info) :: files' =>
      err ← rewriteChart fileName info dataDir systemDefaultRegistry;
      rewrite_files files' dataDir systemDefaultRegistry
        (match err with Some e => errs ++ [e] | None => errs end)
  end.

(** Lines 443-473. *)
Definition setChartValues (dataDir systemDefaultRegistry : string) : M (option error) :=
  let manifestsDir := manifestsDir dataDir in
  '(visited, err) ← os.Walk manifestsDir;
  let files := collect_manifests visited in
  match err with
  | Some e => mret (Some e)
  | None =>
      errs ← rewrite_files (range _ files) dataDir systemDefaultRegistry [];
      mret (NewErrors errs)
  end.

(** Lines 125-134: the extraction plan. *)
Definition extractPaths (dataDir : string) (ref : name.Reference) (refBinDir : string)
    : M (gmap string string) :=
  let extractPaths : gmap string string := {[ "charts" := manifestsDir dataDir ]} in
  exists_ ← dirExists refBinDir;
  if exists_ : bool then
    _ ← logrus.Infof ("Runtime image " +:+ name.String ref +:+ " bin dir already exists at " +:+
                      refBinDir +:+ "; skipping extract");
    mret extractPaths
  else mret (<["bin" := refBinDir]> extractPaths).

(** Lines 136-156: extraction by the plan, permissions, charts, link. *)
Definition stageWith (dataDir : string) (resolver : Resolver) (refBinDir : string)
    (img : Image) (extractPaths : gmap string string) : M (string * option error) :=
  err ← extractToDirs img dataDir extractPaths;
  match err with
  | Some e => mret ("", Some (ErrWrap e "failed to extract runtime image"))
  | None =>
      err ← os.Chmod refBinDir perm_0755;
      match err with
      | Some e => mret ("", Some e)
      | None =>
          err ← setChartValues dataDir (Registry resolver);
          match err with
          | Some e =>
              mret ("", Some (ErrWrap e "failed to set system-default-registry on HelmCharts"))
          | None =>
              _ ← os.RemoveAll (symlinkBinDir dataDir);
              _ ← os.Symlink refBinDir (symlinkBinDir dataDir);
              mret (refBinDir, None)
          end
      end
  end.

(** Lines 122-156: what [Stage] does with the image it has found.  The
    layer cache hands the image on unchanged. *)
Definition stageImage (dataDir : string) (resolver : Resolver) (ref : name.Reference)
    (refBinDir : string) (img : Image) : M (string * option error) :=
  extractPaths ← extractPaths dataDir ref refBinDir;
  stageWith dataDir resolver refBinDir img extractPaths.

(** Lines 106-120: the pull from the registry. *)
Definition pullImage (privateRegistry : string) (ref : name.Reference)
    : M (error + Image) :=
  w ← os.get;
  match getPrivateRegistries privateRegistry w with
  | inl e =>
      mret (inl (ErrWrap e ("failed to load private registry configuration from " +:+
                            privateRegistry)))
  | inr registries =>
      _ ← logrus.Infof ("Pulling runtime image " +:+ name.String ref);
      _ ← os.emit (EvPull (name.Name ref));
      match remote_Image ref registries with
      | inl e => mret (inl (ErrWrap e ("failed to get runtime image " +:+ name.String ref)))
      | inr img => mret (inr img)
      end
  end.

(** [Stage], lines 85-157. *)
Definition Stage (dataDir privateRegistry : string) (resolver : Resolver)
    : M (string * option error) :=
  let ref := MustGetReference resolver None in
  let '(refDigest, err) := releaseRefDigest ref in
  match err with
  | Some e => mret ("", Some e)
  | None =>
      let refBinDir := binDirForDigest dataDir refDigest in
      '(img, err) ← preloadBootstrapFromRuntime dataDir resolver;
      match err with
      | Some e => mret ("", Some e)
      | None =>
          r ← match img with
              | None => pullImage privateRegistry ref
              | Some i => mret (inr i)
              end;
          match r with
          | inl e => mret ("", Some e)
          | inr img => stageImage dataDir resolver ref refBinDir img
          end
      end
  end.

End Bootstrap.

(** ** What the theorems observe of a run *)

Definition is_log (ev : Event) : Prop :=
  match ev with EvLog _ _ => True | _ => False end.

(** A call that changes the bytes of a file. *)
Definition is_write (ev : Event) : bool :=
  match ev with
  | EvSys COpenFile _ | EvSys CWrite _ => true
  | _ => false
  end.

(** The entry exists, whatever it is. *)
Definition exists_at (w : World) (name : string) : bool :=
  match os.lstat (tree w) (os.resolve name) with inr _ => true | inl _ => false end.

(** Every busy entry exists, and so does everything above it. *)
Definition busy_exist (w : World) : Prop :=
  forall b p, b ∈ busy w -> p `prefix_of` b -> p <> [] -> is_Some (tree w !! p).

(** [m] never changes what [obs] sees of the world. *)
Definition keeps {X A} (obs : World -> X) (m : M A) : Prop :=
  forall w, obs (snd (m w)) = obs w.

(** From [w] to [w'] no call has changed the bytes of a file. *)
Definition no_write (w w' : World) : Prop :=
  exists evs, trace w' = trace w ++ evs /\ Forall (fun ev => is_write ev = false) evs.

Section ChartObservations.
Variable Decode : string -> error + Object.
Variable DefaultJobImage : string.
Variables dataDir systemDefaultRegistry : string.

(** A chart as the patch leaves it. *)
Definition patched (c : HelmChart) : Prop :=
  exists set,
    Spec_Set c = Some set
    /\ StrVal (index (Some set) "global.rke2DataDir") = dataDir
    /\ StrVal (index (Some set) "global.systemDefaultRegistry") = systemDefaultRegistry
    /\ Spec_JobImage c =
         (if decide (systemDefaultRegistry <> "")
          then systemDefaultRegistry +:+ "/" +:+ DefaultJobImage
          else DefaultJobImage).

(** Bytes that [rewriteChart] would leave as they are. *)
Definition settled (content : string) : Prop :=
  match Decode content with
  | inr (ObjHelmChart c) =>
      snd (patchChart DefaultJobImage c dataDir systemDefaultRegistry) = false
  | _ => True
  end.

(** A file that cannot be read, or whose bytes are settled. *)
Definition quiet (w : World) (fileName : string) : Prop :=
  match os.fs_readfile w fileName with
  | inr content => settled content
  | inl _ => True
  end.

End ChartObservations.

(** ** Concrete data used by the examples *)

Module Examples.

Definition rke2_runtime : name.Repository :=
  {| name.Registry_Name := "index.docker.io"; name.RepositoryStr := "rancher/rke2-runtime" |}.

Definition runtime_tag : name.Reference :=
  name.Tag rke2_runtime "v1.21.5-rke2r1" "index.docker.io/rancher/rke2-runtime:v1.21.5-rke2r1".

(** The same image, named without its registry. *)
Definition short_tag : name.Reference :=
  name.Tag rke2_runtime "v1.21.5-rke2r1" "rancher/rke2-runtime:v1.21.5-rke2r1".

Definition resolver : Resolver :=
  {| Registry := "index.docker.io"; Runtime := runtime_tag |}.

Definition runtime_digest : name.Reference :=
  name.Digest rke2_runtime
    "sha256:0a2b5a0f7ed7ea806b5fb5a4cb0e3b7a4e2f0f4c8c2d3e1a9b8c7d6e5f4a3b2c"
    ("rancher/rke2-runtime@" +:+
     "sha256:0a2b5a0f7ed7ea806b5fb5a4cb0e3b7a4e2f0f4c8c2d3e1a9b8c7d6e5f4a3b2c").

Definition digest_resolver : Resolver :=
  {| Registry := "index.docker.io"; Runtime := runtime_digest |}.

(** A range that yields the entries in the order of the keys. *)
Definition in_order (V : Type) (m : gmap string V) : list (string * V) := map_to_list m.

(** A stand-in for the serializer: a chart is written as the binary
    digits of its code, after a marker. *)
#[global] Instance IntOrStringType_eq_dec : EqDecision IntOrStringType.
Proof. solve_decision. Defined.
#[global] Instance IntOrString_eq_dec : EqDecision IntOrString.
Proof. solve_decision. Defined.
#[global] Instance HelmChart_eq_dec : EqDecision HelmChart.
Proof. solve_decision. Defined.

#[global] Program Instance IntOrStringType_countable : Countable IntOrStringType :=
  inj_countable' (fun t => match t with Int => false | String_ => true end)
                 (fun b : bool => if b then String_ else Int) _.
Next Obligation. intros []; reflexivity. Defined.

#[global] Program Instance IntOrString_countable : Countable IntOrString :=
  inj_countable' (fun x => (Type_ x, IntVal x, StrVal x))
                 (fun '(t, i, s) => {| Type_ := t; IntVal := i; StrVal := s |}) _.
Next Obligation. intros []; reflexivity. Defined.

#[global] Program Instance HelmChart_countable : Countable HelmChart :=
  inj_countable' (fun c => (Spec_Set c, Spec_JobImage c, Others c))
                 (fun '(s, j, o) => {| Spec_Set := s; Spec_JobImage := j; Others := o |}) _.
Next Obligation. intros []; reflexivity. Defined.

Fixpoint digits (p : positive) : string :=
  match p with
  | xH => ""
  | xO p' => String "0" (digits p')
  | xI p' => String "1" (digits p')
  end.

Fixpoint undigits (s : string) : option positive :=
  match s with
  | EmptyString => Some xH
  | String c s' =>
      p ← undigits s';
      if decide (c = "0"%char) then Some (xO p)
      else if decide (c = "1"%char) then Some (xI p)
      else None
  end.

Definition marker : string := "HelmChart:".

Fixpoint strip (pre s : string) : option string :=
  match pre, s with
  | EmptyString, _ => Some s
  | String a pre', String b s' => if decide (a = b) then strip pre' s' else None
  | String _ _, EmptyString => None
  end.

Definition Encode (c : HelmChart) : error + string :=
  inr (marker +:+ digits (encode c)).

Definition Decode (s : string) : error + Object :=
  match strip marker s with
  | Some body =>
      match undigits body ≫= decode with
      | Some c => inr (ObjHelmChart c)
      | None => inl (ErrNew "cannot unmarshal")
      end
  | None =>
      match strip "kind: " s with
      | Some kind => inr (ObjOther kind)
      | None => inl (ErrNew "Object 'Kind' is missing")
      end
  end.

Definition jobImage : string := "rancher/klipper-helm:v0.6.6-build20211022".

(** The chart of the runtime image, as packaged. *)
Definition canal : HelmChart :=
  {| Spec_Set := None; Spec_JobImage := ""; Others := "rke2-canal" |}.

Definition canal_yaml : string :=
  match Encode canal with inr s => s | inl _ => "" end.

(** A runtime image with one binary and one manifest. *)
Definition runtime_image : Image :=
  {| entries :=
       [ ({| tar.Name := "bin/"; tar.Typeflag := tar.TypeDir; tar.Mode := 493 |}, "");
         ({| tar.Name := "bin/kubelet"; tar.Typeflag := tar.TypeReg; tar.Mode := 511 |}, "ELF");
         ({| tar.Name := "charts/"; tar.Typeflag := tar.TypeDir; tar.Mode := 493 |}, "");
         ({| tar.Name := "charts/rke2-canal.yaml"; tar.Typeflag := tar.TypeReg; tar.Mode := 420 |},
          canal_yaml);
         ({| tar.Name := "charts/notes.yaml"; tar.Typeflag := tar.TypeReg; tar.Mode := 420 |},
          "kind: ConfigMap") ];
     stream_end := None |}.

(** An archive that holds the image under the name written in it. *)
Definition parse (o : Opener) (bytes : string) (tag : name.Reference) : error + Image :=
  if decide (bytes = name.Name tag) then inr runtime_image
  else inl (ErrNew "tag not found").

Definition pull (ref : name.Reference) (_ : unit) : error + Image := inr runtime_image.

Definition no_registries (file : string) (w : World) : error + unit := inr tt.

Definition dirs_of (l : list path) : gmap path Inode :=
  list_to_map ((fun p => (p, IDir perm_0755)) <$> l).

Definition root : list path :=
  [ ["var"]; ["var"; "lib"]; ["var"; "lib"; "rancher"]; ["var"; "lib"; "rancher"; "rke2"] ].

Definition dataDir : string := "/var/lib/rancher/rke2".

(** A fresh node: only the data directory exists. *)
Definition fresh : World :=
  {| tree := dirs_of root; data := ∅; busy := ∅; rand := [42%nat]; trace := [] |}.

(** A node on which something is mounted at [<dataDir>/bin]. *)
Definition mounted : World :=
  {| tree := dirs_of (root ++ [ ["var"; "lib"; "rancher"; "rke2"; "bin"] ]);
     data := ∅;
     busy := {[ ["var"; "lib"; "rancher"; "rke2"; "bin"] ]};
     rand := [42%nat]; trace := [] |}.

(** A range that yields the entries in the opposite order. *)
Definition backwards (V : Type) (m : gmap string V) : list (string * V) :=
  rev (map_to_list m).

(** An image without charts. *)
Definition binaries : Image :=
  {| entries :=
       [ ({| tar.Name := "bin/"; tar.Typeflag := tar.TypeDir; tar.Mode := 493 |}, "");
         ({| tar.Name := "bin/kubelet"; tar.Typeflag := tar.TypeReg; tar.Mode := 511 |}, "ELF") ];
     stream_end := None |}.

(** A node where [<dataDir>/data] is a regular file. *)
Definition data_is_file : World :=
  {| tree := <[ ["var"; "lib"; "rancher"; "rke2"; "data"] := IFile 420 ]> (dirs_of root);
     data := ∅; busy := ∅; rand := [42%nat]; trace := [] |}.

(** The plan of a first run. *)
Definition plan : gmap string string :=
  {[ "charts" := "/var/lib/rancher/rke2/server/manifests";
     "bin" := "/var/lib/rancher/rke2/data/v1.21.5-rke2r1-bbb95ee11828/bin" ]}.

(** A node whose manifests were placed and not yet patched. *)
Definition placed : World :=
  snd (extractToDirs in_order runtime_image dataDir plan fresh).

Definition images : path := ["var"; "lib"; "rancher"; "rke2"; "agent"; "images"].

(** A node with an images directory: a checksum file, a file of a kind
    that is not handled, an archive of another image and an archive of
    the runtime image. *)
Definition airgap : World :=
  {| tree := dirs_of (root ++ [ ["var"; "lib"; "rancher"; "rke2"; "agent"]; images ])
             ∪ list_to_map [ (images ++ ["sha256sum.txt"], IFile 420);
                             (images ++ ["notes.zip"], IFile 420);
                             (images ++ ["other.tar.gz"], IFile 420);
                             (images ++ ["runtime.tar"], IFile 420) ];
     data := list_to_map
               [ (images ++ ["other.tar.gz"], "index.docker.io/rancher/pause:3.2");
                 (images ++ ["runtime.tar"],
                  "index.docker.io/rancher/rke2-runtime:v1.21.5-rke2r1") ];
     busy := ∅; rand := [42%nat]; trace := [] |}.

Definition images_dir : string := "/var/lib/rancher/rke2/agent/images".

(** A decompressor and the file under it; closing the file fails. *)
Definition failing_file : readclosers.Store :=
  {[ 0%nat := readclosers.mkObj false None;
     1%nat := readclosers.mkObj false (Some (ErrPath "close" "/images/runtime.tar.lz4" EIO)) ]}.

(** Both the decompressor and the file fail to close. *)
Definition failing_both : readclosers.Store :=
  {[ 0%nat := readclosers.mkObj false (Some (ErrNew "gzip: invalid checksum"));
     1%nat := readclosers.mkObj false (Some (ErrPath "close" "/images/runtime.tar.gz" EIO)) ]}.

End Examples.

(** ** Further observations and data *)

Definition is_pull (ev : Event) : bool :=
  match ev with EvPull _ => true | _ => false end.

(** [m] adds only events that satisfy [P] to the trace. *)
Definition adds {A} (P : Event -> Prop) (m : M A) : Prop :=
  forall w, exists evs, trace (snd (m w)) = trace w ++ evs /\ Forall P evs.

(** The file system of a world: the tree and the bytes. *)
Definition disk (w : World) : gmap path Inode * gmap path string := (tree w, data w).

(** The image of the first file that holds one, as [preloadFile] finds it
    in the world [w]. *)
Fixpoint first_found (tarball_parse : Opener -> string -> name.Reference -> error + Image)
    (imageTag : name.Reference) (w : World) (fileNames : list string) : option Image :=
  match fileNames with
  | [] => None
  | fileName :: rest =>
      match fst (fst (preloadFile tarball_parse imageTag fileName w)) with
      | Some img => Some img
      | None => first_found tarball_parse imageTag w rest
      end
  end.

(** The regular file a name leads to, links followed. *)
Definition target (w : World) (name : string) : option path :=
  match os.stat (tree w) (os.resolve name) with
  | inr (q, IFile _) => Some q
  | _ => None
  end.

(** From [w] to [w'] every regular file is one that was there, with the
    mode it had, or has no mode bit outside [mask]. *)
Definition new_files_within (mask : N) (w w' : World) : Prop :=
  forall p m, tree w' !! p = Some (IFile m) ->
              tree w !! p = Some (IFile m) \/ N.land m mask = m.

(** [m] makes no file with a mode bit outside [mask]. *)
Definition within {A} (mask : N) (m : M A) : Prop :=
  forall w, new_files_within mask w (snd (m w)).

(** What a call returns: the empty path with an error, [d] without. *)
Definition ends (d : string) (m : M (string * option error)) : Prop :=
  forall w, let r := fst (m w) in
            (snd r <> None -> fst r = "") /\ (snd r = None -> fst r = d).

(** What the lookup logs for a file that yields no image: a debug line
    when the archive cannot be opened or does not hold the tag, an info
    line when [preloadFile] reports an error. *)
Definition miss_logged (tarball_parse : Opener -> string -> name.Reference -> error + Image)
    (imageTag : name.Reference) (w : World) (fileName : string) (tr : list Event) : Prop :=
  (forall o e, selectOpener fileName = Opened o ->
     fst (tarball_Image tarball_parse o fileName imageTag w) = inl e ->
     EvLog LDebug ("Did not find " +:+ name.String imageTag +:+ " in " +:+
                   fileName +:+ ": " +:+ Error e) ∈ tr)
  /\ (forall e, snd (fst (preloadFile tarball_parse imageTag fileName w)) = Some e ->
     EvLog LInfo ("Failed to check " +:+ fileName +:+ ": " +:+ Error e) ∈ tr).

(** An image with nothing but the entries directly under [charts]. *)
Definition charts_only (img : Image) : Image :=
  {| entries := filter (fun e => filepath.Dir (tar.Name e.1) = "charts") (entries img);
     stream_end := stream_end img |}.

Definition under_charts (r : error + Image) : error + Image :=
  match r with
  | inl e => inl e
  | inr img => inr (charts_only img)
  end.

(** Every manifest the walk of [setChartValues] would keep is quiet: it
    cannot be read, it is not a chart, or it is a chart that holds the
    wanted values already. *)
Definition manifests_settled (Decode : string -> error + Object)
    (DefaultJobImage dataDir systemDefaultRegistry : string) (w : World) : Prop :=
  forall visited p info,
    os.fs_walk (tree w) (manifestsDir dataDir) = inr visited ->
    (p, info) ∈ visited -> IsDir info = false ->
    GoStrings.HasSuffix p ".yml" = true \/ GoStrings.HasSuffix p ".yaml" = true ->
    quiet Decode DefaultJobImage dataDir systemDefaultRegistry w p.

(** The fresh node of the examples after a first run of [Stage]. *)
Definition staged_node : World :=
  snd (Stage Examples.in_order unit Examples.parse Examples.pull Examples.no_registries
         Examples.Decode Examples.Encode Examples.jobImage Examples.dataDir ""
         Examples.resolver Examples.fresh).

(** From [w] to [w'] the trace has only grown. *)
Definition grown (w w' : World) : Prop := exists evs, trace w' = trace w ++ evs.

(** [ev] is among the events added to the trace from [w] to [w']. *)
Definition added (w w' : World) (ev : Event) : Prop :=
  exists evs, trace w' = trace w ++ evs /\ ev ∈ evs.

(** * Theorems *)

(** ** Reference digest namer *)

Section NamerFacts.
Import GoStrings.

Lemma be32_length x : length (Sha256.be32 x) = 4%nat.
Proof. reflexivity. Qed.

Lemma Sum256_length msg : length (Sha256.Sum256 msg) = 32%nat.
Proof. unfold Sha256.Sum256. rewrite !length_app, !be32_length. reflexivity. Qed.

Lemma EncodeToString_length bs :
  String.length (EncodeToString bs) = (2 * length bs)%nat.
Proof. induction bs as [|b bs IH]; simpl; [reflexivity | rewrite IH; lia]. Qed.

(** The hexadecimal digest has 64 characters: [[:12]] is in range. *)
Lemma hex_Sum256_length s : String.length (hex_Sum256 s) = 64%nat.
Proof. unfold hex_Sum256. rewrite EncodeToString_length, Sum256_length. reflexivity. Qed.

Lemma substring_length_le n s :
  (n <= String.length s)%nat -> String.length (substring 0 n s) = n.
Proof.
  revert s. induction n as [|n IH]; intros [|c s] H; simpl in *; try lia; try reflexivity.
  rewrite IH by lia. reflexivity.
Qed.

Lemma cut_first sep a b :
  contains_byte sep a = false -> cut sep (a +:+ String sep b) = Some (a, b).
Proof.
  induction a as [|c a IH]; simpl; intros H.
  - destruct (ascii_dec sep sep); [reflexivity | congruence].
  - destruct (ascii_dec c sep); [discriminate|].
    rewrite IH by assumption. reflexivity.
Qed.

End NamerFacts.

Example Sum256_abc :
  hex_Sum256 "abc" = "ba7816bf8f01cfea414140de5dae2223b00361a396177a9cb410ff61f20015ad".
Proof. vm_compute. reflexivity. Qed.

(** C1.  A tag that matches the release pattern is named by the tag, a
    dash and the first twelve hexadecimal characters of the SHA-256 of the
    reference string, which is what [ref.String()] gives: the string the
    reference was parsed from.  A digest [alg:hex] is named [hex].
    Neither case reports an error.  The name is a function of the tag
    and the reference string, or of the digest, alone: references that
    agree on these get the same name, whatever their registry and
    repository fields hold.  The hash is SHA-256: it has 64 hexadecimal
    characters and meets the test vector of the standard. *)
Theorem releaseRefDigest_identity (ref : name.Reference) :
  (forall repo t original,
      ref = name.Tag repo t original -> releasePattern_MatchString t = true ->
      name.String ref = original
      /\ releaseRefDigest ref =
           (t +:+ "-" +:+ substring 0 12 (hex_Sum256 original), None)
      /\ String.length (substring 0 12 (hex_Sum256 original)) = 12%nat
      /\ forall repo', releaseRefDigest (name.Tag repo' t original) = releaseRefDigest ref)
  /\ (forall repo alg hex original,
      ref = name.Digest repo (alg +:+ ":" +:+ hex) original ->
      GoStrings.contains_byte ":" alg = false ->
      releaseRefDigest ref = (hex, None)
      /\ forall repo' original',
           releaseRefDigest (name.Digest repo' (alg +:+ ":" +:+ hex) original')
           = releaseRefDigest ref)
  /\ hex_Sum256 "abc" = "ba7816bf8f01cfea414140de5dae2223b00361a396177a9cb410ff61f20015ad".
Proof.
  split; [|split].
  - intros repo t original -> Hm. unfold releaseRefDigest. rewrite Hm.
    split; [reflexivity|]. split; [reflexivity|]. split; [|reflexivity].
    apply substring_length_le. rewrite hex_Sum256_length. lia.
  - intros repo alg hex original -> Halg. unfold releaseRefDigest, GoStrings.SplitN2.
    change (alg +:+ ":" +:+ hex) with (alg +:+ String ":" hex).
    rewrite (cut_first _ _ _ Halg). split; reflexivity.
  - vm_compute. reflexivity.
Qed.

Lemma releaseRefDigest_identity_witness :
  releaseRefDigest Examples.short_tag = ("v1.21.5-rke2r1-5bfec0c55601", None)
  /\ releaseRefDigest
       (name.Digest Examples.rke2_runtime "sha256:deadbeef"
          "rancher/rke2-runtime@sha256:deadbeef")
     = ("deadbeef", None).
Proof.
  split.
  - destruct (releaseRefDigest_identity Examples.short_tag) as (Ht & _ & _).
    destruct (Ht _ _ _ eq_refl eq_refl) as (_ & -> & _). vm_compute. reflexivity.
  - destruct (releaseRefDigest_identity
                (name.Digest Examples.rke2_runtime "sha256:deadbeef"
                   "rancher/rke2-runtime@sha256:deadbeef")) as (_ & Hd & _).
    exact (proj1 (Hd Examples.rke2_runtime "sha256" "deadbeef" _ eq_refl eq_refl)).
Defined.

(** ** Decompression adapters *)

Section AdapterFacts.
Import readclosers.

Lemma Closer_Close_open st h o :
  st !! h = Some o -> closed o = false ->
  Closer_Close h st = (on_close o, <[h := mkObj true (on_close o)]> st).
Proof. intros Hh Ho. unfold Closer_Close. rewrite Hh, Ho. reflexivity. Qed.

Lemma is_closed_insert st h e : is_closed (<[h := mkObj true e]> st) h = true.
Proof. unfold is_closed. rewrite lookup_insert_eq. reflexivity. Qed.

Lemma is_closed_insert_ne st h h' o :
  h <> h' -> is_closed (<[h := o]> st) h' = is_closed st h'.
Proof. intros Hne. unfold is_closed. rewrite lookup_insert_ne by done. reflexivity. Qed.

End AdapterFacts.

(** C7, as the code has it.  Closing any of the three adapters closes the
    file under it.  The split and zstd adapters return what closing the
    file returns, an error when that fails; the multi adapter returns what
    [merr.NewErrors] makes of the two results, the collection of both
    errors when both closes fail. *)
Theorem adapters_Close (st : readclosers.Store) (r c : nat) (ro co : readclosers.Obj) :
  st !! r = Some ro -> st !! c = Some co -> r <> c ->
  readclosers.closed ro = false -> readclosers.closed co = false ->
  (let '(err, st') := readclosers.splitReadCloser_Close (readclosers.SplitReadCloser r c) st in
   err = readclosers.on_close co /\ readclosers.is_closed st' c = true)
  /\ (let '(err, st') := readclosers.zstdReadCloser_Close (readclosers.ZstdReadCloser r c) st in
      err = readclosers.on_close co /\ readclosers.is_closed st' c = true
      /\ readclosers.is_closed st' r = true)
  /\ (let '(err, st') := readclosers.multiReadCloser_Close (readclosers.MultiReadCloser r c) st in
      err = NewErrors (option_list (readclosers.on_close ro) ++
                       option_list (readclosers.on_close co))
      /\ readclosers.is_closed st' c = true /\ readclosers.is_closed st' r = true
      /\ (forall e1 e2, readclosers.on_close ro = Some e1 -> readclosers.on_close co = Some e2 ->
                        err = Some (ErrMulti [e1; e2]))).
Proof.
  intros Hr Hc Hne Hro Hco. split; [|split].
  - unfold readclosers.splitReadCloser_Close. simpl.
    rewrite (Closer_Close_open _ _ _ Hc Hco). split; [reflexivity|].
    apply is_closed_insert.
  - unfold readclosers.zstdReadCloser_Close, readclosers.Decoder_Close, mbind, ST_bind. simpl.
    rewrite Hr.
    rewrite (Closer_Close_open _ c co) by (rewrite ?lookup_insert_ne by done; done).
    split; [reflexivity|]. split; [apply is_closed_insert|].
    rewrite is_closed_insert_ne by done. apply is_closed_insert.
  - unfold readclosers.multiReadCloser_Close, mbind, ST_bind, mret, ST_ret. simpl.
    rewrite (Closer_Close_open _ _ _ Hr Hro).
    rewrite (Closer_Close_open _ c co) by (rewrite ?lookup_insert_ne by done; done).
    split; [|split; [apply is_closed_insert|split]].
    + destruct (readclosers.on_close ro), (readclosers.on_close co); reflexivity.
    + rewrite is_closed_insert_ne by done. apply is_closed_insert.
    + intros e1 e2 -> ->. reflexivity.
Qed.

Lemma adapters_Close_witness :
  fst (readclosers.multiReadCloser_Close (readclosers.MultiReadCloser 0 1) Examples.failing_both)
  = Some (ErrMulti [ErrNew "gzip: invalid checksum";
                    ErrPath "close" "/images/runtime.tar.gz" EIO]).
Proof.
  pose proof (adapters_Close Examples.failing_both 0 1 _ _ eq_refl eq_refl
                ltac:(discriminate) eq_refl eq_refl) as (_ & _ & H).
  destruct (readclosers.multiReadCloser_Close _ _) as [err st'].
  destruct H as (_ & _ & _ & H). exact (H _ _ eq_refl eq_refl).
Defined.

(** C7 as worded fails: the split and the zstd adapter both report the
    error of closing the file. *)
Lemma split_Close_returns_error :
  fst (readclosers.splitReadCloser_Close (readclosers.SplitReadCloser 0 1) Examples.failing_file)
    = Some (ErrPath "close" "/images/runtime.tar.lz4" EIO)
  /\ fst (readclosers.zstdReadCloser_Close (readclosers.ZstdReadCloser 0 1) Examples.failing_file)
    = Some (ErrPath "close" "/images/runtime.tar.lz4" EIO).
Proof. split; vm_compute; reflexivity. Qed.

(** ** Local image lookup *)

(** The suffixes the switch tells apart. *)
Example selectOpener_table :
  selectOpener "/images/rke2.TAR" = Opened OpenTar
  /\ selectOpener "/images/rke2.tar.gz" = Opened OpenGzip
  /\ selectOpener "/images/rke2.tgz" = Opened OpenGzip
  /\ selectOpener "/images/rke2.tar.bz2" = Opened OpenBzip2
  /\ selectOpener "/images/rke2.tbz" = Opened OpenBzip2
  /\ selectOpener "/images/rke2.tar.lz4" = Opened OpenLz4
  /\ selectOpener "/images/rke2.tar.zst" = Opened OpenZstd
  /\ selectOpener "/images/rke2.Tzst" = Opened OpenZstd
  /\ selectOpener "/images/sha256sum.txt" = Skipped
  /\ selectOpener "/images/rke2.zip" = Unhandled.
Proof. repeat split; vm_compute; reflexivity. Qed.

(** C6, where the code departs from it.  The suffix the switch looks for
    is [tar.zst], without the dot: a file whose name ends in none of the
    supported suffixes, such as [bundletar.zst], is opened as a zstd
    archive and never yields the error of an unhandled file type. *)
Theorem preloadFile_tar_zst_without_dot :
  forall (tarball_parse : Opener -> string -> name.Reference -> error + Image)
         (imageTag : name.Reference) (w : World),
    selectOpener "/var/lib/rancher/rke2/agent/images/bundletar.zst" = Opened OpenZstd
    /\ snd (fst (preloadFile tarball_parse imageTag
                   "/var/lib/rancher/rke2/agent/images/bundletar.zst" w)) = None.
Proof.
  intros parse tag w.
  assert (Hsel : selectOpener "/var/lib/rancher/rke2/agent/images/bundletar.zst"
                 = Opened OpenZstd) by (vm_compute; reflexivity).
  split; [exact Hsel|].
  unfold preloadFile. rewrite Hsel.
  unfold mbind, ST_bind.
  destruct (tarball_Image parse OpenZstd _ tag w) as [[e|img] w1]; simpl.
  - reflexivity.
  - reflexivity.
Qed.

Section PreloadFacts.
Variable range : forall V : Type, gmap string V -> list (string * V).
Variable tarball_parse : Opener -> string -> name.Reference -> error + Image.

Lemma Stat_eq name w :
  os.Stat name w =
    (match os.stat (tree w) (os.resolve name) with
     | inr (q, n) => (Some (os.info_of q n), None)
     | inl e => (None, Some (ErrPath "stat" name e))
     end,
     snd (os.sys CStat name w)).
Proof.
  unfold os.Stat, mbind, ST_bind, os.sys, os.emit, os.get. simpl.
  destruct (os.stat (tree w) (os.resolve name)) as [e|[q n]]; reflexivity.
Qed.

Lemma preloadBootstrapImage_digest dataDir repo d o w :
  preloadBootstrapImage range tarball_parse dataDir (name.Digest repo d o) w
  = ((None, None),
     snd (logrus.Debugf ("No local image available for " +:+
                         name.String (name.Digest repo d o) +:+
                         ": reference is not a tag") w)).
Proof. reflexivity. Qed.

Lemma releaseRefDigest_digest repo d o :
  snd (releaseRefDigest (name.Digest repo d o)) = None.
Proof.
  unfold releaseRefDigest.
  destruct (decide (length (GoStrings.SplitN2 d ":") = 2%nat)); reflexivity.
Qed.

End PreloadFacts.

Lemma pair_eq {A B} (p : A * B) (a : A) : fst p = a -> p = (a, snd p).
Proof. destruct p as [a' b]. simpl. intros ->. reflexivity. Qed.

(** C10.  A digest reference is never looked up locally: the lookup
    returns no image and no error after one log line, without a system
    call, and [Stage] goes on to pull the image with the file system as it
    found it, whatever the images directory holds. *)
Theorem digest_skips_local_lookup
    (range : forall V : Type, gmap string V -> list (string * V))
    (Registries : Type)
    (tarball_parse : Opener -> string -> name.Reference -> error + Image)
    (remote_Image : name.Reference -> Registries -> error + Image)
    (getPrivateRegistries : string -> World -> error + Registries)
    (Decode : string -> error + Object) (Encode : HelmChart -> error + string)
    (DefaultJobImage : string)
    (dataDir privateRegistry : string) (resolver : Resolver)
    (repo : name.Repository) (d original : string) (w : World) :
  Runtime resolver = name.Digest repo d original ->
  let ref := MustGetReference resolver None in
  preloadBootstrapImage range tarball_parse dataDir ref w
  = ((None, None),
     snd (logrus.Debugf ("No local image available for " +:+ name.String ref +:+
                         ": reference is not a tag") w))
  /\ exists w',
      tree w' = tree w /\ data w' = data w
      /\ (exists logs, trace w' = trace w ++ logs /\ Forall is_log logs)
      /\ Stage range Registries tarball_parse remote_Image getPrivateRegistries
               Decode Encode DefaultJobImage dataDir privateRegistry resolver w
         = (r ← pullImage Registries remote_Image getPrivateRegistries privateRegistry ref;
            match r with
            | inl e => mret ("", Some e)
            | inr img =>
                stageImage range Decode Encode DefaultJobImage dataDir resolver ref
                  (binDirForDigest dataDir (fst (releaseRefDigest ref))) img
            end) w'.
Proof.
  intros Hd ref.
  assert (Href : exists repo', ref = name.Digest repo' d original).
  { unfold ref, MustGetReference. rewrite Hd. simpl. eauto. }
  destruct Href as [repo' Href]. split.
  - rewrite Href. reflexivity.
  - unfold Stage. fold ref.
    pose proof (releaseRefDigest_digest repo' d original) as Hnil. rewrite <- Href in Hnil.
    destruct (releaseRefDigest ref) as [refDigest err] eqn:Hrd. simpl in Hnil. subst err.
    unfold preloadBootstrapFromRuntime.
    assert (Hdef : exists repo'', MustGetReference resolver (Some images_DefaultRegistry)
                                  = name.Digest repo'' d original).
    { unfold MustGetReference. rewrite Hd. simpl. eauto. }
    destruct Hdef as [repo'' Hdef]. fold ref. rewrite Hdef, Href.
    destruct (decide (Registry resolver <> name.DefaultRegistry)).
    + eexists. split; [|split; [|split]]; cycle 3.
      * unfold mbind at 1, ST_bind at 1. simpl. reflexivity.
      * reflexivity.
      * reflexivity.
      * simpl. rewrite <- app_assoc. eexists. split; [reflexivity|].
        repeat constructor.
    + eexists. split; [|split; [|split]]; cycle 3.
      * unfold mbind at 1, ST_bind at 1. simpl. reflexivity.
      * reflexivity.
      * reflexivity.
      * simpl. eexists. split; [reflexivity|]. repeat constructor.
Qed.

Lemma digest_skips_local_lookup_witness :
  fst (preloadBootstrapImage Examples.in_order Examples.parse Examples.dataDir
         (MustGetReference Examples.digest_resolver None) Examples.airgap) = (None, None)
  /\ exists w',
      tree w' = tree Examples.airgap
      /\ fst (Stage Examples.in_order unit Examples.parse Examples.pull Examples.no_registries
                 Examples.Decode Examples.Encode Examples.jobImage
                 Examples.dataDir "" Examples.digest_resolver Examples.airgap)
         = fst ((r ← pullImage unit Examples.pull Examples.no_registries ""
                       (MustGetReference Examples.digest_resolver None);
                 match r with
                 | inl e => mret ("", Some e)
                 | inr img =>
                     stageImage Examples.in_order Examples.Decode Examples.Encode
                       Examples.jobImage Examples.dataDir
                       Examples.digest_resolver (MustGetReference Examples.digest_resolver None)
                       (binDirForDigest Examples.dataDir
                          (fst (releaseRefDigest (MustGetReference Examples.digest_resolver None))))
                       img
                 end) w').
Proof.
  destruct (digest_skips_local_lookup Examples.in_order unit Examples.parse Examples.pull
              Examples.no_registries Examples.Decode Examples.Encode
              Examples.jobImage Examples.dataDir ""
              Examples.digest_resolver Examples.rke2_runtime
              "sha256:0a2b5a0f7ed7ea806b5fb5a4cb0e3b7a4e2f0f4c8c2d3e1a9b8c7d6e5f4a3b2c" _
              Examples.airgap eq_refl) as [Hlocal (w' & Ht & _ & _ & Hstage)].
  split.
  - rewrite Hlocal. reflexivity.
  - exists w'. split; [exact Ht|]. rewrite Hstage. reflexivity.
Defined.

(** ** What the calls leave alone *)

Section Keeps.
Context {X : Type} (obs : World -> X).

Lemma keeps_ret {A} (a : A) : keeps obs (mret a).
Proof. intros w. reflexivity. Qed.

Lemma keeps_bind {A B} (m : M A) (f : A -> M B) :
  keeps obs m -> (forall a, keeps obs (f a)) -> keeps obs (m ≫= f).
Proof.
  intros Hm Hf w. unfold mbind, ST_bind.
  destruct (m w) as [a w1] eqn:E. rewrite Hf.
  specialize (Hm w). rewrite E in Hm. exact Hm.
Qed.

Lemma keeps_get : keeps obs os.get.
Proof. intros w. reflexivity. Qed.

End Keeps.

Create HintDb keeps.

(** Goals [keeps obs m] for a program [m] built from binds and matches. *)
Ltac keeps_step :=
  match goal with
  | |- keeps _ (mret _) => apply keeps_ret
  | |- keeps _ os.get => apply keeps_get
  | |- keeps _ (_ ≫= _) => apply keeps_bind; [|intros ?]
  | |- keeps _ (match ?x with _ => _ end) => destruct x
  | |- keeps _ (let '(_, _) := ?x in _) => destruct x
  | |- keeps _ _ => solve [eauto with keeps]
  end.

Ltac keeps_auto := repeat keeps_step.

Section KeepsBusy.

Lemma busy_emit ev : keeps busy (os.emit ev).
Proof. intros w. reflexivity. Qed.
Lemma busy_put t d : keeps busy (os.put t d).
Proof. intros w. reflexivity. Qed.
Lemma busy_nextRandom : keeps busy os.nextRandom.
Proof. intros w. reflexivity. Qed.
Hint Resolve busy_emit busy_put busy_nextRandom : keeps.

Lemma busy_sys c n : keeps busy (os.sys c n).
Proof. apply busy_emit. Qed.
Lemma busy_log l msg : keeps busy (logrus.log l msg).
Proof. apply busy_emit. Qed.
Hint Resolve busy_sys busy_log : keeps.

Lemma busy_Stat n : keeps busy (os.Stat n).
Proof. unfold os.Stat. keeps_auto. Qed.
Lemma busy_Mkdir n m : keeps busy (os.Mkdir n m).
Proof. unfold os.Mkdir. keeps_auto. Qed.
Lemma busy_MkdirAll n m : keeps busy (os.MkdirAll n m).
Proof. unfold os.MkdirAll. keeps_auto. Qed.
Lemma busy_Rename a b : keeps busy (os.Rename a b).
Proof. unfold os.Rename. keeps_auto. Qed.
Lemma busy_RemoveAll n : keeps busy (os.RemoveAll n).
Proof. unfold os.RemoveAll. keeps_auto. Qed.
Lemma busy_OpenFile c n m : keeps busy (os.OpenFile c n m).
Proof. unfold os.OpenFile. keeps_auto. Qed.
Lemma busy_Write f b : keeps busy (os.Write f b).
Proof. unfold os.Write. keeps_auto. Qed.
Lemma busy_Close f : keeps busy (os.Close f).
Proof. unfold os.Close. keeps_auto. Qed.
Lemma busy_ReadDir n : keeps busy (os.ReadDir n).
Proof. unfold os.ReadDir. keeps_auto. Qed.

End KeepsBusy.

#[export] Hint Resolve busy_emit busy_put busy_nextRandom busy_sys busy_log busy_Stat
  busy_Mkdir busy_MkdirAll busy_Rename busy_RemoveAll busy_OpenFile busy_Write busy_Close
  busy_ReadDir : keeps.

Section KeepsBusyBootstrap.
Variable range : forall V : Type, gmap string V -> list (string * V).

Lemma busy_extract_loop targetDir dirs t last :
  keeps busy (extract_loop targetDir dirs t last).
Proof.
  induction t as [|[h body] t IH]; simpl; [apply keeps_ret|].
  unfold logrus.Infof. keeps_auto.
Qed.

Lemma busy_extract targetDir dirs reader : keeps busy (extract targetDir dirs reader).
Proof. unfold extract. pose proof busy_extract_loop. keeps_auto. Qed.

Lemma busy_place_files tempSource dest files errs :
  keeps busy (place_files tempSource dest files errs).
Proof.
  revert errs. induction files as [|file files IH]; intros errs; simpl; [apply keeps_ret|].
  keeps_auto.
Qed.

Lemma busy_place_dir tempDir source dest errs :
  keeps busy (place_dir tempDir source dest errs).
Proof. unfold place_dir, logrus.Debugf. pose proof busy_place_files. keeps_auto. Qed.

Lemma busy_place_loop tempDir plan errs : keeps busy (place_loop tempDir plan errs).
Proof.
  revert errs. induction plan as [|[source dest] plan IH]; intros errs; simpl;
    [apply keeps_ret|].
  pose proof busy_place_dir. keeps_auto.
Qed.

End KeepsBusyBootstrap.

(** ** The staging directory *)

Section StagingFacts.

Lemma run_bind {A B} (m : M A) (f : A -> M B) (w : World) :
  (m ≫= f) w = let '(a, w') := m w in f a w'.
Proof. reflexivity. Qed.

Lemma HasSuffix_slash_dot s :
  GoStrings.HasSuffix s "/." = true ->
  exists l, l <> [] /\ filepath.split_slash s = l ++ ["."].
Proof.
  induction s as [|c s IH]; simpl.
  - destruct (decide ("" = "/.")); discriminate.
  - destruct (decide (String c s = "/.")) as [E|_].
    + injection E as -> ->. intros _. exists [""]. split; [discriminate | reflexivity].
    + intros H. destruct (IH H) as (l & Hl & E). rewrite E.
      destruct l as [|h l]; [congruence|].
      destruct (ascii_dec c "/").
      * exists ("" :: h :: l). split; [discriminate | reflexivity].
      * exists (String c h :: l). split; [discriminate | reflexivity].
Qed.

(** A name [RemoveAll] refuses could not have been made by [Mkdir]. *)
Lemma endsWithDot_dot_name name : os.endsWithDot name = true -> os.dot_name name = true.
Proof.
  unfold os.endsWithDot, os.dot_name, os.last_elem. intros H.
  apply orb_true_iff in H as [H|H].
  - apply bool_decide_eq_true in H as ->. reflexivity.
  - destruct (HasSuffix_slash_dot _ H) as (l & _ & ->).
    rewrite last_snoc. reflexivity.
Qed.

Lemma walk_from_None (t : gmap path Inode) (rest : path) : forall (cur : path) n,
  rest <> [] -> t !! (cur ++ rest) = None -> exists e, os.walk_from t cur n rest = inl e.
Proof.
  induction rest as [|c rest IH]; intros cur n Hne Hnone; [congruence|].
  simpl. destruct n; eauto.
  destruct (t !! (cur ++ [c])) as [n'|] eqn:E; eauto.
  destruct rest as [|c' rest].
  - rewrite E in Hnone. discriminate.
  - apply IH; [discriminate|]. rewrite <- app_assoc. exact Hnone.
Qed.

Lemma lstat_None (t : gmap path Inode) (p : path) : p <> [] -> t !! p = None -> exists e, os.lstat t p = inl e.
Proof. intros. apply walk_from_None; assumption. Qed.

Lemma pinned_false (t : gmap path Inode) (b : gset path) (k : path) :
  (forall x, x ∈ b -> ~ k `prefix_of` x) -> os.pinned t b k = false.
Proof.
  intros H. unfold os.pinned. apply not_true_is_false. intros Hex.
  apply existsb_exists in Hex as (x & Hin & Hx).
  apply andb_true_iff in Hx as [Hx _]. apply bool_decide_eq_true in Hx.
  apply (H x); [|exact Hx]. apply elem_of_elements, list_elem_of_In. exact Hin.
Qed.

(** After [RemoveAll] of a name that [Mkdir] could make and below which
    nothing is busy, the name leads nowhere. *)
Lemma RemoveAll_gone name w :
  os.dot_name name = false -> os.resolve name <> [] ->
  (forall x, x ∈ busy w -> ~ os.resolve name `prefix_of` x) ->
  exists_at (snd (os.RemoveAll name w)) name = false.
Proof.
  intros Hdot Hroot Hbusy. unfold exists_at.
  unfold os.RemoveAll, mbind, ST_bind, os.sys, os.emit, os.get. simpl.
  unfold os.fs_RemoveAll. simpl.
  destruct (decide (name = "")) as [->|_]; [exfalso; apply Hroot; reflexivity|].
  destruct (os.endsWithDot name) eqn:Hend.
  { apply endsWithDot_dot_name in Hend. congruence. }
  destruct (os.lstat (tree w) (os.resolve name)) as [e|n] eqn:Hl.
  - destruct e; simpl; rewrite Hl; reflexivity.
  - simpl.
    match goal with
    | |- context [os.lstat ?t _] =>
        destruct (lstat_None t (os.resolve name) Hroot) as [e ->]; [|reflexivity]
    end.
    apply map_lookup_filter_None. right. intros n' _ Hkeep. apply Hkeep. simpl.
    split; [reflexivity|]. apply pinned_false. exact Hbusy.
Qed.

Lemma TempDir_loop_ok tries dir pre suf : forall w name w1,
  os.TempDir_loop tries dir pre suf w = ((name, None), w1) ->
  busy w1 = busy w /\ os.dot_name name = false /\ os.resolve name <> []
  /\ tree w !! os.resolve name = None.
Proof.
  induction tries as [|tries IH]; intros w name w1; simpl; [discriminate|].
  unfold mbind, ST_bind at 1. simpl.
  unfold os.Mkdir, mbind, ST_bind, os.sys, os.emit, os.get. simpl.
  set (try := filepath.Join [dir; pre +:+ pretty (hd O (rand w)) +:+ suf]).
  destruct (os.fs_mkdir (tree w) try perm_0700) as [e|t'] eqn:Hmk; simpl.
  - destruct e; simpl; try discriminate;
      try (intros H; apply IH in H; simpl in H; exact H).
    rewrite Stat_eq. simpl.
    destruct (os.stat _ _) as [[]|[]]; simpl; discriminate.
  - intros [= <- <-]. simpl. split; [reflexivity|].
    unfold os.fs_mkdir in Hmk.
    destruct (decide (try = "")); [discriminate|].
    destruct (os.dot_name try).
    { destruct (os.lstat (tree w) (os.resolve try)); discriminate. }
    destruct (decide (os.resolve try = [])); [discriminate|].
    destruct (os.lstat (tree w) (removelast (os.resolve try))) as [|[]]; try discriminate.
    destruct (tree w !! os.resolve try); [discriminate|]. auto.
Qed.

End StagingFacts.

(** C8.  Once [extractToDirs] has made its staging directory, the
    directory is gone when the call returns, whether extraction failed,
    placement stopped or failed, or all went well. *)
Theorem staging_directory_removed
    (range : forall V : Type, gmap string V -> list (string * V))
    (img : Image) (dataDir : string) (dirs : gmap string string)
    (w : World) (tempDir : string) (w1 : World) :
  busy_exist w ->
  os.TempDir dataDir "runtime-" "" w = ((tempDir, None), w1) ->
  exists_at (snd (extractToDirs range img dataDir dirs w)) tempDir = false.
Proof.
  intros Hwf Htemp.
  unfold extractToDirs. rewrite run_bind, Htemp.
  apply TempDir_loop_ok in Htemp as (Hb1 & Hdot & Hroot & Hfresh).
  match goal with
  | |- exists_at (snd ((?body ≫= ?k) w1)) _ = _ =>
      rewrite (run_bind body k w1); destruct (body w1) as [r w2] eqn:Hbody;
      assert (Hk : keeps busy body)
        by (pose proof busy_extract; pose proof busy_place_loop; keeps_auto);
      pose proof (Hk w1) as Hb2; rewrite Hbody in Hb2; simpl in Hb2
  end.
  rewrite run_bind.
  pose proof (RemoveAll_gone tempDir w2 Hdot Hroot) as Hgone.
  destruct (os.RemoveAll tempDir w2) as [e w3]. simpl in *.
  apply Hgone. intros x Hx Hpre. rewrite Hb2, Hb1 in Hx.
  destruct (Hwf x _ Hx Hpre Hroot) as [n Hn]. congruence.
Qed.

Lemma staging_directory_removed_witness :
  busy_exist Examples.mounted
  /\ exists_at (snd (extractToDirs Examples.in_order Examples.runtime_image Examples.dataDir
                       Examples.plan Examples.mounted))
               "/var/lib/rancher/rke2/runtime-42" = false.
Proof.
  assert (Hwf : busy_exist Examples.mounted).
  { intros b p Hb [k Hk] Hne. simpl in Hb. apply elem_of_singleton in Hb. subst b.
    repeat (destruct p as [|? p];
            [first [congruence | vm_compute; eauto]
            | simpl in Hk; try discriminate; injection Hk as <- Hk]). }
  split; [exact Hwf|].
  apply (staging_directory_removed Examples.in_order Examples.runtime_image Examples.dataDir
           Examples.plan Examples.mounted "/var/lib/rancher/rke2/runtime-42"
           (snd (os.TempDir Examples.dataDir "runtime-" "" Examples.mounted)) Hwf).
  apply pair_eq. vm_compute. reflexivity.
Defined.

(** ** Placement *)

Section PlacementFacts.
Variable range : forall V : Type, gmap string V -> list (string * V).

(** A planned subtree that was not staged costs one recorded error, and
    the loop goes on with the rest of the plan. *)
Lemma place_loop_absent tempDir source dest plan errs w e w1 :
  os.Stat (filepath.Join [tempDir; source]) w = ((None, Some e), w1) ->
  place_loop tempDir ((source, dest) :: plan) errs w
  = place_loop tempDir plan (errs ++ [e]) w1.
Proof.
  intros Hstat. simpl. rewrite run_bind. unfold place_dir.
  rewrite run_bind, Hstat. reflexivity.
Qed.

(** When the parent of a destination cannot be made, the loop returns
    that error alone, whatever it had recorded and whatever is left of
    the plan. *)
Lemma place_loop_returns tempDir source dest plan errs w i1 w1 i2 e2 w2 e w3 :
  let tempSource := filepath.Join [tempDir; source] in
  os.Stat tempSource w = ((i1, None), w1) ->
  os.Stat (filepath.Dir dest)
    (snd (logrus.Debugf ("Moving extracted content from " +:+ tempSource +:+ " to " +:+ dest)
            w1)) = ((i2, Some e2), w2) ->
  os.MkdirAll (filepath.Dir dest) perm_0755 w2 = (Some e, w3) ->
  place_loop tempDir ((source, dest) :: plan) errs w = (Some e, w3).
Proof.
  intros tempSource H1 H2 H3. simpl. rewrite run_bind. unfold place_dir.
  fold tempSource. rewrite run_bind, H1, run_bind.
  destruct (logrus.Debugf _ w1) as [[] w1'] eqn:Hlog. simpl in H2.
  rewrite run_bind, H2, run_bind, H3. reflexivity.
Qed.

(** A file that cannot be renamed because its destination exists: the
    destination is removed and the rename tried once more. *)
Lemma place_files_retry tempSource dest file files errs w e1 w1 w2 e3 w3 :
  let src := filepath.Join [tempSource; Name file] in
  let dst := filepath.Join [dest; Name file] in
  os.Rename src dst w = (Some e1, w1) -> IsExist (Some e1) = true ->
  os.RemoveAll dst w1 = (None, w2) ->
  os.Rename src dst w2 = (e3, w3) ->
  place_files tempSource dest (file :: files) errs w
  = place_files tempSource dest files
      (match e3 with
       | Some e => errs ++ [ErrWrap e ("failed to rename " +:+ src +:+ " to " +:+ dst)]
       | None => errs
       end) w3.
Proof.
  intros src dst H1 Hex H2 H3. simpl. fold src dst.
  rewrite run_bind, H1, Hex, run_bind, H2, run_bind, H3.
  destruct e3; reflexivity.
Qed.

End PlacementFacts.

(** C2, where the code departs from it.  On a node where [<dataDir>/data]
    is a regular file the parent of the bin destination cannot be made, and
    [extractToDirs] returns that one error at once.  With an image that has
    no charts, the error recorded for the charts, which came first, is not
    in what is returned; with the bin subtree first, the charts, staged all
    right, are never placed, though they are when the charts come first. *)
Theorem extractToDirs_returns_at_MkdirAll :
  let staged :=
    snd (extract "/var/lib/rancher/rke2/runtime-42" Examples.plan Examples.binaries
           (snd (os.TempDir Examples.dataDir "runtime-" "" Examples.data_is_file))) in
  fst (place_dir "/var/lib/rancher/rke2/runtime-42" "charts"
         "/var/lib/rancher/rke2/server/manifests" [] staged)
    = Continue [ErrPath "stat" "/var/lib/rancher/rke2/runtime-42/charts" ENOENT]
  /\ fst (extractToDirs Examples.in_order Examples.binaries Examples.dataDir
            Examples.plan Examples.data_is_file)
     = Some (ErrPath "mkdir" "/var/lib/rancher/rke2/data" ENOTDIR)
  /\ fst (extractToDirs Examples.backwards Examples.runtime_image Examples.dataDir
            Examples.plan Examples.data_is_file)
     = Some (ErrPath "mkdir" "/var/lib/rancher/rke2/data" ENOTDIR)
  /\ exists_at (snd (extractToDirs Examples.backwards Examples.runtime_image Examples.dataDir
                       Examples.plan Examples.data_is_file))
               "/var/lib/rancher/rke2/server/manifests" = false
  /\ exists_at (snd (extractToDirs Examples.in_order Examples.runtime_image Examples.dataDir
                       Examples.plan Examples.data_is_file))
               "/var/lib/rancher/rke2/server/manifests" = true.
Proof. repeat split; vm_compute; reflexivity. Qed.

(** ** Stage *)

Section StageFacts.

Lemma walk_from_app (t : gmap path Inode) (a b : path) : forall (cur : path) n,
  os.walk_from t cur n (a ++ b)
  = match os.walk_from t cur n a with
    | inr n' => os.walk_from t (cur ++ a) n' b
    | inl e => inl e
    end.
Proof.
  induction a as [|c a IH]; intros cur n; simpl.
  - rewrite app_nil_r. reflexivity.
  - destruct n; try reflexivity.
    destruct (t !! (cur ++ [c])); [|reflexivity].
    rewrite IH, <- app_assoc. reflexivity.
Qed.

(** A walk that stays above [p] does not see what is stored at [p]. *)
Lemma walk_from_insert_above (t : gmap path Inode) (p : path) x (rest : path) :
  forall (cur : path) n,
  length (cur ++ rest) < length p ->
  os.walk_from (<[p := x]> t) cur n rest = os.walk_from t cur n rest.
Proof.
  induction rest as [|c rest IH]; intros cur n Hlen; simpl; [reflexivity|].
  destruct n; try reflexivity.
  rewrite lookup_insert_ne.
  - destruct (t !! (cur ++ [c])); [|reflexivity].
    apply IH. rewrite <- app_assoc. exact Hlen.
  - intros ->. rewrite !length_app in Hlen. simpl in Hlen. lia.
Qed.

Lemma lstat_insert (t : gmap path Inode) (p : path) x m :
  p <> [] -> os.lstat t (removelast p) = inr (IDir m) ->
  os.lstat (<[p := x]> t) p = inr x.
Proof.
  intros Hne Hparent. unfold os.lstat in *.
  destruct (exists_last Hne) as (q & c & ->).
  rewrite removelast_last in Hparent.
  rewrite walk_from_app, walk_from_insert_above, Hparent.
  - simpl. rewrite lookup_insert_eq. reflexivity.
  - simpl. rewrite length_app. simpl. lia.
Qed.

(** When [os.Symlink] succeeds, the name is a link to the target. *)
Lemma Symlink_ok target name w w' :
  os.Symlink target name w = (None, w') ->
  os.lstat (tree w') (os.resolve name) = inr (ILink target).
Proof.
  unfold os.Symlink, mbind, ST_bind, os.sys, os.emit, os.get. simpl.
  destruct (os.fs_symlink (tree w) target name) as [e|t'] eqn:Hs; simpl; [discriminate|].
  intros [= <-]. simpl. unfold os.fs_symlink in Hs.
  destruct (decide (name = "")); [discriminate|].
  destruct (os.dot_name name || bool_decide (os.resolve name = [])) eqn:Hd; [discriminate|].
  apply orb_false_iff in Hd as [_ Hd]. apply bool_decide_eq_false in Hd.
  destruct (os.lstat (tree w) (removelast (os.resolve name))) as [|[]] eqn:Hp;
    try discriminate.
  destruct (tree w !! os.resolve name); [discriminate|].
  injection Hs as <-. eapply lstat_insert; eassumption.
Qed.

End StageFacts.

(** The head of the goal is a run of a bind: name its first result. *)
Tactic Notation "run" "as" ident(r) ident(w') ident(E) :=
  match goal with
  | |- (?m ≫= ?k) ?w = _ -> _ =>
      rewrite (run_bind m k w); destruct (m w) as [r w'] eqn:E
  end.

(** C9, as the code has it.  A run of [Stage] that succeeds has, as its
    last two calls, removed [<dataDir>/bin] and asked for a link there to
    the bin directory of the runtime image, without looking at the outcome
    of either; the name is that link whenever the second call succeeded. *)
Theorem Stage_links_bin
    (range : forall V : Type, gmap string V -> list (string * V))
    (Registries : Type)
    (tarball_parse : Opener -> string -> name.Reference -> error + Image)
    (remote_Image : name.Reference -> Registries -> error + Image)
    (getPrivateRegistries : string -> World -> error + Registries)
    (Decode : string -> error + Object) (Encode : HelmChart -> error + string)
    (DefaultJobImage : string)
    (dataDir privateRegistry : string) (resolver : Resolver)
    (w : World) (binDir : string) (w' : World) :
  Stage range Registries tarball_parse remote_Image getPrivateRegistries
        Decode Encode DefaultJobImage dataDir privateRegistry resolver w
  = ((binDir, None), w') ->
  let link := symlinkBinDir dataDir in
  binDir = binDirForDigest dataDir (fst (releaseRefDigest (MustGetReference resolver None)))
  /\ exists w2,
      w' = snd (os.Symlink binDir link (snd (os.RemoveAll link w2)))
      /\ (fst (os.Symlink binDir link (snd (os.RemoveAll link w2))) = None ->
          os.lstat (tree w') (os.resolve link) = inr (ILink binDir)).
Proof.
  unfold Stage.
  destruct (releaseRefDigest (MustGetReference resolver None)) as [refDigest [e|]];
    [discriminate|].
  run as r1 w1 E1. destruct r1 as [img [e|]]; [discriminate|].
  run as r2 w2 E2. destruct r2 as [e|img']; [discriminate|].
  unfold stageImage.
  run as plan w3 E3. unfold stageWith.
  run as r4 w4 E4. destruct r4 as [e|]; [discriminate|].
  run as r5 w5 E5. destruct r5 as [e|]; [discriminate|].
  run as r6 w6 E6. destruct r6 as [e|]; [discriminate|].
  run as r7 w7 E7. run as r8 w8 E8.
  intros [= <- <-]. cbv zeta. split; [reflexivity|].
  exists w6. rewrite E7. simpl. rewrite E8. simpl.
  split; [reflexivity|]. intros ->. eapply Symlink_ok. exact E8.
Qed.

Lemma Stage_links_bin_witness :
  let w' := snd (Stage Examples.in_order unit Examples.parse Examples.pull
                   Examples.no_registries Examples.Decode Examples.Encode
                   Examples.jobImage Examples.dataDir "" Examples.resolver Examples.fresh) in
  let binDir := "/var/lib/rancher/rke2/data/v1.21.5-rke2r1-bbb95ee11828/bin" in
  let link := symlinkBinDir Examples.dataDir in
  binDir = binDirForDigest Examples.dataDir
             (fst (releaseRefDigest (MustGetReference Examples.resolver None)))
  /\ exists w2,
      w' = snd (os.Symlink binDir link (snd (os.RemoveAll link w2)))
      /\ (fst (os.Symlink binDir link (snd (os.RemoveAll link w2))) = None ->
          os.lstat (tree w') (os.resolve link) = inr (ILink binDir)).
Proof.
  exact (Stage_links_bin Examples.in_order unit Examples.parse Examples.pull
           Examples.no_registries Examples.Decode Examples.Encode
           Examples.jobImage Examples.dataDir "" Examples.resolver Examples.fresh
           "/var/lib/rancher/rke2/data/v1.21.5-rke2r1-bbb95ee11828/bin" _
           (pair_eq _ _ ltac:(vm_compute; reflexivity))).
Defined.

(** On a fresh node the link is made. *)
Example Stage_fresh_node :
  os.lstat (tree (snd (Stage Examples.in_order unit Examples.parse Examples.pull
                         Examples.no_registries Examples.Decode Examples.Encode
                         Examples.jobImage Examples.dataDir "" Examples.resolver
                         Examples.fresh)))
           (os.resolve (symlinkBinDir Examples.dataDir))
  = inr (ILink "/var/lib/rancher/rke2/data/v1.21.5-rke2r1-bbb95ee11828/bin").
Proof. vm_compute. reflexivity. Qed.

(** C9 as worded fails: with something mounted at [<dataDir>/bin], [Stage]
    succeeds and the name is still the directory it was. *)
Lemma Stage_succeeds_without_link :
  fst (Stage Examples.in_order unit Examples.parse Examples.pull Examples.no_registries
         Examples.Decode Examples.Encode Examples.jobImage Examples.dataDir ""
         Examples.resolver Examples.mounted)
    = ("/var/lib/rancher/rke2/data/v1.21.5-rke2r1-bbb95ee11828/bin", None)
  /\ os.lstat (tree (snd (Stage Examples.in_order unit Examples.parse Examples.pull
                            Examples.no_registries Examples.Decode Examples.Encode
                            Examples.jobImage Examples.dataDir "" Examples.resolver
                            Examples.mounted)))
              (os.resolve (symlinkBinDir Examples.dataDir))
     = inr (IDir perm_0755).
Proof. split; vm_compute; reflexivity. Qed.

Section PlanFacts.

Lemma extract_loop_skip targetDir (dirs : gmap string string) h body t last :
  dirs !! filepath.Dir (tar.Name h) = None ->
  extract_loop targetDir dirs ((h, body) :: t) last = extract_loop targetDir dirs t last.
Proof. intros H. simpl. rewrite H. destruct (tar.Typeflag h); reflexivity. Qed.

End PlanFacts.

(** ** The manifest rewriter *)

Section ChartFacts.
Variable Decode : string -> error + Object.
Variable Encode : HelmChart -> error + string.
Variable DefaultJobImage : string.
Variables dataDir systemDefaultRegistry : string.

(** What the serializer is relied on for: a chart that was written is
    read back as it was, and a file without content is not a chart. *)
Hypothesis Decode_Encode :
  forall chart out, Encode chart = inr out -> Decode out = inr (ObjHelmChart chart).
Hypothesis Decode_empty : forall chart, Decode "" <> inr (ObjHelmChart chart).

Local Abbreviation patch c := (patchChart DefaultJobImage c dataDir systemDefaultRegistry).
Local Abbreviation rewrite1 f i :=
  (rewriteChart Decode Encode DefaultJobImage f i dataDir systemDefaultRegistry).

Lemma index_insert_eq (m : gmap string IntOrString) k v :
  index (Some (<[k := v]> m)) k = v.
Proof. unfold index. simpl. rewrite lookup_insert_eq. reflexivity. Qed.

Lemma index_insert_ne (m : gmap string IntOrString) k k' v :
  k <> k' -> index (Some (<[k := v]> m)) k' = index (Some m) k'.
Proof. intros H. unfold index. simpl. rewrite lookup_insert_ne by done. reflexivity. Qed.

Local Abbreviation patched := (patched DefaultJobImage dataDir systemDefaultRegistry).
Local Abbreviation settled := (settled Decode DefaultJobImage dataDir systemDefaultRegistry).
Local Abbreviation quiet := (quiet Decode DefaultJobImage dataDir systemDefaultRegistry).

Lemma patchChart_patched c : patched (fst (patch c)).
Proof.
  unfold patchChart, patched.
  repeat (case_decide; simpl); eexists; (split; [reflexivity|]);
    repeat first [ rewrite index_insert_eq in *
                 | rewrite index_insert_ne in * by discriminate ];
    split_and!; done.
Qed.

(** A patched chart needs no patch. *)
Lemma patched_unchanged c : patched c -> snd (patch c) = false.
Proof.
  intros (set & Hs & Hd & Hr & Hj). unfold patchChart.
  rewrite Hs. simpl.
  rewrite (decide_False (P := StrVal (index (Some set) "global.rke2DataDir") <> dataDir))
    by (intros H; apply H, Hd).
  rewrite (decide_False (P := StrVal (index (Some set) "global.systemDefaultRegistry")
                              <> systemDefaultRegistry))
    by (intros H; apply H, Hr).
  rewrite (decide_False (P := Spec_JobImage c <> _)) by (intros H; apply H, Hj).
  reflexivity.
Qed.

Lemma no_write_refl w : no_write w w.
Proof. exists []. rewrite app_nil_r. split; [reflexivity | constructor]. Qed.

Lemma no_write_trans w1 w2 w3 : no_write w1 w2 -> no_write w2 w3 -> no_write w1 w3.
Proof.
  intros (e1 & H1 & F1) (e2 & H2 & F2). exists (e1 ++ e2).
  rewrite H2, H1, app_assoc. split; [reflexivity|]. apply Forall_app. auto.
Qed.

Lemma no_write_emit ev w : is_write ev = false -> no_write w (snd (os.emit ev w)).
Proof. intros H. exists [ev]. split; [reflexivity|]. repeat constructor. exact H. Qed.

Ltac solve_no_write :=
  eexists; split; [simpl; rewrite <- ?app_assoc; reflexivity | repeat constructor].

Lemma rewriteChart_effect f info w :
  let '(e, w') := rewrite1 f info w in
  tree w' = tree w
  /\ ((data w' = data w /\ no_write w w' /\ quiet w f)
      \/ (exists q m content,
            os.stat (tree w) (os.resolve f) = inr (q, IFile m)
            /\ data w' = <[q := content]> (data w) /\ settled content
            /\ ~ quiet w f)).
Proof.
  unfold rewriteChart, quiet, os.ReadFile, os.fs_readfile.
  unfold mbind, mret, ST_bind, ST_ret, os.sys, os.emit, os.get, os.put,
    logrus.Debugf, logrus.Infof, logrus.log, os.emit. simpl.
  destruct (os.stat (tree w) (os.resolve f)) as [e|[q [m|m|tg]]] eqn:Hstat; simpl.
  1,3,4: (split; [reflexivity|]; left; split_and!; try done;
          apply (no_write_emit (EvSys CReadFile f)); reflexivity).
  set (content := default "" (data w !! q)).
  unfold settled at 1 3.
  destruct (Decode content) as [e|[chart|kind]] eqn:Hdec; simpl.
  1,3: (split; [reflexivity|]; left; split_and!; try done; solve_no_write).
  destruct (patch chart) as [chart0 changed] eqn:Hp. destruct changed; simpl.
  2: { split; [reflexivity|]. left. split_and!; try done.
       apply (no_write_emit (EvSys CReadFile f)). reflexivity. }
  unfold os.OpenFile, os.fs_open_trunc, os.Write, os.Close.
  unfold mbind, mret, ST_bind, ST_ret, os.sys, os.emit, os.get, os.put. simpl.
  rewrite Hstat. simpl.
  assert (Hnot : ~ false = true) by discriminate.
  destruct (Encode chart0) as [e|out] eqn:Henc; simpl.
  - split; [reflexivity|]. right. exists q, m, "". split_and!; try done.
    unfold settled. pose proof Decode_empty as Hempty.
    destruct (Decode "") as [|[c|]]; try done.
    exfalso. exact (Hempty c eq_refl).
  - split; [reflexivity|]. right. exists q, m, out. split_and!; try done.
    + rewrite lookup_insert_eq. simpl. apply insert_insert_eq.
    + unfold settled. rewrite (Decode_Encode _ _ Henc).
      apply patched_unchanged.
      replace chart0 with (fst (patch chart)) by (rewrite Hp; reflexivity).
      apply patchChart_patched.
Qed.

Lemma quiet_stable w w' g :
  tree w' = tree w ->
  (data w' = data w
   \/ exists q content, data w' = <[q := content]> (data w) /\ settled content) ->
  quiet w g -> quiet w' g.
Proof.
  intros Ht Hd. unfold quiet, os.fs_readfile. rewrite Ht.
  destruct (os.stat (tree w) (os.resolve g)) as [e|[q' [m|m|tg]]]; try done.
  destruct Hd as [->|(q & content & -> & Hs)]; [done|].
  destruct (decide (q = q')) as [->|Hne].
  - rewrite lookup_insert_eq. intros _. exact Hs.
  - rewrite lookup_insert_ne by done. done.
Qed.

Lemma quiet_written w w' f q m content :
  os.stat (tree w) (os.resolve f) = inr (q, IFile m) ->
  tree w' = tree w -> data w' = <[q := content]> (data w) -> settled content ->
  quiet w' f.
Proof.
  intros Hstat Ht Hd Hs. unfold quiet, os.fs_readfile.
  rewrite Ht, Hstat, Hd, lookup_insert_eq. exact Hs.
Qed.

Local Abbreviation rewrite_all files errs :=
  (rewrite_files Decode Encode DefaultJobImage files dataDir systemDefaultRegistry errs).

(** After a pass every file of the pass is quiet, and so is every file
    that was quiet before. *)
Lemma rewrite_files_settles files : forall errs w,
  let '(_, w') := rewrite_all files errs w in
  tree w' = tree w
  /\ (forall g, quiet w g -> quiet w' g)
  /\ (forall f info, (f, info) ∈ files -> quiet w' f).
Proof.
  induction files as [|[f info] files IH]; intros errs w; simpl.
  - split_and!; try done. intros f info H. inversion H.
  - rewrite run_bind.
    pose proof (rewriteChart_effect f info w) as Heff.
    destruct (rewrite1 f info w) as [err w1].
    destruct Heff as [Ht Heff].
    match goal with
    | |- context [rewrite_all files ?errs' w1] =>
        specialize (IH errs' w1); destruct (rewrite_all files errs' w1) as [errs2 w2]
    end.
    destruct IH as (Ht2 & Hkeep & Hall).
    assert (Hstep : forall g, quiet w g -> quiet w1 g).
    { intros g. apply quiet_stable; [exact Ht|].
      destruct Heff as [(Hd & _ & _)|(q & m & content & _ & Hd & Hs & _)]; eauto. }
    assert (Hf : quiet w1 f).
    { destruct Heff as [(Hd & _ & Hq)|(q & m & content & Hstat & Hd & Hs & _)].
      - apply Hstep, Hq.
      - eapply quiet_written; eauto. }
    split_and!.
    + congruence.
    + auto.
    + intros f' info' Hin. apply elem_of_cons in Hin as [[= -> ->]|Hin]; eauto.
Qed.

(** A pass over quiet files writes nothing. *)
Lemma rewrite_files_quiet files : forall errs w,
  (forall f info, (f, info) ∈ files -> quiet w f) ->
  let '(_, w') := rewrite_all files errs w in
  tree w' = tree w /\ data w' = data w /\ no_write w w'.
Proof.
  induction files as [|[f info] files IH]; intros errs w Hq; simpl.
  - split_and!; try done. apply no_write_refl.
  - rewrite run_bind.
    pose proof (rewriteChart_effect f info w) as Heff.
    destruct (rewrite1 f info w) as [err w1].
    destruct Heff as [Ht [(Hd & Hnw & _)|(q & m & content & _ & _ & _ & Hn)]].
    2: { exfalso. apply Hn, (Hq f info). left. }
    match goal with
    | |- context [rewrite_all files ?errs' w1] =>
        specialize (IH errs' w1); destruct (rewrite_all files errs' w1) as [errs2 w2]
    end.
    destruct IH as (Ht2 & Hd2 & Hnw2).
    { intros f' info' Hin. apply (quiet_stable w); auto. apply (Hq f' info'). by right. }
    split_and!; try congruence. eapply no_write_trans; eauto.
Qed.

Lemma Walk_eq root w :
  os.Walk root w =
    (match os.fs_walk (tree w) root with
     | inr l => (l, None)
     | inl e => ([], Some (ErrPath "lstat" root e))
     end,
     snd (os.sys CWalk root w)).
Proof.
  unfold os.Walk, mbind, ST_bind, os.sys, os.emit, os.get. simpl.
  destruct (os.fs_walk (tree w) root) as [e|l]; reflexivity.
Qed.

(** The order of a [range]: every entry of the map, once. *)
Variables range1 range2 : forall V : Type, gmap string V -> list (string * V).
Hypothesis range1_all : forall V (m : gmap string V), range1 V m ≡ₚ map_to_list m.
Hypothesis range2_all : forall V (m : gmap string V), range2 V m ≡ₚ map_to_list m.

(** C4.  A patched chart needs no further patch, and a second run of
    [setChartValues] with the same data directory and registry, right
    after the first, opens no file for writing and leaves the tree and
    the bytes of every file as the first run left them. *)
Theorem setChartValues_idempotent (w : World) :
  (forall chart, snd (patch (fst (patch chart))) = false)
  /\ (let '(_, w1) := setChartValues range1 Decode Encode DefaultJobImage
                        dataDir systemDefaultRegistry w in
      let '(_, w2) := setChartValues range2 Decode Encode DefaultJobImage
                        dataDir systemDefaultRegistry w1 in
      tree w2 = tree w1 /\ data w2 = data w1 /\ no_write w1 w2).
Proof.
  split; [intros chart; apply patched_unchanged, patchChart_patched|].
  unfold setChartValues. rewrite run_bind, Walk_eq.
  set (root := manifestsDir dataDir).
  destruct (os.fs_walk (tree w) root) as [e|visited] eqn:Hwalk.
  - simpl. rewrite run_bind, Walk_eq. simpl. rewrite Hwalk. simpl.
    split_and!; try done. apply (no_write_emit (EvSys CWalk root)). reflexivity.
  - set (files := collect_manifests visited).
    set (w0 := snd (os.sys CWalk root w)).
    rewrite run_bind.
    pose proof (rewrite_files_settles (range1 _ files) [] w0) as H1.
    destruct (rewrite_all (range1 _ files) [] w0) as [errs1 w1].
    destruct H1 as (Ht1 & _ & Hall). simpl.
    rewrite run_bind, Walk_eq.
    assert (Hwalk1 : os.fs_walk (tree w1) root = inr visited)
      by (rewrite Ht1; exact Hwalk).
    rewrite Hwalk1. fold files.
    set (w1e := snd (os.sys CWalk root w1)).
    rewrite run_bind.
    pose proof (rewrite_files_quiet (range2 _ files) [] w1e) as H2.
    destruct (rewrite_all (range2 _ files) [] w1e) as [errs2 w2].
    destruct H2 as (Ht2 & Hd2 & Hnw2).
    { intros f info Hin. apply (quiet_stable w1); [reflexivity | left; reflexivity |].
      apply (Hall f info). rewrite range1_all, <- range2_all. exact Hin. }
    simpl. split_and!; try done.
    eapply no_write_trans; [|exact Hnw2].
    apply (no_write_emit (EvSys CWalk root)). reflexivity.
Qed.

End ChartFacts.

Section StandIn.

Lemma undigits_digits p : Examples.undigits (Examples.digits p) = Some p.
Proof. induction p as [p IH|p IH|]; simpl; rewrite ?IH; reflexivity. Qed.

Lemma strip_app pre s : Examples.strip pre (pre +:+ s) = Some s.
Proof.
  induction pre as [|a pre IH]; simpl; [reflexivity|].
  rewrite decide_True by reflexivity. exact IH.
Qed.

Lemma standin_Decode_Encode chart out :
  Examples.Encode chart = inr out -> Examples.Decode out = inr (ObjHelmChart chart).
Proof.
  unfold Examples.Encode. intros [= <-]. unfold Examples.Decode.
  rewrite strip_app, undigits_digits. simpl. rewrite decode_encode. reflexivity.
Qed.

Lemma standin_Decode_empty chart : Examples.Decode "" <> inr (ObjHelmChart chart).
Proof. discriminate. Qed.

End StandIn.

Lemma setChartValues_idempotent_witness :
  let '(_, w1) := setChartValues Examples.in_order Examples.Decode Examples.Encode
                    Examples.jobImage Examples.dataDir "index.docker.io" Examples.placed in
  let '(_, w2) := setChartValues Examples.backwards Examples.Decode Examples.Encode
                    Examples.jobImage Examples.dataDir "index.docker.io" w1 in
  tree w2 = tree w1 /\ data w2 = data w1 /\ no_write w1 w2.
Proof.
  apply (setChartValues_idempotent Examples.Decode Examples.Encode Examples.jobImage
           Examples.dataDir "index.docker.io"
           standin_Decode_Encode standin_Decode_empty
           Examples.in_order Examples.backwards
           (fun V m => reflexivity _)
           (fun V m => Permutation_sym (Permutation_rev _))
           Examples.placed).
Defined.

(** Over freshly placed manifests the first run opens and writes one file,
    the second none. *)
Example setChartValues_twice :
  let w0 := Examples.placed in
  let w1 := snd (setChartValues Examples.in_order Examples.Decode Examples.Encode
                   Examples.jobImage Examples.dataDir "index.docker.io" w0) in
  let w2 := snd (setChartValues Examples.backwards Examples.Decode Examples.Encode
                   Examples.jobImage Examples.dataDir "index.docker.io" w1) in
  List.filter is_write (drop (length (trace w0)) (trace w1))
    = [ EvSys COpenFile "/var/lib/rancher/rke2/server/manifests/rke2-canal.yaml";
        EvSys CWrite "/var/lib/rancher/rke2/server/manifests/rke2-canal.yaml" ]
  /\ List.filter is_write (drop (length (trace w1)) (trace w2)) = [].
Proof. split; vm_compute; reflexivity. Qed.

(** * Further properties of the package *)

(** ** The namer at its edges *)

(** X1.  [releaseRefDigest] reports an error exactly for a tag that does
    not begin with [v] and a digit; the name it returns with the error is
    empty, and every digest is accepted. *)
Theorem releaseRefDigest_refuses (ref : name.Reference) :
  (snd (releaseRefDigest ref) <> None <->
   exists repo t original, ref = name.Tag repo t original
                  /\ ~ (exists c rest, t = String "v" (String c rest)
                                       /\ GoStrings.is_digit c = true))
  /\ (snd (releaseRefDigest ref) <> None -> fst (releaseRefDigest ref) = "").
Proof.
  assert (Hpat : forall t, releasePattern_MatchString t = true <->
                 exists c rest, t = String "v" (String c rest)
                                /\ GoStrings.is_digit c = true).
  { intros t. unfold releasePattern_MatchString. split.
    - destruct t as [|a [|c rest]]; try discriminate.
      + destruct a as [[] [] [] [] [] [] [] []]; discriminate.
      + destruct a as [[] [] [] [] [] [] [] []]; try discriminate. eauto.
    - intros (c & rest & -> & H). exact H. }
  destruct ref as [repo t o|repo d o].
  - unfold releaseRefDigest.
    destruct (releasePattern_MatchString t) eqn:Hm; simpl.
    + split; [|done]. split; [done|].
      intros (repo' & t' & o' & [= <- <- <-] & Hno). exfalso. apply Hno, Hpat, Hm.
    + split; [|done]. split; [|done]. intros _. exists repo, t, o. split; [done|].
      intros H. apply Hpat in H. congruence.
  - pose proof (releaseRefDigest_digest repo d o) as Hd. rewrite Hd.
    split; [|done]. split; [done|]. intros (? & ? & ? & [=] & _).
Qed.

(** X2.  A digest without a colon is its own name, whole. *)
Theorem releaseRefDigest_no_colon (repo : name.Repository) (d original : string) :
  GoStrings.contains_byte ":" d = false ->
  releaseRefDigest (name.Digest repo d original) = (d, None).
Proof.
  intros H. unfold releaseRefDigest, GoStrings.SplitN2.
  assert (Hcut : GoStrings.cut ":" d = None).
  { induction d as [|c d IH]; simpl in *; [reflexivity|].
    destruct (ascii_dec c ":"); [discriminate|]. rewrite IH by assumption. reflexivity. }
  rewrite Hcut. reflexivity.
Qed.

Lemma releaseRefDigest_no_colon_witness :
  releaseRefDigest (name.Digest Examples.rke2_runtime "deadbeef" "rancher/rke2-runtime@deadbeef")
  = ("deadbeef", None).
Proof.
  exact (releaseRefDigest_no_colon Examples.rke2_runtime "deadbeef"
           "rancher/rke2-runtime@deadbeef" eq_refl).
Defined.

(** ** The switch of [preloadFile] *)

Section SuffixFacts.
Import GoStrings.

Lemma lower_ascii_idem c : lower_ascii (lower_ascii c) = lower_ascii c.
Proof. destruct c as [[] [] [] [] [] [] [] []]; reflexivity. Qed.

Lemma ToLower_idem s : ToLower (ToLower s) = ToLower s.
Proof. induction s as [|c s IH]; simpl; [reflexivity|]. rewrite lower_ascii_idem, IH. reflexivity. Qed.

Lemma HasSuffixI_ToLower s l : HasSuffixI (ToLower s) l = HasSuffixI s l.
Proof. unfold HasSuffixI. rewrite ToLower_idem. reflexivity. Qed.

Lemma HasSuffix_refl s : HasSuffix s s = true.
Proof. destruct s; simpl; try reflexivity; destruct (decide _); [reflexivity | congruence]. Qed.

Lemma HasSuffix_cases s a :
  HasSuffix s a = true ->
  s = a \/ exists c s', s = String c s' /\ HasSuffix s' a = true.
Proof.
  destruct s as [|c s]; simpl; destruct (decide _) as [E|_]; eauto; discriminate.
Qed.

Lemma HasSuffix_tail c s a : HasSuffix s a = true -> HasSuffix (String c s) a = true.
Proof. intros H. simpl. destruct (decide _); [reflexivity | exact H]. Qed.

(** Two endings of one string: one is an ending of the other. *)
Lemma HasSuffix_comparable s : forall a b,
  HasSuffix s a = true -> HasSuffix s b = true ->
  HasSuffix a b = true \/ HasSuffix b a = true.
Proof.
  induction s as [|c s IH]; intros a b Ha Hb.
  - apply HasSuffix_cases in Ha as [<-|(? & ? & [=] & _)].
    apply HasSuffix_cases in Hb as [<-|(? & ? & [=] & _)].
    left. reflexivity.
  - apply HasSuffix_cases in Ha as [<-|(c1 & s1 & [= <- <-] & Ha)].
    { left. exact Hb. }
    apply HasSuffix_cases in Hb as [<-|(c2 & s2 & [= <- <-] & Hb)].
    { right. apply HasSuffix_tail. exact Ha. }
    eauto.
Qed.

Lemma HasSuffixI_one s a : HasSuffixI s [a] = HasSuffix (ToLower s) (ToLower a).
Proof. unfold HasSuffixI. simpl. apply orb_false_r. Qed.

Lemma HasSuffixI_two s a b :
  HasSuffixI s [a; b] = HasSuffix (ToLower s) (ToLower a) || HasSuffix (ToLower s) (ToLower b).
Proof. unfold HasSuffixI. simpl. rewrite orb_false_r. reflexivity. Qed.

(** A name with the ending [a] has not the ending [b] when neither is an
    ending of the other. *)
Lemma HasSuffix_exclusive s a b :
  HasSuffix s a = true -> HasSuffix a b = false -> HasSuffix b a = false ->
  HasSuffix s b = false.
Proof.
  intros Ha Hab Hba. apply not_true_is_false. intros Hb.
  destruct (HasSuffix_comparable s a b Ha Hb); congruence.
Qed.

End SuffixFacts.

(** X3.  The choice of the opener does not depend on the case of the
    letters of the file name. *)
Theorem selectOpener_case_insensitive (fileName : string) :
  selectOpener (GoStrings.ToLower fileName) = selectOpener fileName.
Proof. unfold selectOpener. rewrite !HasSuffixI_ToLower. reflexivity. Qed.

(** The tests of the switch, on the lower-case name. *)
Lemma selectOpener_unfold fileName :
  let s := GoStrings.ToLower fileName in
  selectOpener fileName =
    if GoStrings.HasSuffix s ".txt" then Skipped
    else if GoStrings.HasSuffix s ".tar" then Opened OpenTar
    else if GoStrings.HasSuffix s ".tar.lz4" then Opened OpenLz4
    else if GoStrings.HasSuffix s ".tar.bz2" || GoStrings.HasSuffix s ".tbz" then Opened OpenBzip2
    else if GoStrings.HasSuffix s ".tar.gz" || GoStrings.HasSuffix s ".tgz" then Opened OpenGzip
    else if GoStrings.HasSuffix s "tar.zst" || GoStrings.HasSuffix s ".tzst" then Opened OpenZstd
    else Unhandled.
Proof. unfold selectOpener. rewrite !HasSuffixI_one, !HasSuffixI_two. reflexivity. Qed.

(** Rewrite every test of the goal with the ending [H] speaks of. *)
Ltac by_suffix H :=
  rewrite selectOpener_unfold; cbv zeta;
  repeat match goal with
         | |- context [GoStrings.HasSuffix ?s ?b] =>
             first [ rewrite H
                   | rewrite (HasSuffix_exclusive s _ b H
                                ltac:(vm_compute; reflexivity) ltac:(vm_compute; reflexivity)) ]
         end;
  reflexivity.

(** X4.  No case of the switch hides a later one: a name that ends,
    whatever the case of its letters, in one of the suffixes the switch
    tests gets the opener of that suffix (none for [.txt]). *)
Theorem selectOpener_by_suffix (fileName : string) :
  let s := GoStrings.ToLower fileName in
  (GoStrings.HasSuffix s ".txt" = true -> selectOpener fileName = Skipped)
  /\ (GoStrings.HasSuffix s ".tar" = true -> selectOpener fileName = Opened OpenTar)
  /\ (GoStrings.HasSuffix s ".tar.lz4" = true -> selectOpener fileName = Opened OpenLz4)
  /\ (GoStrings.HasSuffix s ".tar.bz2" = true -> selectOpener fileName = Opened OpenBzip2)
  /\ (GoStrings.HasSuffix s ".tbz" = true -> selectOpener fileName = Opened OpenBzip2)
  /\ (GoStrings.HasSuffix s ".tar.gz" = true -> selectOpener fileName = Opened OpenGzip)
  /\ (GoStrings.HasSuffix s ".tgz" = true -> selectOpener fileName = Opened OpenGzip)
  /\ (GoStrings.HasSuffix s "tar.zst" = true -> selectOpener fileName = Opened OpenZstd)
  /\ (GoStrings.HasSuffix s ".tzst" = true -> selectOpener fileName = Opened OpenZstd).
Proof.
  intros s. subst s. split_and!; intros H; by_suffix H.
Qed.

(** ** Local lookup *)

Section LookupFacts.
Variable range : forall V : Type, gmap string V -> list (string * V).
Variable tarball_parse : Opener -> string -> name.Reference -> error + Image.

Lemma disk_emit ev : keeps disk (os.emit ev).
Proof. intros w. reflexivity. Qed.
Lemma disk_sys c n : keeps disk (os.sys c n).
Proof. apply disk_emit. Qed.
Lemma disk_log l msg : keeps disk (logrus.log l msg).
Proof. apply disk_emit. Qed.
Hint Resolve disk_emit disk_sys disk_log : keeps.

Lemma disk_Stat n : keeps disk (os.Stat n).
Proof. unfold os.Stat. keeps_auto. Qed.
Lemma disk_ReadFile n : keeps disk (os.ReadFile n).
Proof. unfold os.ReadFile. keeps_auto. Qed.
Lemma disk_Walk n : keeps disk (os.Walk n).
Proof. unfold os.Walk. keeps_auto. Qed.
Hint Resolve disk_Stat disk_ReadFile disk_Walk : keeps.

Lemma disk_tarball_Image o f tag : keeps disk (tarball_Image tarball_parse o f tag).
Proof. unfold tarball_Image. keeps_auto. Qed.
Hint Resolve disk_tarball_Image : keeps.

Lemma disk_preloadFile tag f : keeps disk (preloadFile tarball_parse tag f).
Proof. unfold preloadFile, logrus.Debugf. keeps_auto. Qed.
Hint Resolve disk_preloadFile : keeps.

Lemma disk_scan_files tag dir fs : keeps disk (scan_files tarball_parse tag dir fs).
Proof.
  induction fs as [|f fs IH]; simpl; unfold logrus.Debugf, logrus.Infof; keeps_auto.
Qed.
Hint Resolve disk_scan_files : keeps.

Lemma disk_preloadBootstrapImage dataDir ref :
  keeps disk (preloadBootstrapImage range tarball_parse dataDir ref).
Proof. unfold preloadBootstrapImage, logrus.Debugf. keeps_auto. Qed.
Hint Resolve disk_preloadBootstrapImage : keeps.

Lemma disk_preload_refs dataDir refs :
  keeps disk (preload_refs range tarball_parse dataDir refs).
Proof. induction refs as [|r refs IH]; simpl; unfold logrus.Errorf; keeps_auto. Qed.

Lemma ReadFile_eq n w :
  os.ReadFile n w =
    (match os.fs_readfile w n with
     | inr s => (Some s, None)
     | inl e => (None, Some (ErrPath "open" n e))
     end,
     snd (os.sys CReadFile n w)).
Proof.
  unfold os.ReadFile, mbind, ST_bind, os.sys, os.emit, os.get. simpl.
  unfold os.fs_readfile. simpl.
  destruct (os.stat (tree w) (os.resolve n)) as [e|[q []]]; reflexivity.
Qed.

Lemma fs_readfile_disk w w' n : disk w' = disk w -> os.fs_readfile w' n = os.fs_readfile w n.
Proof. unfold disk, os.fs_readfile. intros [= -> ->]. reflexivity. Qed.

(** What [preloadFile] returns depends on the file system alone. *)
Lemma preloadFile_disk tag f w w' :
  disk w' = disk w ->
  fst (preloadFile tarball_parse tag f w') = fst (preloadFile tarball_parse tag f w).
Proof.
  intros H. unfold preloadFile. destruct (selectOpener f); try reflexivity.
  rewrite !run_bind. unfold tarball_Image. rewrite !run_bind, !ReadFile_eq.
  rewrite (fs_readfile_disk _ _ _ H).
  destruct (os.fs_readfile w f) as [e|s]; simpl; [reflexivity|].
  destruct (tarball_parse o s tag); reflexivity.
Qed.

Lemma scan_files_no_error tag dir fs : forall w,
  snd (fst (scan_files tarball_parse tag dir fs w)) = None.
Proof.
  induction fs as [|f fs IH]; intros w; simpl; [reflexivity|].
  rewrite run_bind. destruct (preloadFile tarball_parse tag f w) as [[[img|] err] w1].
  - reflexivity.
  - rewrite run_bind. destruct err; simpl; apply IH.
Qed.

Lemma preloadBootstrapImage_image_no_error dataDir ref w :
  fst (fst (preloadBootstrapImage range tarball_parse dataDir ref w)) <> None ->
  snd (fst (preloadBootstrapImage range tarball_parse dataDir ref w)) = None.
Proof.
  destruct ref as [repo t|repo d]; [|reflexivity].
  unfold preloadBootstrapImage. rewrite run_bind, Stat_eq.
  destruct (os.stat _ _) as [e|[q n]]; simpl.
  - destruct e; simpl; congruence.
  - rewrite run_bind, Walk_eq.
    destruct (os.fs_walk _ _) as [e|l]; simpl; [congruence|].
    intros _. apply scan_files_no_error.
Qed.

Lemma preload_refs_no_error dataDir refs : forall w,
  snd (fst (preload_refs range tarball_parse dataDir refs w)) = None.
Proof.
  induction refs as [|r refs IH]; intros w; simpl; [reflexivity|].
  rewrite run_bind.
  pose proof (preloadBootstrapImage_image_no_error dataDir r w) as Himg.
  destruct (preloadBootstrapImage range tarball_parse dataDir r w) as [[[img|] err] w1];
    simpl in *.
  - apply Himg. discriminate.
  - rewrite run_bind. destruct err; simpl; apply IH.
Qed.

End LookupFacts.

(** X5.  [preloadFile] reports an error exactly when the name has none
    of the suffixes of the switch, never together with an image, and then,
    as for a [.txt] name, it has not touched the world; whatever the name,
    it leaves the file system as it was. *)
Theorem preloadFile_errors
    (tarball_parse : Opener -> string -> name.Reference -> error + Image)
    (imageTag : name.Reference) (fileName : string) (w : World) :
  let '((img, err), w') := preloadFile tarball_parse imageTag fileName w in
  (err <> None <-> selectOpener fileName = Unhandled)
  /\ (img <> None -> err = None)
  /\ ((forall o, selectOpener fileName <> Opened o) -> w' = w)
  /\ disk w' = disk w.
Proof.
  pose proof (disk_preloadFile tarball_parse imageTag fileName w) as Hdisk.
  unfold preloadFile in *.
  destruct (selectOpener fileName) as [|o|]; simpl in *.
  - repeat split; done.
  - rewrite run_bind in *.
    destruct (tarball_Image tarball_parse o fileName imageTag w) as [[e|img] w1]; simpl in *.
    + repeat split; try done. intros H. exfalso. exact (H o eq_refl).
    + repeat split; try done. intros H. exfalso. exact (H o eq_refl).
  - repeat split; done.
Qed.

(** X6.  Looking for the runtime image in the archives of the node reads
    and never writes: the file system is afterwards as it was. *)
Theorem preloadBootstrapFromRuntime_reads_only
    (range : forall V : Type, gmap string V -> list (string * V))
    (tarball_parse : Opener -> string -> name.Reference -> error + Image)
    (dataDir : string) (resolver : Resolver) (w : World) :
  disk (snd (preloadBootstrapFromRuntime range tarball_parse dataDir resolver w)) = disk w.
Proof. unfold preloadBootstrapFromRuntime. apply disk_preload_refs. Qed.

(** X7.  The lookup in the archives never fails: whatever goes wrong in
    it is logged, and the error [Stage] tests for after it is always nil. *)
Theorem preloadBootstrapFromRuntime_no_error
    (range : forall V : Type, gmap string V -> list (string * V))
    (tarball_parse : Opener -> string -> name.Reference -> error + Image)
    (dataDir : string) (resolver : Resolver) (w : World) :
  snd (fst (preloadBootstrapFromRuntime range tarball_parse dataDir resolver w)) = None.
Proof. unfold preloadBootstrapFromRuntime. apply preload_refs_no_error. Qed.

(** X8.  The scan of the images directory returns the image of the first
    file, in the order of the range, in which [preloadFile] finds the tag,
    and nothing when no file holds it. *)
Theorem scan_files_first
    (tarball_parse : Opener -> string -> name.Reference -> error + Image)
    (imageTag : name.Reference) (imagesDir : string) (fileNames : list string) (w : World) :
  fst (scan_files tarball_parse imageTag imagesDir fileNames w)
  = (first_found tarball_parse imageTag w fileNames, None).
Proof.
  assert (H : forall w', disk w' = disk w ->
            fst (scan_files tarball_parse imageTag imagesDir fileNames w')
            = (first_found tarball_parse imageTag w fileNames, None)); [|by apply H].
  induction fileNames as [|f fs IH]; intros w' Hw'; simpl; [reflexivity|].
  rewrite run_bind.
  pose proof (preloadFile_disk tarball_parse imageTag f w w' Hw') as Hsame.
  pose proof (disk_preloadFile tarball_parse imageTag f w') as Hkeep.
  destruct (preloadFile tarball_parse imageTag f w') as [[img err] w1]. simpl in *.
  rewrite <- Hsame. simpl. destruct img as [i|]; [reflexivity|].
  rewrite run_bind.
  destruct err as [e|]; simpl; apply IH; (transitivity (disk w1); [reflexivity|]);
    congruence.
Qed.

(** ** The local lookup as a whole *)

(** No event of a list of log lines, or of calls other than [ReadFile],
    reads a file. *)
Ltac no_reads :=
  repeat (apply Forall_cons; split; [intros ? [=]|]); apply Forall_nil_2.

Section ScanFacts.
Variable tarball_parse : Opener -> string -> name.Reference -> error + Image.

Lemma tarball_Image_disk o f tag w w' :
  disk w' = disk w ->
  fst (tarball_Image tarball_parse o f tag w') = fst (tarball_Image tarball_parse o f tag w).
Proof.
  intros H. unfold tarball_Image. rewrite !run_bind, !ReadFile_eq.
  rewrite (fs_readfile_disk _ _ _ H).
  destruct (os.fs_readfile w f) as [e|s]; reflexivity.
Qed.

Lemma tarball_Image_eq o f tag w :
  tarball_Image tarball_parse o f tag w
  = (match os.fs_readfile w f with
     | inl e => inl (ErrPath "open" f e)
     | inr s => tarball_parse o s tag
     end,
     snd (os.sys CReadFile f w)).
Proof.
  unfold tarball_Image. rewrite run_bind, ReadFile_eq.
  destruct (os.fs_readfile w f); reflexivity.
Qed.

(** What one call of [preloadFile] adds to the trace: it reads no file but
    its own, and a failure of the archive is in the debug log. *)
Lemma preloadFile_events tag f w :
  exists evs,
    trace (snd (preloadFile tarball_parse tag f w)) = trace w ++ evs
    /\ Forall (fun ev => forall g, ev = EvSys CReadFile g -> g = f) evs
    /\ (forall o e, selectOpener f = Opened o ->
          fst (tarball_Image tarball_parse o f tag w) = inl e ->
          EvLog LDebug ("Did not find " +:+ name.String tag +:+ " in " +:+
                        f +:+ ": " +:+ Error e) ∈ evs).
Proof.
  unfold preloadFile. destruct (selectOpener f) as [|o|] eqn:Hsel.
  1,3: (exists []; simpl; rewrite app_nil_r; split_and!; [done | constructor | discriminate]).
  rewrite run_bind, tarball_Image_eq.
  destruct (match os.fs_readfile w f with
            | inl e => inl (ErrPath "open" f e)
            | inr s => tarball_parse o s tag
            end) as [e0|img] eqn:Hres; simpl.
  - eexists. split; [rewrite <- app_assoc; reflexivity|]. split.
    + repeat constructor; intros ? [=]; done.
    + intros o' e [= <-]. rewrite tarball_Image_eq, Hres. simpl. intros [= <-]. set_solver.
  - eexists. split; [reflexivity|]. split.
    + repeat constructor; intros ? [=]; done.
    + intros o' e [= <-]. rewrite tarball_Image_eq, Hres. discriminate.
Qed.

Local Abbreviation no_image tag w :=
  (fun g => fst (fst (preloadFile tarball_parse tag g w)) = None).

Lemma miss_logged_mono tag w g (tr tr' : list Event) :
  tr ⊆ tr' -> miss_logged tarball_parse tag w g tr -> miss_logged tarball_parse tag w g tr'.
Proof. intros Hsub [H1 H2]. split; intros; apply Hsub; eauto. Qed.

(** The scan, from any world with the file system of [w]: its result, and
    what it adds to the trace. *)
Lemma scan_files_run tag dir (w : World) : forall files w0,
  disk w0 = disk w ->
  exists evs,
    trace (snd (scan_files tarball_parse tag dir files w0)) = trace w0 ++ evs
    /\ fst (scan_files tarball_parse tag dir files w0)
       = (first_found tarball_parse tag w files, None)
    /\ (forall pre f rest img,
          files = pre ++ f :: rest -> Forall (no_image tag w) pre ->
          fst (fst (preloadFile tarball_parse tag f w)) = Some img ->
          fst (scan_files tarball_parse tag dir files w0) = (Some img, None)
          /\ Forall (fun ev => forall g, ev = EvSys CReadFile g -> g ∈ pre ++ [f]) evs
          /\ forall g, g ∈ pre -> miss_logged tarball_parse tag w g evs)
    /\ (Forall (no_image tag w) files ->
        fst (scan_files tarball_parse tag dir files w0) = (None, None)
        /\ forall g, g ∈ files -> miss_logged tarball_parse tag w g evs).
Proof.
  induction files as [|a files IH]; intros w0 Hw0.
  { exists [EvLog LDebug ("No local image available for " +:+ name.String tag +:+
                          ": not found in any file in " +:+ dir)].
    split_and!; try reflexivity.
    - intros [|? ?] f rest img H; discriminate.
    - intros _. split; [reflexivity|]. intros g Hg. inversion Hg. }
  simpl scan_files. simpl first_found. rewrite run_bind.
  pose proof (preloadFile_disk tarball_parse tag a w w0 Hw0) as Hsame.
  pose proof (disk_preloadFile tarball_parse tag a w0) as Hkeep.
  destruct (preloadFile_events tag a w0) as (evs_a & Htr_a & Hread_a & Hdbg_a).
  destruct (preloadFile tarball_parse tag a w0) as [[img err] w1] eqn:Hrun.
  simpl in Hsame, Hkeep, Htr_a. simpl fst. simpl snd.
  assert (Hdbg : forall o e, selectOpener a = Opened o ->
            fst (tarball_Image tarball_parse o a tag w) = inl e ->
            EvLog LDebug ("Did not find " +:+ name.String tag +:+ " in " +:+
                          a +:+ ": " +:+ Error e) ∈ evs_a).
  { intros o e Hsel He. apply (Hdbg_a o e Hsel).
    rewrite (tarball_Image_disk o a tag w w0 Hw0). exact He. }
  rewrite <- Hsame. simpl.
  destruct img as [i|].
  - (* the file holds the image: the scan ends here *)
    rewrite run_bind. simpl.
    exists (evs_a ++ [EvLog LDebug ("Found " +:+ name.String tag +:+ " in " +:+ a)]).
    split; [rewrite Htr_a, app_assoc; reflexivity|]. split; [reflexivity|]. split.
    + intros pre f rest img Hsplit Hpre Hf.
      destruct pre as [|a' pre]; simpl in Hsplit; injection Hsplit as <- Hrest.
      * rewrite <- Hsame in Hf. simpl in Hf. injection Hf as <-.
        split; [reflexivity|]. split; [|intros g Hg; inversion Hg].
        apply Forall_app. split.
        -- eapply Forall_impl; [exact Hread_a|]. intros ev Hev g Hg.
           rewrite (Hev g Hg). set_solver.
        -- no_reads.
      * apply Forall_cons in Hpre as [Ha _]. rewrite <- Hsame in Ha. discriminate.
    + intros Hall. apply Forall_cons in Hall as [Ha _].
      rewrite <- Hsame in Ha. discriminate.
  - (* no image in this file: log, and go on *)
    rewrite run_bind.
    set (logs := match err with
                 | Some e => [EvLog LInfo ("Failed to check " +:+ a +:+ ": " +:+ Error e)]
                 | None => []
                 end).
    set (w2 := snd (match err with
                    | Some e => logrus.Infof ("Failed to check " +:+ a +:+ ": " +:+ Error e)
                    | None => mret tt
                    end w1)).
    assert (Hw2 : trace w2 = trace w1 ++ logs /\ disk w2 = disk w1).
    { subst w2 logs. destruct err; simpl; rewrite ?app_nil_r; split; reflexivity. }
    destruct Hw2 as [Htr2 Hd2].
    assert (Hgo : scan_files tarball_parse tag dir (a :: files) w0
                  = scan_files tarball_parse tag dir files w2).
    { simpl. rewrite run_bind, Hrun. simpl. rewrite run_bind. subst w2.
      destruct err; reflexivity. }
    replace ((let '(_, _) := _ in _) : _ * World)
      with (scan_files tarball_parse tag dir files w2)
      by (subst w2; destruct err; reflexivity).
    destruct (IH w2 ltac:(congruence)) as (evs & Htr & Hres & Hfound & Hnone).
    exists (evs_a ++ logs ++ evs).
    assert (Ha_logged : miss_logged tarball_parse tag w a (evs_a ++ logs ++ evs)).
    { split.
      - intros o e Hsel He. apply elem_of_app. left. eauto.
      - intros e He. rewrite <- Hsame in He. simpl in He. subst err logs.
        apply elem_of_app. right. apply elem_of_app. left. by left. }
    assert (Hsub : evs ⊆ evs_a ++ logs ++ evs).
    { intros ev Hev. apply elem_of_app. right. apply elem_of_app. by right. }
    split; [rewrite Htr, Htr2, Htr_a, <- !app_assoc; reflexivity|].
    split; [exact Hres|]. split.
    + intros pre f rest img Hsplit Hpre Hf.
      destruct pre as [|a' pre]; simpl in Hsplit; injection Hsplit as <- Hrest.
      { rewrite <- Hsame in Hf. discriminate. }
      apply Forall_cons in Hpre as [_ Hpre].
      destruct (Hfound pre f rest img Hrest Hpre Hf) as (Hr & Hreads & Hlogs).
      split; [exact Hr|]. split.
      * apply Forall_app. split; [|apply Forall_app; split].
        -- eapply Forall_impl; [exact Hread_a|]. intros ev Hev g Hg.
           rewrite (Hev g Hg). by left.
        -- subst logs. destruct err; no_reads.
        -- eapply Forall_impl; [exact Hreads|]. intros ev Hev g Hg.
           specialize (Hev g Hg). by right.
      * intros g Hg. apply elem_of_cons in Hg as [->|Hg]; [exact Ha_logged|].
        eapply miss_logged_mono; [exact Hsub | auto].
    + intros Hall. apply Forall_cons in Hall as [_ Hall].
      destruct (Hnone Hall) as [Hr Hlogs]. split; [exact Hr|].
      intros g Hg. apply elem_of_cons in Hg as [->|Hg]; [exact Ha_logged|].
      eapply miss_logged_mono; [exact Hsub | auto].
Qed.

Lemma collect_files_fold (visited : list (string * FileInfo)) (p : string) :
  forall acc : gmap string FileInfo,
  is_Some (fold_left (fun (files : gmap string FileInfo) '(p, info) =>
                        if IsDir info then files else <[p := info]> files)
                     visited acc !! p)
  <-> is_Some (acc !! p)
      \/ exists info : FileInfo, (p, info) ∈ visited /\ IsDir info = false.
Proof.
  induction visited as [|[p0 i0] visited IH]; intros acc; simpl.
  { split; [auto|]. intros [H|(info & H & _)]; [done | inversion H]. }
  rewrite IH. clear IH. split.
  - intros [Hacc|(info & Hin & Hdir)].
    + destruct (IsDir i0) eqn:Hd; [auto|].
      apply lookup_insert_is_Some in Hacc as [<-|[_ Hacc]]; [|auto].
      right. exists i0. split; [left | exact Hd].
    + right. exists info. split; [by right | exact Hdir].
  - intros [Hacc|(info & Hin & Hdir)].
    + left. destruct (IsDir i0); [exact Hacc|].
      rewrite lookup_insert_is_Some. destruct (decide (p0 = p)); auto.
    + apply elem_of_cons in Hin as [[= -> ->]|Hin]; [|right; eauto].
      left. rewrite Hdir, lookup_insert_is_Some. auto.
Qed.

End ScanFacts.

(** C5.  The local lookup for a tag, in any world.  It never writes.  A
    missing images directory is "not found": no image and no error.  When
    the directory is there and the walk succeeds, the candidates are the
    visited entries that are not directories, each once.  The lookup
    returns the image of the first candidate, in the order of the range,
    in which [preloadFile] finds the tag, and with it no error.  The
    candidates before that one were each tried and left behind with their
    log line among the events of the run, a debug line for an archive that
    cannot be opened or does not hold the tag, an info line for a file
    [preloadFile] refuses; no candidate after it is read.  When no
    candidate holds the tag, each has its log line and the answer is again
    "not found". *)
Theorem preloadBootstrapImage_scan
    (range : forall V : Type, gmap string V -> list (string * V))
    (tarball_parse : Opener -> string -> name.Reference -> error + Image)
    (dataDir : string) (repo : name.Repository) (t original : string) (w : World) :
  (forall V (m : gmap string V), range V m ≡ₚ map_to_list m) ->
  let imageTag := name.Tag repo t original in
  let no_image := fun g => fst (fst (preloadFile tarball_parse imageTag g w)) = None in
  let '(r, w') := preloadBootstrapImage range tarball_parse dataDir imageTag w in
  disk w' = disk w
  /\ (IsNotExist (snd (fst (os.Stat (imagesDir dataDir) w))) = true -> r = (None, None))
  /\ exists evs,
       trace w' = trace w ++ evs
       /\ forall visited,
            snd (fst (os.Stat (imagesDir dataDir) w)) = None ->
            os.fs_walk (tree w) (imagesDir dataDir) = inr visited ->
            let fileNames := fst <$> range _ (collect_files visited) in
            NoDup fileNames
            /\ (forall f, f ∈ fileNames <->
                            exists info, (f, info) ∈ visited /\ IsDir info = false)
            /\ r = (first_found tarball_parse imageTag w fileNames, None)
            /\ (forall pre f rest img,
                  fileNames = pre ++ f :: rest -> Forall no_image pre ->
                  fst (fst (preloadFile tarball_parse imageTag f w)) = Some img ->
                  r = (Some img, None)
                  /\ (forall g, g ∈ pre -> miss_logged tarball_parse imageTag w g evs)
                  /\ Forall (fun ev => forall g, ev = EvSys CReadFile g -> g ∈ pre ++ [f]) evs)
            /\ (Forall no_image fileNames ->
                r = (None, None)
                /\ forall g, g ∈ fileNames -> miss_logged tarball_parse imageTag w g evs).
Proof.
  intros Hrange imageTag no_image.
  pose proof (disk_preloadBootstrapImage range tarball_parse dataDir imageTag w) as Hdisk.
  unfold preloadBootstrapImage in *. subst imageTag. cbv beta iota in *.
  rewrite run_bind in *. rewrite Stat_eq in *.
  destruct (os.stat (tree w) (os.resolve (imagesDir dataDir))) as [e|[q n]] eqn:Hstat;
    cbn [fst snd] in *.
  { (* the directory cannot be examined *)
    destruct (IsNotExist (Some (ErrPath "stat" (imagesDir dataDir) e))) eqn:Hne.
    - rewrite run_bind in *. simpl in *. split; [exact Hdisk|]. split; [done|].
      eexists. split; [rewrite <- app_assoc; reflexivity|]. intros visited [=].
    - simpl in *. split; [exact Hdisk|]. split; [discriminate|].
      eexists. split; [reflexivity|]. intros visited [=]. }
  rewrite run_bind in *. rewrite Walk_eq in *. cbn [fst snd] in *.
  change (tree (snd (os.sys CStat (imagesDir dataDir) w))) with (tree w) in *.
  destruct (os.fs_walk (tree w) (imagesDir dataDir)) as [e|visited] eqn:Hwalk;
    cbn [fst snd] in *.
  { simpl in *. split; [exact Hdisk|]. split; [discriminate|].
    eexists. split; [rewrite <- app_assoc; reflexivity|]. intros visited _ [=]. }
  set (w0 := snd (os.sys CWalk (imagesDir dataDir)
                    (snd (os.sys CStat (imagesDir dataDir) w)))) in *.
  set (fileNames := fst <$> range FileInfo (collect_files visited)) in *.
  destruct (scan_files_run tarball_parse (name.Tag repo t original) (imagesDir dataDir) w
              fileNames w0 eq_refl) as (evs & Htr & Hres & Hfound & Hnone).
  destruct (scan_files tarball_parse (name.Tag repo t original) (imagesDir dataDir)
              fileNames w0) as [r w'] eqn:Hscan.
  cbn [fst snd] in *.
  split; [exact Hdisk|]. split; [discriminate|].
  exists ([EvSys CStat (imagesDir dataDir); EvSys CWalk (imagesDir dataDir)] ++ evs).
  split.
  { rewrite Htr. subst w0. simpl. rewrite <- !app_assoc. reflexivity. }
  intros visited' _ [= <-]. cbv zeta. fold fileNames.
  assert (Hsub : evs ⊆ [EvSys CStat (imagesDir dataDir);
                         EvSys CWalk (imagesDir dataDir)] ++ evs).
  { intros ev Hev. apply elem_of_app. by right. }
  split_and!.
  - subst fileNames. rewrite Hrange. apply NoDup_fst_map_to_list.
  - intros f. subst fileNames. rewrite Hrange.
    rewrite list_elem_of_fmap. split.
    + intros ([f' info] & -> & Hel). apply elem_of_map_to_list in Hel. simpl.
      assert (Hsome : is_Some (collect_files visited !! f')) by eauto.
      apply collect_files_fold in Hsome as [Hempty|H]; [|exact H].
      rewrite lookup_empty in Hempty. by destruct Hempty.
    + intros Hv.
      assert (Hsome : is_Some (collect_files visited !! f)).
      { apply collect_files_fold. right. exact Hv. }
      destruct Hsome as [info Hinfo]. exists (f, info). split; [reflexivity|].
      apply elem_of_map_to_list. exact Hinfo.
  - exact Hres.
  - intros pre f rest img Hsplit Hpre Hf.
    destruct (Hfound pre f rest img Hsplit Hpre Hf) as (Hr & Hreads & Hlogs).
    split; [exact Hr|]. split.
    + intros g Hg. eapply miss_logged_mono; [exact Hsub | exact (Hlogs g Hg)].
    + apply Forall_app. split; [no_reads | exact Hreads].
  - intros Hall. destruct (Hnone Hall) as [Hr Hlogs]. split; [exact Hr|].
    intros g Hg. eapply miss_logged_mono; [exact Hsub | exact (Hlogs g Hg)].
Qed.

Lemma preloadBootstrapImage_scan_witness :
  fst (preloadBootstrapImage Examples.in_order Examples.parse Examples.dataDir
         Examples.runtime_tag Examples.airgap) = (Some Examples.runtime_image, None)
  /\ fst (preloadBootstrapImage Examples.in_order Examples.parse Examples.dataDir
            Examples.runtime_tag Examples.fresh) = (None, None).
Proof.
  split.
  - pose proof (preloadBootstrapImage_scan Examples.in_order Examples.parse Examples.dataDir
                  Examples.rke2_runtime "v1.21.5-rke2r1"
                  "index.docker.io/rancher/rke2-runtime:v1.21.5-rke2r1" Examples.airgap
                  (fun V m => reflexivity _)) as H.
    cbv zeta in H. fold Examples.runtime_tag in H.
    destruct (preloadBootstrapImage _ _ _ _ _) as [r w'].
    destruct H as (_ & _ & evs & _ & H).
    eassert (Hwalk : os.fs_walk (tree Examples.airgap) (imagesDir Examples.dataDir) = inr _)
      by (vm_compute; reflexivity).
    destruct (H _ ltac:(vm_compute; reflexivity) Hwalk) as (_ & _ & Hr & _).
    simpl. rewrite Hr. vm_compute. reflexivity.
  - pose proof (preloadBootstrapImage_scan Examples.in_order Examples.parse Examples.dataDir
                  Examples.rke2_runtime "v1.21.5-rke2r1"
                  "index.docker.io/rancher/rke2-runtime:v1.21.5-rke2r1" Examples.fresh
                  (fun V m => reflexivity _)) as H.
    cbv zeta in H. fold Examples.runtime_tag in H.
    destruct (preloadBootstrapImage _ _ _ _ _) as [r w'].
    destruct H as (_ & H & _). exact (H ltac:(vm_compute; reflexivity)).
Defined.

(** ** Extraction and placement *)

Section PlacementMore.

Lemma place_files_extends tempSource dest files : forall errs w,
  exists new, fst (place_files tempSource dest files errs w) = errs ++ new
              /\ (length new <= length files)%nat.
Proof.
  induction files as [|file files IH]; intros errs w; simpl.
  { exists []. split; [symmetry; apply app_nil_r | reflexivity]. }
  assert (Hmore : forall x w', exists new,
            fst (place_files tempSource dest files (errs ++ [x]) w') = errs ++ new
            /\ (length new <= S (length files))%nat).
  { intros x w'. destruct (IH (errs ++ [x]) w') as (new & -> & Hlen).
    exists (x :: new). split; [symmetry; apply (app_assoc errs [x] new) | simpl; lia]. }
  assert (Hsame : forall w', exists new,
            fst (place_files tempSource dest files errs w') = errs ++ new
            /\ (length new <= S (length files))%nat).
  { intros w'. destruct (IH errs w') as (new & -> & Hlen). exists new. split; [done | lia]. }
  rewrite run_bind. destruct (os.Rename _ _ w) as [err w1]. simpl.
  destruct (IsExist err).
  - rewrite run_bind. destruct (os.RemoveAll _ w1) as [[e|] w2]; simpl; [apply Hmore|].
    rewrite run_bind. destruct (os.Rename _ _ w2) as [[e|] w3]; simpl;
      [apply Hmore | apply Hsame].
  - destruct err as [e|]; [apply Hmore | apply Hsame].
Qed.

Lemma place_dir_extends tempDir source dest errs w errs' :
  fst (place_dir tempDir source dest errs w) = Continue errs' ->
  exists new, errs' = errs ++ new.
Proof.
  unfold place_dir. rewrite run_bind.
  destruct (os.Stat _ w) as [[i1 [e1|]] w1]; simpl.
  { intros [= <-]. eauto. }
  rewrite run_bind. destruct (logrus.Debugf _ w1) as [[] w2]. simpl.
  rewrite run_bind. destruct (os.Stat _ w2) as [[i2 e2] w3]. simpl.
  rewrite run_bind.
  destruct (match e2 with Some _ => os.MkdirAll _ _ | None => mret None end w3)
    as [[e3|] w4]; simpl; [discriminate|].
  rewrite run_bind. destruct (os.Rename _ _ w4) as [[e4|] w5]; cbv beta iota.
  2:{ simpl. intros [= <-]. exists []. symmetry. apply app_nil_r. }
  destruct (negb (IsExist (Some e4))); simpl.
  { intros [= <-]. eauto. }
  rewrite run_bind. destruct (os.ReadDir _ w5) as [[fs [e5|]] w6]; simpl.
  { intros [= <-]. eauto. }
  rewrite run_bind.
  destruct (place_files_extends (filepath.Join [tempDir; source]) dest fs errs w6)
    as (new & Hnew & _).
  destruct (place_files _ _ fs errs w6) as [errs2 w7]. simpl in *.
  intros [= <-]. eauto.
Qed.

Lemma NewErrors_None errs : NewErrors errs = None -> errs = [].
Proof. destruct errs as [|e [|e' errs]]; simpl; congruence. Qed.

Lemma Mkdir_failed name mode w e :
  fst (os.Mkdir name mode w) = Some e -> disk (snd (os.Mkdir name mode w)) = disk w.
Proof.
  unfold os.Mkdir, mbind, ST_bind, os.sys, os.emit, os.get. simpl.
  destruct (os.fs_mkdir _ _ _); simpl; [reflexivity | discriminate].
Qed.

Lemma TempDir_loop_failed tries dir pre suf : forall w e,
  snd (fst (os.TempDir_loop tries dir pre suf w)) = Some e ->
  disk (snd (os.TempDir_loop tries dir pre suf w)) = disk w.
Proof.
  induction tries as [|tries IH]; intros w e; simpl; [reflexivity|].
  rewrite run_bind.
  assert (Hr : disk (snd (os.nextRandom w)) = disk w) by reflexivity.
  destruct (os.nextRandom w) as [r w1]. simpl in Hr. simpl fst. simpl snd.
  rewrite run_bind.
  pose proof (Mkdir_failed (filepath.Join [dir; pre +:+ r +:+ suf]) perm_0700 w1) as Hmk.
  destruct (os.Mkdir _ _ w1) as [err w2]. simpl in Hmk. simpl fst. simpl snd.
  destruct (IsExist err) eqn:Hex.
  - intros H. rewrite (IH _ _ H). destruct err as [e'|]; [|discriminate].
    rewrite (Hmk e' eq_refl). exact Hr.
  - destruct err as [e'|]; [|discriminate].
    intros _. rewrite <- Hr, <- (Hmk e' eq_refl).
    destruct (IsNotExist (Some e')); [|reflexivity].
    rewrite run_bind. pose proof (disk_Stat dir w2) as Hst.
    destruct (os.Stat dir w2) as [[i serr] w3]. simpl in *.
    destruct (IsNotExist serr); exact Hst.
Qed.

End PlacementMore.

(** X9.  [extract] passes over every entry of the image whose directory is
    not a key of the plan: such entries are not created, not logged and
    cost no call, whatever their type. *)
Theorem extract_loop_outside_plan (targetDir : string) (dirs : gmap string string)
    (t : list (tar.Header * string)) (last : option error) (w : World) :
  Forall (fun e => dirs !! filepath.Dir (tar.Name e.1) = None) t ->
  extract_loop targetDir dirs t last w = (last, w).
Proof.
  induction 1 as [|[h body] t Hh _ IH]; simpl; [reflexivity|].
  simpl in Hh. rewrite Hh. destruct (tar.Typeflag h); exact IH.
Qed.

Lemma extract_loop_outside_plan_witness :
  extract_loop "/var/lib/rancher/rke2/runtime-42" {[ "lib" := "/usr/lib" ]}
    (entries Examples.runtime_image) None Examples.fresh
  = (None, Examples.fresh).
Proof.
  apply extract_loop_outside_plan.
  repeat (constructor; [vm_compute; reflexivity|]). constructor.
Defined.

(** X10.  Moving the files of a staged directory one by one never loses an
    error recorded before: the list that comes back is the list that went
    in, followed by at most one error for each file. *)
Theorem place_files_keeps_errors (tempSource dest : string) (files : list FileInfo)
    (errs : list error) (w : World) :
  exists new, fst (place_files tempSource dest files errs w) = errs ++ new
              /\ (length new <= length files)%nat.
Proof. apply place_files_extends. Qed.

(** X11.  Once an error has been recorded, the placement loop does not end
    with nil, whatever the rest of the plan does. *)
Theorem place_loop_reports (tempDir : string) (plan : list (string * string))
    (errs : list error) (w : World) :
  errs <> [] -> fst (place_loop tempDir plan errs w) <> None.
Proof.
  revert errs w. induction plan as [|[source dest] plan IH]; intros errs w Herrs; simpl.
  - intros H. apply NewErrors_None in H. done.
  - rewrite run_bind.
    pose proof (place_dir_extends tempDir source dest errs w) as Hext.
    destruct (place_dir tempDir source dest errs w) as [[e|errs'] w1]; simpl in *; [done|].
    apply IH. destruct (Hext errs' eq_refl) as [new ->].
    destruct errs; [done | discriminate].
Qed.

Lemma place_loop_reports_witness :
  fst (place_loop "/var/lib/rancher/rke2/runtime-42"
         [("bin", "/var/lib/rancher/rke2/data/v1/bin")]
         [ErrPath "stat" "/var/lib/rancher/rke2/runtime-42/charts" ENOENT] Examples.fresh)
  <> None.
Proof. apply place_loop_reports. discriminate. Defined.

(** X12.  When no staging directory can be made, [extractToDirs] returns
    the error of [TempDir] as it is, and has left the file system as it
    was. *)
Theorem extractToDirs_no_staging
    (range : forall V : Type, gmap string V -> list (string * V))
    (img : Image) (dataDir : string) (dirs : gmap string string) (w : World) (e : error) :
  snd (fst (os.TempDir dataDir "runtime-" "" w)) = Some e ->
  fst (extractToDirs range img dataDir dirs w) = Some e
  /\ disk (snd (extractToDirs range img dataDir dirs w)) = disk w.
Proof.
  intros H.
  assert (Hdisk : disk (snd (os.TempDir dataDir "runtime-" "" w)) = disk w)
    by exact (TempDir_loop_failed _ _ _ _ _ _ H).
  unfold extractToDirs. rewrite run_bind.
  destruct (os.TempDir dataDir "runtime-" "" w) as [[tempDir err] w1].
  simpl in H. subst err. simpl. split; [reflexivity | exact Hdisk].
Qed.

Lemma extractToDirs_no_staging_witness :
  fst (extractToDirs Examples.in_order Examples.runtime_image "/srv/rke2" Examples.plan
         Examples.fresh)
  = Some (ErrPath "stat" "/srv/rke2" ENOENT)
  /\ disk (snd (extractToDirs Examples.in_order Examples.runtime_image "/srv/rke2"
                  Examples.plan Examples.fresh))
     = disk Examples.fresh.
Proof. apply extractToDirs_no_staging. vm_compute. reflexivity. Defined.

(** ** Charts *)

(** X13.  The patch of a chart sets two keys of [Spec.Set] and the job
    image, and nothing else: every other key of the map, and every other
    field of the chart, is as it was. *)
Theorem patchChart_keeps_rest (DefaultJobImage : string) (chart : HelmChart)
    (dataDir systemDefaultRegistry : string) :
  let chart' := fst (patchChart DefaultJobImage chart dataDir systemDefaultRegistry) in
  Others chart' = Others chart
  /\ forall k, k <> "global.rke2DataDir" -> k <> "global.systemDefaultRegistry" ->
               default ∅ (Spec_Set chart') !! k = default ∅ (Spec_Set chart) !! k.
Proof.
  unfold patchChart. repeat (case_decide; simpl); split; try reflexivity;
    intros k ? ?; rewrite ?lookup_insert_ne by done; reflexivity.
Qed.

(** X14.  The patch reports a change, and so has the file written again,
    unless both keys already hold the wanted strings and the job image is
    the wanted one; a chart without a map counts as holding empty
    strings. *)
Theorem patchChart_changed_iff (DefaultJobImage : string) (chart : HelmChart)
    (dataDir systemDefaultRegistry : string) :
  snd (patchChart DefaultJobImage chart dataDir systemDefaultRegistry) = false
  <-> (StrVal (index (Spec_Set chart) "global.rke2DataDir") = dataDir
       /\ StrVal (index (Spec_Set chart) "global.systemDefaultRegistry") = systemDefaultRegistry
       /\ Spec_JobImage chart =
            (if decide (systemDefaultRegistry <> "")
             then systemDefaultRegistry +:+ "/" +:+ DefaultJobImage
             else DefaultJobImage)).
Proof.
  assert (Hidx : forall k, index (Some (default ∅ (Spec_Set chart))) k = index (Spec_Set chart) k)
    by reflexivity.
  unfold patchChart.
  destruct (decide (StrVal (index (Some (default ∅ (Spec_Set chart))) "global.rke2DataDir")
                    <> dataDir)) as [H1|H1]; rewrite Hidx in H1.
  - transitivity False; [|tauto].
    repeat (case_decide; simpl); split; (discriminate || tauto).
  - rewrite Hidx. apply dec_stable in H1.
    destruct (decide (StrVal (index (Spec_Set chart) "global.systemDefaultRegistry")
                      <> systemDefaultRegistry)) as [H2|H2].
    + transitivity False; [|tauto].
      repeat (case_decide; simpl); split; (discriminate || tauto).
    + apply dec_stable in H2.
      destruct (decide (Spec_JobImage chart <> _)) as [H3|H3]; simpl.
      * split; [discriminate | tauto].
      * apply dec_stable in H3. tauto.
Qed.

Section ChartMore.
Variable range : forall V : Type, gmap string V -> list (string * V).
Variable Decode : string -> error + Object.
Variable Encode : HelmChart -> error + string.
Variable DefaultJobImage : string.
Variables dataDir systemDefaultRegistry : string.

Lemma rewriteChart_frame f info w :
  let w' := snd (rewriteChart Decode Encode DefaultJobImage f info dataDir
                   systemDefaultRegistry w) in
  tree w' = tree w
  /\ forall q, target w f <> Some q -> data w' !! q = data w !! q.
Proof.
  unfold rewriteChart, target, os.ReadFile, os.fs_readfile.
  unfold mbind, mret, ST_bind, ST_ret, os.sys, os.emit, os.get, os.put,
    logrus.Debugf, logrus.Infof, logrus.log, os.emit. simpl.
  destruct (os.stat (tree w) (os.resolve f)) as [e|[q0 [m|m|tg]]] eqn:Hstat; simpl;
    try (split; [reflexivity | intros; reflexivity]).
  destruct (Decode (default "" (data w !! q0))) as [e|[chart|kind]]; simpl;
    try (split; [reflexivity | intros; reflexivity]).
  destruct (patchChart DefaultJobImage chart dataDir systemDefaultRegistry)
    as [chart0 changed]. destruct changed; simpl;
    try (split; [reflexivity | intros; reflexivity]).
  unfold os.OpenFile, os.fs_open_trunc, os.Write, os.Close.
  unfold mbind, mret, ST_bind, ST_ret, os.sys, os.emit, os.get, os.put. simpl.
  rewrite Hstat. simpl.
  destruct (Encode chart0) as [e|out]; simpl; (split; [reflexivity|]);
    intros q Hq; assert (q0 <> q) by congruence;
    rewrite ?lookup_insert_ne by done; reflexivity.
Qed.

Lemma target_tree w w' f : tree w' = tree w -> target w' f = target w f.
Proof. unfold target. intros ->. reflexivity. Qed.

Lemma rewrite_files_frame files : forall errs w,
  let w' := snd (rewrite_files Decode Encode DefaultJobImage files dataDir
                   systemDefaultRegistry errs w) in
  tree w' = tree w
  /\ forall q, data w' !! q <> data w !! q ->
               exists p info, (p, info) ∈ files /\ target w p = Some q.
Proof.
  induction files as [|[f info] files IH]; intros errs w; simpl.
  { split; [reflexivity | intros q H; done]. }
  rewrite run_bind.
  pose proof (rewriteChart_frame f info w) as [Ht1 Hd1].
  destruct (rewriteChart Decode Encode DefaultJobImage f info dataDir
              systemDefaultRegistry w) as [err w1]. simpl in Ht1, Hd1. simpl fst. simpl snd.
  match goal with
  | |- context [rewrite_files _ _ _ files _ _ ?errs' w1] =>
      destruct (IH errs' w1) as [Ht2 Hd2]
  end.
  split; [congruence|]. intros q Hq.
  destruct (decide (data w1 !! q = data w !! q)) as [Heq|Hne].
  - destruct (Hd2 q) as (p & i & Hin & Hp); [congruence|].
    exists p, i. split; [by right|]. rewrite <- Hp. symmetry. by apply target_tree.
  - exists f, info. split; [by left|].
    destruct (decide (target w f = Some q)); [done|]. exfalso. by apply Hne, Hd1.
Qed.

Lemma collect_manifests_fold (visited : list (string * FileInfo)) (p : string) :
  forall acc : gmap string FileInfo,
  is_Some (fold_left (fun (files : gmap string FileInfo) '(p, info) =>
               if IsDir info then files
               else if GoStrings.HasSuffix p ".yml" then <[p := info]> files
               else if GoStrings.HasSuffix p ".yaml" then <[p := info]> files
               else files) visited acc !! p)
  <-> is_Some (acc !! p)
      \/ exists info : FileInfo, (p, info) ∈ visited /\ IsDir info = false
           /\ (GoStrings.HasSuffix p ".yml" = true \/ GoStrings.HasSuffix p ".yaml" = true).
Proof.
  induction visited as [|[p0 i0] visited IH]; intros acc; simpl.
  { split; [auto|]. intros [H|(info & H & _)]; [done | inversion H]. }
  rewrite IH. clear IH.
  assert (Hcons : forall info, (p, info) ∈ (p0, i0) :: visited
                  <-> (p = p0 /\ info = i0) \/ (p, info) ∈ visited).
  { intros info. rewrite elem_of_cons. split; intros [H|H]; auto.
    - injection H as -> ->. auto.
    - destruct H as [-> ->]. auto. }
  split.
  - intros [Hacc|(info & Hin & Hrest)].
    + destruct (IsDir i0) eqn:Hdir; [auto|].
      destruct (GoStrings.HasSuffix p0 ".yml") eqn:Hyml.
      { apply lookup_insert_is_Some in Hacc as [<-|[_ Hacc]]; [|auto].
        right. exists i0. rewrite Hcons. auto. }
      destruct (GoStrings.HasSuffix p0 ".yaml") eqn:Hyaml; [|auto].
      apply lookup_insert_is_Some in Hacc as [<-|[_ Hacc]]; [|auto].
      right. exists i0. rewrite Hcons. auto.
    + right. exists info. rewrite Hcons. auto.
  - intros [Hacc|(info & Hin & Hdir & Hsuf)].
    + left. repeat case_match; rewrite ?lookup_insert_is_Some; auto;
        destruct (decide (p0 = p)); auto.
    + apply Hcons in Hin as [[-> ->]|Hin]; [|right; eauto].
      left. rewrite Hdir.
      destruct Hsuf as [->| ->]; [|destruct (GoStrings.HasSuffix p0 ".yml")];
        rewrite lookup_insert_is_Some; auto.
Qed.

End ChartMore.

(** X15.  [rewriteChart] changes one file at most: the tree is as it was,
    and so are the bytes of every file but the one its name leads to,
    whatever the serializer does. *)
Theorem rewriteChart_one_file
    (Decode : string -> error + Object) (Encode : HelmChart -> error + string)
    (DefaultJobImage : string) (fileName : string) (info : FileInfo)
    (dataDir systemDefaultRegistry : string) (w : World) :
  let w' := snd (rewriteChart Decode Encode DefaultJobImage fileName info dataDir
                   systemDefaultRegistry w) in
  tree w' = tree w
  /\ forall q, target w fileName <> Some q -> data w' !! q = data w !! q.
Proof. apply rewriteChart_frame. Qed.

(** X16.  The manifest is opened with [O_TRUNC] before the chart is
    marshalled: when marshalling fails, the error comes back wrapped and
    the file is left empty. *)
Theorem rewriteChart_encode_failure
    (Decode : string -> error + Object) (Encode : HelmChart -> error + string)
    (DefaultJobImage : string) (fileName : string) (info : FileInfo)
    (dataDir systemDefaultRegistry : string) (w : World)
    (q : path) (chart : HelmChart) (e : error) :
  target w fileName = Some q ->
  Decode (default "" (data w !! q)) = inr (ObjHelmChart chart) ->
  snd (patchChart DefaultJobImage chart dataDir systemDefaultRegistry) = true ->
  Encode (fst (patchChart DefaultJobImage chart dataDir systemDefaultRegistry)) = inl e ->
  let '(err, w') := rewriteChart Decode Encode DefaultJobImage fileName info dataDir
                      systemDefaultRegistry w in
  err = Some (ErrWrap e ("Failed to serialize modified HelmChart " +:+ fileName))
  /\ data w' !! q = Some "".
Proof.
  unfold target. intros Ht Hdec Hch Henc.
  unfold rewriteChart, os.ReadFile, os.fs_readfile.
  unfold mbind, mret, ST_bind, ST_ret, os.sys, os.emit, os.get, os.put,
    logrus.Debugf, logrus.Infof, logrus.log, os.emit. simpl.
  destruct (os.stat (tree w) (os.resolve fileName)) as [e0|[q0 [m|m|tg]]] eqn:Hstat;
    try discriminate.
  injection Ht as ->. simpl. rewrite Hdec.
  destruct (patchChart DefaultJobImage chart dataDir systemDefaultRegistry)
    as [chart0 changed]. simpl in Hch, Henc. subst changed. simpl.
  unfold os.OpenFile, os.fs_open_trunc, os.Write, os.Close.
  unfold mbind, mret, ST_bind, ST_ret, os.sys, os.emit, os.get, os.put. simpl.
  rewrite Hstat. simpl. rewrite Henc. simpl.
  split; [reflexivity | apply lookup_insert_eq].
Qed.

Lemma rewriteChart_encode_failure_witness :
  let '(err, w') :=
    rewriteChart Examples.Decode (fun _ => inl (ErrNew "json: unsupported value"))
      Examples.jobImage "/var/lib/rancher/rke2/server/manifests/rke2-canal.yaml"
      {| Name := "rke2-canal.yaml"; IsDir := false; Mode := 420 |}
      Examples.dataDir "" Examples.placed in
  err = Some (ErrWrap (ErrNew "json: unsupported value")
                ("Failed to serialize modified HelmChart " +:+
                 "/var/lib/rancher/rke2/server/manifests/rke2-canal.yaml"))
  /\ data w' !! ["var"; "lib"; "rancher"; "rke2"; "server"; "manifests"; "rke2-canal.yaml"]
     = Some "".
Proof.
  apply (rewriteChart_encode_failure Examples.Decode
           (fun _ => inl (ErrNew "json: unsupported value")) Examples.jobImage
           "/var/lib/rancher/rke2/server/manifests/rke2-canal.yaml"
           {| Name := "rke2-canal.yaml"; IsDir := false; Mode := 420 |}
           Examples.dataDir "" Examples.placed
           ["var"; "lib"; "rancher"; "rke2"; "server"; "manifests"; "rke2-canal.yaml"]
           Examples.canal (ErrNew "json: unsupported value"));
    vm_compute; reflexivity.
Defined.

(** X17.  [setChartValues] leaves the tree as it is, and changes the bytes
    of no file but those a visited name ending in [.yml] or [.yaml] leads
    to. *)
Theorem setChartValues_frame
    (range : forall V : Type, gmap string V -> list (string * V))
    (Decode : string -> error + Object) (Encode : HelmChart -> error + string)
    (DefaultJobImage : string) (dataDir systemDefaultRegistry : string) (w : World) :
  (forall V (m : gmap string V), range V m ≡ₚ map_to_list m) ->
  let w' := snd (setChartValues range Decode Encode DefaultJobImage dataDir
                   systemDefaultRegistry w) in
  tree w' = tree w
  /\ forall q, data w' !! q <> data w !! q ->
       exists p, target w p = Some q
                 /\ (GoStrings.HasSuffix p ".yml" = true \/ GoStrings.HasSuffix p ".yaml" = true).
Proof.
  intros Hrange. unfold setChartValues. rewrite run_bind, Walk_eq.
  destruct (os.fs_walk (tree w) (manifestsDir dataDir)) as [e|visited]; simpl.
  { split; [reflexivity | intros q H; done]. }
  rewrite run_bind.
  match goal with
  | |- context [rewrite_files _ _ _ _ _ _ _ ?x] => set (w0 := x)
  end.
  pose proof (rewrite_files_frame Decode Encode DefaultJobImage dataDir systemDefaultRegistry
                (range _ (collect_manifests visited)) [] w0) as [Ht Hd].
  destruct (rewrite_files _ _ _ _ _ _ _ w0) as [errs w1]. simpl in *.
  split; [exact Ht|]. intros q Hq.
  destruct (Hd q Hq) as (p & info & Hin & Hp).
  exists p. split; [exact Hp|].
  rewrite Hrange in Hin. apply elem_of_map_to_list in Hin.
  assert (Hsome : is_Some (collect_manifests visited !! p)) by eauto.
  apply collect_manifests_fold in Hsome as [Hempty|(i & _ & _ & Hsuf)]; [|exact Hsuf].
  rewrite lookup_empty in Hempty. by destruct Hempty.
Qed.

Lemma setChartValues_frame_witness :
  let w' := snd (setChartValues Examples.in_order Examples.Decode Examples.Encode
                   Examples.jobImage Examples.dataDir "" Examples.placed) in
  tree w' = tree Examples.placed
  /\ forall q, data w' !! q <> data Examples.placed !! q ->
       exists p, target Examples.placed p = Some q
                 /\ (GoStrings.HasSuffix p ".yml" = true \/ GoStrings.HasSuffix p ".yaml" = true).
Proof. apply setChartValues_frame. intros V m. reflexivity. Defined.

(** X18.  The walk of the manifests directory keeps exactly the names
    that end in [.yml] or [.yaml], in lower case, and were visited as
    something other than a directory. *)
Theorem collect_manifests_domain (visited : list (string * FileInfo)) (p : string) :
  is_Some (collect_manifests visited !! p)
  <-> exists info, (p, info) ∈ visited /\ IsDir info = false
        /\ (GoStrings.HasSuffix p ".yml" = true \/ GoStrings.HasSuffix p ".yaml" = true).
Proof.
  unfold collect_manifests. rewrite collect_manifests_fold, lookup_empty.
  split; [intros [H|H]; [by destruct H | exact H] | auto].
Qed.

(** ** Modes of the extracted files *)

Section Modes.
Variable mask : N.

Lemma new_files_within_refl w : new_files_within mask w w.
Proof. intros p m H. by left. Qed.

Lemma new_files_within_trans w1 w2 w3 :
  new_files_within mask w1 w2 -> new_files_within mask w2 w3 -> new_files_within mask w1 w3.
Proof.
  intros H12 H23 p m H. destruct (H23 p m H) as [H2|H2]; [|by right]. exact (H12 p m H2).
Qed.

Lemma within_ret {A} (a : A) : within mask (mret a).
Proof. intros w. apply new_files_within_refl. Qed.

Lemma within_bind {A B} (m : M A) (f : A -> M B) :
  within mask m -> (forall a, within mask (f a)) -> within mask (m ≫= f).
Proof.
  intros Hm Hf w. rewrite run_bind. specialize (Hm w).
  destruct (m w) as [a w1]. simpl in *.
  eapply new_files_within_trans; [exact Hm | apply Hf].
Qed.

Lemma within_tree {A} (m : M A) : keeps tree m -> within mask m.
Proof. intros H w p q Hp. left. rewrite <- (H w). exact Hp. Qed.

Lemma tree_emit ev : keeps tree (os.emit ev).
Proof. intros w. reflexivity. Qed.
Lemma tree_Stat n : keeps tree (os.Stat n).
Proof. intros w. rewrite Stat_eq. destruct (os.stat _ _) as [|[]]; reflexivity. Qed.
Lemma tree_Write f b : keeps tree (os.Write f b).
Proof. intros w. reflexivity. Qed.
Lemma tree_Close f : keeps tree (os.Close f).
Proof. intros w. reflexivity. Qed.

Lemma mkdirall_from_files rest mode : forall (t : gmap path Inode) cur t',
  os.mkdirall_from t cur rest mode = inr t' ->
  forall p m, t' !! p = Some (IFile m) -> t !! p = Some (IFile m).
Proof.
  induction rest as [|c rest IH]; intros t cur t'; simpl.
  { intros [= <-]. auto. }
  destruct (t !! (cur ++ [c])) as [[| |]|] eqn:Hc; try discriminate.
  - apply IH.
  - intros H p m Hp. pose proof (IH _ _ _ H p m Hp) as Hins.
    destruct (decide (cur ++ [c] = p)) as [<-|Hne].
    + rewrite lookup_insert_eq in Hins. discriminate.
    + rewrite lookup_insert_ne in Hins by done. exact Hins.
Qed.

Lemma within_MkdirAll n mode : within mask (os.MkdirAll n mode).
Proof.
  intros w p m. unfold os.MkdirAll, mbind, mret, ST_bind, ST_ret, os.sys, os.emit,
    os.get, os.put. simpl.
  destruct (os.fs_MkdirAll (tree w) n mode) as [[q e]|t'] eqn:Hmk; simpl; [by left|].
  intros Hp. left. unfold os.fs_MkdirAll in Hmk.
  destruct (os.stat (tree w) (os.resolve n)) as [e|[q [| |]]]; try discriminate.
  - eapply mkdirall_from_files; eauto.
  - injection Hmk as <-. exact Hp.
Qed.

Lemma within_OpenFile n mode : within mask (os.OpenFile true n (N.land mode mask)).
Proof.
  intros w p m. unfold os.OpenFile, mbind, mret, ST_bind, ST_ret, os.sys, os.emit,
    os.get, os.put. simpl.
  destruct (os.fs_open_trunc _ true n _) as [e|[[q t'] d']] eqn:Hop; simpl; [by left|].
  unfold os.fs_open_trunc in Hop. simpl in Hop.
  destruct (os.stat (tree w) (os.resolve n)) as [e|[q0 [| |]]]; try discriminate.
  - destruct e; try discriminate. destruct (decide (n = "")); [discriminate|].
    destruct (os.lstat (tree w) (removelast (os.resolve n))) as [|[| |]]; try discriminate;
      destruct (tree w !! os.resolve n); try discriminate.
    injection Hop as <- <- <-. intros Hp.
    destruct (decide (os.resolve n = p)) as [<-|Hne].
    + rewrite lookup_insert_eq in Hp. injection Hp as <-. right.
      rewrite <- N.land_assoc, N.land_diag. reflexivity.
    + rewrite lookup_insert_ne in Hp by done. by left.
  - injection Hop as <- <- <-. by left.
Qed.

Lemma within_emit ev : within mask (os.emit ev).
Proof. apply within_tree, tree_emit. Qed.
Lemma within_log l msg : within mask (logrus.log l msg).
Proof. apply within_emit. Qed.
Lemma within_Stat n : within mask (os.Stat n).
Proof. apply within_tree, tree_Stat. Qed.
Lemma within_Write f b : within mask (os.Write f b).
Proof. apply within_tree, tree_Write. Qed.
Lemma within_Close f : within mask (os.Close f).
Proof. apply within_tree, tree_Close. Qed.

End Modes.

Create HintDb within.
#[export] Hint Resolve within_emit within_log within_Stat within_Write within_Close
  within_MkdirAll within_OpenFile : within.

Ltac within_step :=
  match goal with
  | |- within _ (mret _) => apply within_ret
  | |- within _ (_ ≫= _) => apply within_bind; [|intros ?]
  | |- within _ (match ?x with _ => _ end) => destruct x
  | |- within _ (let '(_, _) := ?x in _) => destruct x
  | |- within _ _ => solve [eauto with within]
  end.

Lemma within_extract_loop targetDir dirs t : forall last,
  within perm_0755 (extract_loop targetDir dirs t last).
Proof.
  induction t as [|[h body] t IH]; intros last; simpl; [apply within_ret|].
  unfold logrus.Infof. repeat within_step.
Qed.

(** X19.  [extract] masks the mode of every file it creates with 0755:
    after it, a regular file is either one that was there before, with
    the mode it had, or has no mode bit outside 0755, whatever the modes
    in the image. *)
Theorem extract_masks_modes (targetDir : string) (dirs : gmap string string)
    (reader : Image) (w : World) :
  new_files_within perm_0755 w (snd (extract targetDir dirs reader w)).
Proof.
  revert w. change (within perm_0755 (extract targetDir dirs reader)).
  unfold extract. repeat within_step. apply within_extract_loop.
Qed.

(** ** What [Stage] pulls and what it returns *)

Section Adds.
Variable P : Event -> Prop.
Hypothesis P_other : forall ev, is_pull ev = false -> P ev.

Lemma adds_ret {A} (a : A) : adds P (mret a).
Proof. intros w. exists []. split; [symmetry; apply app_nil_r | constructor]. Qed.

Lemma adds_bind {A B} (m : M A) (f : A -> M B) :
  adds P m -> (forall a, adds P (f a)) -> adds P (m ≫= f).
Proof.
  intros Hm Hf w. rewrite run_bind. destruct (Hm w) as (evs1 & H1 & F1).
  destruct (m w) as [a w1]. simpl in *.
  destruct (Hf a w1) as (evs2 & H2 & F2). exists (evs1 ++ evs2).
  rewrite H2, H1, app_assoc. split; [reflexivity | by apply Forall_app].
Qed.

Lemma adds_still {A} (m : M A) : keeps trace m -> adds P m.
Proof.
  intros H w. exists []. rewrite H. split; [symmetry; apply app_nil_r | constructor].
Qed.

Lemma adds_get : adds P os.get.
Proof. apply adds_still. intros w. reflexivity. Qed.
Lemma adds_put t d : adds P (os.put t d).
Proof. apply adds_still. intros w. reflexivity. Qed.
Lemma adds_nextRandom : adds P os.nextRandom.
Proof. apply adds_still. intros w. reflexivity. Qed.

Lemma adds_emit ev : P ev -> adds P (os.emit ev).
Proof. intros H w. exists [ev]. split; [reflexivity | by constructor]. Qed.
Lemma adds_sys c n : adds P (os.sys c n).
Proof. apply adds_emit, P_other. reflexivity. Qed.
Lemma adds_log l msg : adds P (logrus.log l msg).
Proof. apply adds_emit, P_other. reflexivity. Qed.

End Adds.

Create HintDb adds.
#[export] Hint Resolve adds_get adds_put adds_nextRandom adds_sys adds_log : adds.

Ltac adds_step :=
  match goal with
  | |- adds _ (mret _) => apply adds_ret
  | |- adds _ (_ ≫= _) => apply adds_bind; [|intros ?]
  | |- adds _ (match ?x with _ => _ end) => destruct x
  | |- adds _ (let '(_, _) := ?x in _) => destruct x
  | |- adds _ _ => solve [eauto with adds]
  end.

Ltac adds_auto := repeat adds_step.

Section AddsCalls.
Variable P : Event -> Prop.
Hypothesis P_other : forall ev, is_pull ev = false -> P ev.

Lemma adds_Stat n : adds P (os.Stat n).
Proof. unfold os.Stat. adds_auto. Qed.
Lemma adds_Mkdir n m : adds P (os.Mkdir n m).
Proof. unfold os.Mkdir. adds_auto. Qed.
Lemma adds_MkdirAll n m : adds P (os.MkdirAll n m).
Proof. unfold os.MkdirAll. adds_auto. Qed.
Lemma adds_Rename a b : adds P (os.Rename a b).
Proof. unfold os.Rename. adds_auto. Qed.
Lemma adds_RemoveAll n : adds P (os.RemoveAll n).
Proof. unfold os.RemoveAll. adds_auto. Qed.
Lemma adds_Symlink a b : adds P (os.Symlink a b).
Proof. unfold os.Symlink. adds_auto. Qed.
Lemma adds_Chmod n m : adds P (os.Chmod n m).
Proof. unfold os.Chmod. adds_auto. Qed.
Lemma adds_OpenFile c n m : adds P (os.OpenFile c n m).
Proof. unfold os.OpenFile. adds_auto. Qed.
Lemma adds_Write f b : adds P (os.Write f b).
Proof. unfold os.Write. adds_auto. Qed.
Lemma adds_Close f : adds P (os.Close f).
Proof. unfold os.Close. adds_auto. Qed.
Lemma adds_ReadFile n : adds P (os.ReadFile n).
Proof. unfold os.ReadFile. adds_auto. Qed.
Lemma adds_ReadDir n : adds P (os.ReadDir n).
Proof. unfold os.ReadDir. adds_auto. Qed.
Lemma adds_Walk n : adds P (os.Walk n).
Proof. unfold os.Walk. adds_auto. Qed.

Hint Resolve adds_Stat adds_Mkdir adds_MkdirAll adds_Rename adds_RemoveAll adds_Symlink
  adds_Chmod adds_OpenFile adds_Write adds_Close adds_ReadFile adds_ReadDir adds_Walk : adds.

Lemma adds_TempDir dir pre suf : adds P (os.TempDir dir pre suf).
Proof.
  unfold os.TempDir. generalize 10000%nat. intros tries.
  induction tries as [|tries IH]; simpl; adds_auto.
Qed.
Hint Resolve adds_TempDir : adds.

Variable range : forall V : Type, gmap string V -> list (string * V).
Variable tarball_parse : Opener -> string -> name.Reference -> error + Image.
Variable Decode : string -> error + Object.
Variable Encode : HelmChart -> error + string.
Variable DefaultJobImage : string.

Lemma adds_extract targetDir dirs reader : adds P (extract targetDir dirs reader).
Proof.
  unfold extract. adds_auto. generalize (stream_end reader).
  induction (entries reader) as [|[h body] t IH]; intros last; simpl;
    unfold logrus.Infof; adds_auto.
Qed.

Lemma adds_place_files tempSource dest files : forall errs,
  adds P (place_files tempSource dest files errs).
Proof. induction files as [|file files IH]; intros errs; simpl; adds_auto. Qed.
Hint Resolve adds_extract adds_place_files : adds.

Lemma adds_place_loop tempDir plan : forall errs, adds P (place_loop tempDir plan errs).
Proof.
  induction plan as [|[source dest] plan IH]; intros errs; simpl;
    unfold place_dir, logrus.Debugf; adds_auto.
Qed.
Hint Resolve adds_place_loop : adds.

Lemma adds_extractToDirs img dataDir dirs : adds P (extractToDirs range img dataDir dirs).
Proof. unfold extractToDirs. adds_auto. Qed.

Lemma adds_rewrite_files files dataDir reg : forall errs,
  adds P (rewrite_files Decode Encode DefaultJobImage files dataDir reg errs).
Proof.
  induction files as [|[f info] files IH]; intros errs; simpl;
    unfold rewriteChart, logrus.Debugf, logrus.Infof; adds_auto.
Qed.
Hint Resolve adds_extractToDirs adds_rewrite_files : adds.

Lemma adds_setChartValues dataDir reg :
  adds P (setChartValues range Decode Encode DefaultJobImage dataDir reg).
Proof. unfold setChartValues. adds_auto. Qed.
Hint Resolve adds_setChartValues : adds.

Lemma adds_stageImage dataDir resolver ref refBinDir img :
  adds P (stageImage range Decode Encode DefaultJobImage dataDir resolver ref refBinDir img).
Proof.
  unfold stageImage, stageWith, extractPaths, dirExists, logrus.Infof. adds_auto.
Qed.

Lemma adds_scan_files tag dir fs : adds P (scan_files tarball_parse tag dir fs).
Proof.
  induction fs as [|f fs IH]; simpl;
    unfold preloadFile, tarball_Image, logrus.Debugf, logrus.Infof; adds_auto.
Qed.
Hint Resolve adds_scan_files : adds.

Lemma adds_preloadBootstrapFromRuntime dataDir resolver :
  adds P (preloadBootstrapFromRuntime range tarball_parse dataDir resolver).
Proof.
  unfold preloadBootstrapFromRuntime.
  match goal with |- adds _ (preload_refs _ _ _ ?refs) => generalize refs end.
  intros refs. induction refs as [|r refs IH]; simpl;
    unfold preloadBootstrapImage, logrus.Debugf, logrus.Errorf; adds_auto.
Qed.

End AddsCalls.

Section StageMore.
Variable range : forall V : Type, gmap string V -> list (string * V).
Variable Registries : Type.
Variable tarball_parse : Opener -> string -> name.Reference -> error + Image.
Variable remote_Image : name.Reference -> Registries -> error + Image.
Variable getPrivateRegistries : string -> World -> error + Registries.
Variable Decode : string -> error + Object.
Variable Encode : HelmChart -> error + string.
Variable DefaultJobImage : string.

Lemma ends_error d e : ends d (mret ("", Some e)).
Proof. intros w. simpl. split; [reflexivity | discriminate]. Qed.

Lemma ends_ok d : ends d (mret (d, None)).
Proof. intros w. simpl. split; [intros H; by destruct H | reflexivity]. Qed.

Lemma ends_bind {A} d (m : M A) f : (forall a, ends d (f a)) -> ends d (m ≫= f).
Proof. intros Hf w. rewrite run_bind. destruct (m w) as [a w1]. apply Hf. Qed.

Lemma ends_stageImage dataDir resolver ref refBinDir img :
  ends refBinDir
    (stageImage range Decode Encode DefaultJobImage dataDir resolver ref refBinDir img).
Proof.
  unfold stageImage, stageWith.
  repeat first [ apply ends_error | apply ends_ok
               | apply ends_bind; intros ?
               | match goal with |- ends _ (match ?x with _ => _ end) => destruct x end ].
Qed.

Lemma adds_pullImage pr ref :
  adds (fun ev => is_pull ev = true -> ev = EvPull (name.Name ref))
       (pullImage Registries remote_Image getPrivateRegistries pr ref).
Proof.
  assert (Hother : forall ev, is_pull ev = false ->
            is_pull ev = true -> ev = EvPull (name.Name ref)) by (intros ev ->; discriminate).
  unfold pullImage, logrus.Infof. adds_auto. apply adds_emit. reflexivity.
Qed.

End StageMore.

(** X20.  When the lookup in the archives of the node finds the runtime
    image, [Stage] pulls nothing: no event it adds to the trace is a
    pull. *)
Theorem Stage_found_no_pull
    (range : forall V : Type, gmap string V -> list (string * V)) (Registries : Type)
    (tarball_parse : Opener -> string -> name.Reference -> error + Image)
    (remote_Image : name.Reference -> Registries -> error + Image)
    (getPrivateRegistries : string -> World -> error + Registries)
    (Decode : string -> error + Object) (Encode : HelmChart -> error + string)
    (DefaultJobImage dataDir privateRegistry : string) (resolver : Resolver)
    (w : World) (img : Image) :
  fst (fst (preloadBootstrapFromRuntime range tarball_parse dataDir resolver w)) = Some img ->
  exists evs,
    trace (snd (Stage range Registries tarball_parse remote_Image getPrivateRegistries
                  Decode Encode DefaultJobImage dataDir privateRegistry resolver w))
    = trace w ++ evs
    /\ Forall (fun ev => is_pull ev = false) evs.
Proof.
  intros Hfound. unfold Stage.
  destruct (releaseRefDigest (MustGetReference resolver None)) as [refDigest [e|]].
  { exists []. split; [symmetry; apply app_nil_r | constructor]. }
  rewrite run_bind.
  destruct (adds_preloadBootstrapFromRuntime (fun ev => is_pull ev = false) (fun _ H => H)
              range tarball_parse dataDir resolver w) as (evs1 & H1 & F1).
  destruct (preloadBootstrapFromRuntime range tarball_parse dataDir resolver w)
    as [[found err] w1]. simpl in Hfound, H1. subst found.
  destruct err as [e|]; [exists evs1; by split|].
  rewrite run_bind. simpl.
  match goal with
  | |- context [stageImage _ _ _ _ _ ?res ?ref ?dir ?i w1] =>
      destruct (adds_stageImage (fun ev => is_pull ev = false) (fun _ H => H)
                  range Decode Encode DefaultJobImage dataDir res ref dir i w1)
        as (evs2 & H2 & F2)
  end.
  exists (evs1 ++ evs2). rewrite H2, H1, app_assoc.
  split; [reflexivity | by apply Forall_app].
Qed.

Lemma Stage_found_no_pull_witness :
  exists evs,
    trace (snd (Stage Examples.in_order unit Examples.parse Examples.pull
                  Examples.no_registries Examples.Decode Examples.Encode Examples.jobImage
                  Examples.dataDir "/etc/rancher/rke2/registries.yaml" Examples.resolver
                  Examples.airgap))
    = trace Examples.airgap ++ evs
    /\ Forall (fun ev => is_pull ev = false) evs.
Proof.
  apply (Stage_found_no_pull Examples.in_order unit Examples.parse Examples.pull
           Examples.no_registries Examples.Decode Examples.Encode Examples.jobImage
           Examples.dataDir "/etc/rancher/rke2/registries.yaml" Examples.resolver
           Examples.airgap Examples.runtime_image).
  vm_compute. reflexivity.
Defined.

(** X21.  Whatever [Stage] pulls is the runtime image under the
    resolver's own registry: every pull among the events it adds to the
    trace names that reference. *)
Theorem Stage_pulls_only_runtime
    (range : forall V : Type, gmap string V -> list (string * V)) (Registries : Type)
    (tarball_parse : Opener -> string -> name.Reference -> error + Image)
    (remote_Image : name.Reference -> Registries -> error + Image)
    (getPrivateRegistries : string -> World -> error + Registries)
    (Decode : string -> error + Object) (Encode : HelmChart -> error + string)
    (DefaultJobImage dataDir privateRegistry : string) (resolver : Resolver) :
  adds (fun ev => is_pull ev = true ->
                  ev = EvPull (name.Name (MustGetReference resolver None)))
       (Stage range Registries tarball_parse remote_Image getPrivateRegistries
          Decode Encode DefaultJobImage dataDir privateRegistry resolver).
Proof.
  assert (Hother : forall ev, is_pull ev = false -> is_pull ev = true ->
            ev = EvPull (name.Name (MustGetReference resolver None)))
    by (intros ev ->; discriminate).
  unfold Stage.
  destruct (releaseRefDigest (MustGetReference resolver None)) as [refDigest [e|]];
    [apply adds_ret|].
  apply adds_bind; [by apply adds_preloadBootstrapFromRuntime|].
  intros [img [e|]]; [apply adds_ret|].
  apply adds_bind.
  - destruct img; [apply adds_ret | apply adds_pullImage].
  - intros [e|i]; [apply adds_ret | by apply adds_stageImage].
Qed.

(** X22.  [Stage] returns the empty path with every error, and without an
    error the bin directory named after the reference, under
    [<dataDir>/data]. *)
Theorem Stage_returns
    (range : forall V : Type, gmap string V -> list (string * V)) (Registries : Type)
    (tarball_parse : Opener -> string -> name.Reference -> error + Image)
    (remote_Image : name.Reference -> Registries -> error + Image)
    (getPrivateRegistries : string -> World -> error + Registries)
    (Decode : string -> error + Object) (Encode : HelmChart -> error + string)
    (DefaultJobImage dataDir privateRegistry : string) (resolver : Resolver) (w : World) :
  let '((path, err), _) :=
    Stage range Registries tarball_parse remote_Image getPrivateRegistries
      Decode Encode DefaultJobImage dataDir privateRegistry resolver w in
  (err <> None -> path = "")
  /\ (err = None ->
      path = binDirForDigest dataDir (fst (releaseRefDigest (MustGetReference resolver None)))).
Proof.
  set (d := binDirForDigest dataDir (fst (releaseRefDigest (MustGetReference resolver None)))).
  assert (H : ends d (Stage range Registries tarball_parse remote_Image getPrivateRegistries
                        Decode Encode DefaultJobImage dataDir privateRegistry resolver)).
  { unfold Stage. subst d.
    destruct (releaseRefDigest (MustGetReference resolver None)) as [refDigest [e|]];
      [apply ends_error|]. simpl.
    apply ends_bind. intros [img [e|]]; [apply ends_error|].
    apply ends_bind. intros [e|i]; [apply ends_error | apply ends_stageImage]. }
  specialize (H w).
  destruct (Stage _ _ _ _ _ _ _ _ _ _ _ w) as [[path err] w']. exact H.
Qed.

(** ** The plan of [Stage], and a second run *)

Lemma bind_ext {A B} (m : M A) (f g : A -> M B) (w : World) :
  (forall a w', f a w' = g a w') -> (m ≫= f) w = (m ≫= g) w.
Proof. intros H. rewrite !run_bind. destruct (m w). apply H. Qed.

Lemma bind_ext_l {A B} (m m' : M A) (f : A -> M B) (w : World) :
  m w = m' w -> (m ≫= f) w = (m' ≫= f) w.
Proof. intros H. rewrite !run_bind, H. reflexivity. Qed.

Lemma run_bind_inv {A B} (m : M A) (f : A -> M B) (w : World) r w' :
  (m ≫= f) w = (r, w') -> exists a w1, m w = (a, w1) /\ f a w1 = (r, w').
Proof. rewrite run_bind. destruct (m w) as [a w1]. eauto. Qed.

(** The trace only grows. *)
Lemma grown_refl w : grown w w.
Proof. exists []. symmetry. apply app_nil_r. Qed.

Lemma grown_trans w1 w2 w3 : grown w1 w2 -> grown w2 w3 -> grown w1 w3.
Proof. intros [e1 H1] [e2 H2]. exists (e1 ++ e2). rewrite H2, H1, app_assoc. reflexivity. Qed.

Lemma grown_run {A} (m : M A) (w : World) a w1 :
  adds (fun _ => True) m -> m w = (a, w1) -> grown w w1.
Proof.
  intros Hm Hrun. destruct (Hm w) as (evs & Htr & _).
  rewrite Hrun in Htr. exists evs. exact Htr.
Qed.

Lemma added_later w w1 w2 ev : added w w1 ev -> grown w1 w2 -> added w w2 ev.
Proof.
  intros (e1 & H1 & Hin) [e2 H2]. exists (e1 ++ e2). rewrite H2, H1, app_assoc.
  split; [reflexivity|]. apply elem_of_app. by left.
Qed.

Lemma added_earlier w w1 w2 ev : grown w w1 -> added w1 w2 ev -> added w w2 ev.
Proof.
  intros [e1 H1] (e2 & H2 & Hin). exists (e1 ++ e2). rewrite H2, H1, app_assoc.
  split; [reflexivity|]. apply elem_of_app. by right.
Qed.

Section EverythingAdds.
Variable range : forall V : Type, gmap string V -> list (string * V).
Variable Decode : string -> error + Object.
Variable Encode : HelmChart -> error + string.
Variable DefaultJobImage : string.

Local Abbreviation any := (fun _ : Event => True).

Lemma any_log l msg : adds any (logrus.log l msg).
Proof. by apply adds_log. Qed.
Lemma any_Stat n : adds any (os.Stat n).
Proof. by apply adds_Stat. Qed.
Lemma any_MkdirAll n m : adds any (os.MkdirAll n m).
Proof. by apply adds_MkdirAll. Qed.
Lemma any_OpenFile c n m : adds any (os.OpenFile c n m).
Proof. by apply adds_OpenFile. Qed.
Lemma any_Write f b : adds any (os.Write f b).
Proof. by apply adds_Write. Qed.
Lemma any_Close f : adds any (os.Close f).
Proof. by apply adds_Close. Qed.
Lemma any_RemoveAll n : adds any (os.RemoveAll n).
Proof. by apply adds_RemoveAll. Qed.
Lemma any_Symlink a b : adds any (os.Symlink a b).
Proof. by apply adds_Symlink. Qed.
Lemma any_Chmod n m : adds any (os.Chmod n m).
Proof. by apply adds_Chmod. Qed.
Lemma any_TempDir d p s : adds any (os.TempDir d p s).
Proof. by apply adds_TempDir. Qed.
Lemma any_place_loop tempDir plan errs : adds any (place_loop tempDir plan errs).
Proof. by apply adds_place_loop. Qed.
Lemma any_extractPaths dataDir ref refBinDir : adds any (extractPaths dataDir ref refBinDir).
Proof.
  unfold extractPaths, dirExists, logrus.Infof.
  repeat first
    [ apply adds_ret | apply any_log | apply any_Stat
    | apply adds_bind; [|intros ?]
    | match goal with |- adds _ (match ?x with _ => _ end) => destruct x end
    | match goal with |- adds _ (if ?x then _ else _) => destruct x end ].
Qed.
Lemma any_setChartValues dataDir reg :
  adds any (setChartValues range Decode Encode DefaultJobImage dataDir reg).
Proof. by apply adds_setChartValues. Qed.

Lemma any_extract_loop targetDir dirs t : forall last,
  adds any (extract_loop targetDir dirs t last).
Proof.
  induction t as [|[h body] t IH]; intros last; simpl; [apply adds_ret|].
  unfold logrus.Infof.
  repeat first
    [ apply adds_ret | apply IH | apply any_log | apply any_Stat | apply any_MkdirAll
    | apply any_OpenFile | apply any_Write | apply any_Close
    | apply adds_bind; [|intros ?]
    | match goal with |- adds _ (match ?x with _ => _ end) => destruct x end ].
Qed.

End EverythingAdds.

(** One step of a run: name its result and the world after it, and keep
    that the trace has grown. *)
Ltac step H Hadds :=
  let a := fresh "a" in
  let w1 := fresh "w" in
  let Hs := fresh "Hs" in
  let Hg := fresh "Hg" in
  apply run_bind_inv in H as (a & w1 & Hs & H);
  pose proof (grown_run _ _ _ _ Hadds Hs) as Hg.

(** The trace has grown from one world of the context to another. *)
Ltac grow :=
  repeat first [ eassumption | apply grown_refl | eapply grown_trans; [eassumption|] ].

Section RerunFacts.
Variable range : forall V : Type, gmap string V -> list (string * V).
Variable Registries : Type.
Variable tarball_parse : Opener -> string -> name.Reference -> error + Image.
Variable remote_Image : name.Reference -> Registries -> error + Image.
Variable getPrivateRegistries : string -> World -> error + Registries.
Variable Decode : string -> error + Object.
Variable Encode : HelmChart -> error + string.
Variable DefaultJobImage : string.

Local Abbreviation parse' := (fun o b t => under_charts (tarball_parse o b t)).
Local Abbreviation pull' := (fun r (regs : Registries) => under_charts (remote_Image r regs)).
Local Abbreviation lift r := ((charts_only <$> fst (fst r), snd (fst r)), snd r).

(** *** The lookup and the pull hand on what the archive or the registry
    gives *)

Lemma preloadFile_charts tag f w :
  preloadFile parse' tag f w = lift (preloadFile tarball_parse tag f w).
Proof.
  unfold preloadFile. destruct (selectOpener f); try reflexivity.
  rewrite !run_bind, !tarball_Image_eq.
  destruct (os.fs_readfile w f) as [e|s]; simpl; [reflexivity|].
  destruct (tarball_parse o s tag); reflexivity.
Qed.

Lemma scan_files_charts tag dir fs : forall w,
  scan_files parse' tag dir fs w = lift (scan_files tarball_parse tag dir fs w).
Proof.
  induction fs as [|f fs IH]; intros w; simpl; [reflexivity|].
  rewrite !run_bind, preloadFile_charts.
  destruct (preloadFile tarball_parse tag f w) as [[[i|] err] w1]; simpl; [reflexivity|].
  rewrite !run_bind. destruct err; simpl; apply IH.
Qed.

Lemma preloadBootstrapImage_charts dataDir ref w :
  preloadBootstrapImage range parse' dataDir ref w
  = lift (preloadBootstrapImage range tarball_parse dataDir ref w).
Proof.
  unfold preloadBootstrapImage. destruct ref; [|reflexivity].
  rewrite !run_bind. destruct (os.Stat _ w) as [[i [e|]] w1]; cbv beta iota.
  { destruct (IsNotExist (Some e)); reflexivity. }
  rewrite !run_bind. destruct (os.Walk _ w1) as [[v [e|]] w2]; cbv beta iota; [reflexivity|].
  apply scan_files_charts.
Qed.

Lemma preload_refs_charts dataDir refs : forall w,
  preload_refs range parse' dataDir refs w
  = lift (preload_refs range tarball_parse dataDir refs w).
Proof.
  induction refs as [|r refs IH]; intros w; simpl; [reflexivity|].
  rewrite !run_bind, preloadBootstrapImage_charts.
  destruct (preloadBootstrapImage range tarball_parse dataDir r w) as [[[i|] err] w1];
    simpl; [reflexivity|].
  rewrite !run_bind. destruct err; simpl; apply IH.
Qed.

Lemma pullImage_charts pr ref w :
  pullImage Registries pull' getPrivateRegistries pr ref w
  = (under_charts (fst (pullImage Registries remote_Image getPrivateRegistries pr ref w)),
     snd (pullImage Registries remote_Image getPrivateRegistries pr ref w)).
Proof.
  unfold pullImage. rewrite !run_bind. simpl.
  destruct (getPrivateRegistries pr w) as [e|regs]; simpl; [reflexivity|].
  destruct (remote_Image ref regs); reflexivity.
Qed.

Lemma pullImage_disk pr ref w :
  disk (snd (pullImage Registries remote_Image getPrivateRegistries pr ref w)) = disk w.
Proof.
  unfold pullImage. rewrite !run_bind. simpl.
  destruct (getPrivateRegistries pr w) as [e|regs]; simpl; [reflexivity|].
  destruct (remote_Image ref regs); reflexivity.
Qed.

(** *** Extraction by a plan of [charts] alone *)

Lemma extract_loop_charts targetDir dest t : forall last w,
  extract_loop targetDir {[ "charts" := dest ]} t last w
  = extract_loop targetDir {[ "charts" := dest ]}
      (filter (fun e => filepath.Dir (tar.Name e.1) = "charts") t) last w.
Proof.
  induction t as [|[h body] t IH]; intros last w; [reflexivity|].
  rewrite filter_cons. simpl fst.
  destruct (decide (filepath.Dir (tar.Name h) = "charts")) as [Hd|Hd].
  - simpl. rewrite Hd, lookup_singleton_eq.
    destruct (tar.Typeflag h).
    + apply bind_ext. intros [] w1.
      apply bind_ext. intros [[f|] [e|]] w2; try reflexivity.
      apply bind_ext. intros [e|] w3; [reflexivity|].
      apply bind_ext. intros [e|] w4; [reflexivity | apply IH].
    + apply bind_ext. intros [i [e|]] w1; [|apply IH].
      apply bind_ext. intros [e'|] w2; [reflexivity | apply IH].
    + apply IH.
  - rewrite extract_loop_skip by (by rewrite lookup_singleton_ne). apply IH.
Qed.

Lemma extractToDirs_charts img dataDir dest w :
  extractToDirs range img dataDir {[ "charts" := dest ]} w
  = extractToDirs range (charts_only img) dataDir {[ "charts" := dest ]} w.
Proof.
  unfold extractToDirs. apply bind_ext. intros [tempDir [e|]] w1; [reflexivity|].
  apply bind_ext_l. apply bind_ext_l. unfold extract.
  apply bind_ext. intros [e|] w2; [reflexivity|]. apply extract_loop_charts.
Qed.

Lemma dirExists_disk dir w w' : disk w' = disk w -> fst (dirExists dir w') = fst (dirExists dir w).
Proof.
  unfold disk, dirExists. intros [= Ht _]. rewrite !run_bind, !Stat_eq, Ht.
  destruct (os.stat (tree w) (os.resolve dir)) as [e|[q n]]; reflexivity.
Qed.

Lemma extractPaths_plan dataDir ref refBinDir w :
  fst (extractPaths dataDir ref refBinDir w)
  = (if fst (dirExists refBinDir w) then {[ "charts" := manifestsDir dataDir ]}
     else <["bin" := refBinDir]> {[ "charts" := manifestsDir dataDir ]})
  /\ disk (snd (extractPaths dataDir ref refBinDir w)) = disk w.
Proof.
  unfold extractPaths. rewrite run_bind.
  assert (Hd : disk (snd (dirExists refBinDir w)) = disk w).
  { unfold dirExists. rewrite run_bind. pose proof (disk_Stat refBinDir w) as H.
    destruct (os.Stat refBinDir w) as [[i e] w0]. exact H. }
  destruct (dirExists refBinDir w) as [[] w0]; simpl in *; auto.
Qed.

Lemma stageImage_charts dataDir resolver ref refBinDir img w :
  fst (dirExists refBinDir w) = true ->
  stageImage range Decode Encode DefaultJobImage dataDir resolver ref refBinDir img w
  = stageImage range Decode Encode DefaultJobImage dataDir resolver ref refBinDir
      (charts_only img) w.
Proof.
  intros Hex. unfold stageImage. rewrite !run_bind.
  pose proof (extractPaths_plan dataDir ref refBinDir w) as [Hplan _].
  destruct (extractPaths dataDir ref refBinDir w) as [plan w1]. simpl in Hplan.
  rewrite Hex in Hplan. subst plan.
  unfold stageWith. apply bind_ext_l. apply extractToDirs_charts.
Qed.

(** *** A run that succeeds *)

Lemma any_pullImage pr ref :
  adds (fun _ => True) (pullImage Registries remote_Image getPrivateRegistries pr ref).
Proof.
  unfold pullImage, logrus.Infof.
  repeat first
    [ apply adds_ret | apply adds_get | apply any_log | apply adds_emit; exact I
    | apply adds_bind; [|intros ?]
    | match goal with |- adds _ (match ?x with _ => _ end) => destruct x end ].
Qed.

Lemma any_preloadBootstrapFromRuntime dataDir resolver :
  adds (fun _ => True) (preloadBootstrapFromRuntime range tarball_parse dataDir resolver).
Proof. by apply adds_preloadBootstrapFromRuntime. Qed.

Lemma disk_preloadBootstrapFromRuntime dataDir resolver :
  keeps disk (preloadBootstrapFromRuntime range tarball_parse dataDir resolver).
Proof. unfold preloadBootstrapFromRuntime. apply disk_preload_refs. Qed.

Lemma preloadBootstrapFromRuntime_charts dataDir resolver w :
  preloadBootstrapFromRuntime range parse' dataDir resolver w
  = lift (preloadBootstrapFromRuntime range tarball_parse dataDir resolver w).
Proof. unfold preloadBootstrapFromRuntime. apply preload_refs_charts. Qed.

(** Every file of the plan that [extract_loop] has passed is in the log
    of the run. *)
Lemma extract_loop_logs targetDir dirs t : forall last w w',
  extract_loop targetDir dirs t last w = (None, w') ->
  forall h body, (h, body) ∈ t -> tar.Typeflag h = tar.TypeReg ->
    is_Some (dirs !! filepath.Dir (tar.Name h)) ->
    added w w' (EvLog LInfo ("Extracting file " +:+ tar.Name h)).
Proof.
  induction t as [|[h0 body0] t IH]; intros last w w' H h body Hin Hreg Hplan.
  { inversion Hin. }
  assert (Htail : forall wk, grown w wk -> extract_loop targetDir dirs t last wk = (None, w') ->
            (h, body) ∈ t -> added w w' (EvLog LInfo ("Extracting file " +:+ tar.Name h))).
  { intros wk Hwk Hk Ht. eapply added_earlier; [exact Hwk|].
    exact (IH last wk w' Hk h body Ht Hreg Hplan). }
  apply elem_of_cons in Hin. simpl in H.
  destruct (tar.Typeflag h0) eqn:Hty; destruct (dirs !! filepath.Dir (tar.Name h0)) eqn:Hdir.
  - (* a file of the plan *)
    step H (any_log LInfo ("Extracting file " +:+ tar.Name h0)).
    assert (Hlog : added w w0 (EvLog LInfo ("Extracting file " +:+ tar.Name h0))).
    { replace w0 with (snd (logrus.Infof ("Extracting file " +:+ tar.Name h0) w))
        by (rewrite Hs; reflexivity).
      exists [EvLog LInfo ("Extracting file " +:+ tar.Name h0)].
      split; [reflexivity | by left]. }
    step H (any_OpenFile true (filepath.Join [targetDir; tar.Name h0])
              (N.land (tar.Mode h0) perm_0755)).
    destruct a0 as [[f|] [e|]]; try discriminate.
    step H (any_Write f body0). destruct a0 as [e|].
    { step H (any_Close f). discriminate. }
    step H (any_Close f). destruct a0 as [e|]; [discriminate|].
    destruct Hin as [[= -> ->]|Hin].
    + eapply added_later; [exact Hlog|].
      pose proof (grown_run _ _ _ _ (any_extract_loop targetDir dirs t last) H). grow.
    + refine (Htail _ _ H Hin); grow.
  - destruct Hin as [[= <- <-]|Hin]; [|apply (Htail _ (grown_refl w) H Hin)].
    rewrite Hdir in Hplan. by destruct Hplan.
  - (* a directory of the plan *)
    step H (any_Stat (filepath.Join [targetDir; tar.Name h0])).
    destruct Hin as [[= <- <-]|Hin]; [congruence|].
    destruct a as [i [e|]]; [|refine (Htail _ _ H Hin); grow].
    step H (any_MkdirAll (filepath.Join [targetDir; tar.Name h0]) perm_0755).
    destruct a as [e'|]; [discriminate | refine (Htail _ _ H Hin); grow].
  - destruct Hin as [[= <- <-]|Hin]; [congruence | apply (Htail _ (grown_refl w) H Hin)].
  - destruct Hin as [[= <- <-]|Hin]; [congruence | apply (Htail _ (grown_refl w) H Hin)].
  - destruct Hin as [[= <- <-]|Hin]; [congruence | apply (Htail _ (grown_refl w) H Hin)].
Qed.

Lemma extractToDirs_logs img dataDir plan w w' :
  extractToDirs range img dataDir plan w = (None, w') ->
  forall h body, (h, body) ∈ entries img -> tar.Typeflag h = tar.TypeReg ->
    is_Some (plan !! filepath.Dir (tar.Name h)) ->
    added w w' (EvLog LInfo ("Extracting file " +:+ tar.Name h)).
Proof.
  intros H h body Hin Hreg Hplan. unfold extractToDirs in H.
  step H (any_TempDir dataDir "runtime-" "").
  destruct a as [tempDir [e|]]; [discriminate|].
  apply run_bind_inv in H as (r & w2 & Hbody & H).
  step H (any_RemoveAll tempDir). injection H as -> <-.
  apply run_bind_inv in Hbody as ([e|] & w4 & Hext & Hbody); [discriminate|].
  pose proof (grown_run _ _ _ _ (any_place_loop tempDir (range _ plan) []) Hbody) as Hg4.
  unfold extract in Hext.
  step Hext (any_MkdirAll tempDir perm_0755). destruct a0 as [e|]; [discriminate|].
  eapply added_earlier; [|eapply added_later].
  - eapply grown_trans; [exact Hg | exact Hg1].
  - eapply extract_loop_logs; eauto.
  - eapply grown_trans; [exact Hg4 | exact Hg0].
Qed.

Section Settles.
Variables dataDir systemDefaultRegistry : string.
Hypothesis range_all : forall V (m : gmap string V), range V m ≡ₚ map_to_list m.
Hypothesis Decode_Encode :
  forall chart out, Encode chart = inr out -> Decode out = inr (ObjHelmChart chart).
Hypothesis Decode_empty : forall chart, Decode "" <> inr (ObjHelmChart chart).

(** After [setChartValues], whatever it returns, the manifests are settled. *)
Lemma setChartValues_settles w :
  manifests_settled Decode DefaultJobImage dataDir systemDefaultRegistry
    (snd (setChartValues range Decode Encode DefaultJobImage dataDir systemDefaultRegistry w)).
Proof.
  unfold setChartValues, manifests_settled. rewrite run_bind, Walk_eq.
  destruct (os.fs_walk (tree w) (manifestsDir dataDir)) as [e|visited] eqn:Hwalk; simpl.
  { intros visited p info Hw. rewrite Hwalk in Hw. discriminate. }
  rewrite run_bind.
  match goal with
  | |- context [rewrite_files _ _ _ _ _ _ _ ?x] => set (w0 := x)
  end.
  pose proof (rewrite_files_settles Decode Encode DefaultJobImage dataDir
                systemDefaultRegistry Decode_Encode Decode_empty
                (range _ (collect_manifests visited)) [] w0) as Hset.
  destruct (rewrite_files _ _ _ _ _ _ _ w0) as [errs w1]. simpl.
  destruct Hset as (Ht & _ & Hall).
  intros visited' p info Hw Hin Hdir Hsuf.
  rewrite Ht in Hw. change (tree w0) with (tree w) in Hw. rewrite Hwalk in Hw.
  injection Hw as <-.
  assert (Hsome : is_Some (collect_manifests visited !! p)).
  { unfold collect_manifests. apply collect_manifests_fold. right. eauto. }
  destruct Hsome as [info' Hinfo]. apply (Hall p info').
  rewrite range_all. apply elem_of_map_to_list. exact Hinfo.
Qed.

Lemma stageWith_success resolver refBinDir img plan w path w' :
  systemDefaultRegistry = Registry resolver ->
  stageWith range Decode Encode DefaultJobImage dataDir resolver refBinDir img plan w
  = ((path, None), w') ->
  (forall h body, (h, body) ∈ entries img -> tar.Typeflag h = tar.TypeReg ->
     is_Some (plan !! filepath.Dir (tar.Name h)) ->
     added w w' (EvLog LInfo ("Extracting file " +:+ tar.Name h)))
  /\ exists w4,
       w' = snd (os.Symlink refBinDir (symlinkBinDir dataDir)
                   (snd (os.RemoveAll (symlinkBinDir dataDir) w4)))
       /\ added w w4 (EvSys CWalk (manifestsDir dataDir))
       /\ manifests_settled Decode DefaultJobImage dataDir systemDefaultRegistry w4.
Proof.
  intros Hreg H. unfold stageWith in H.
  apply run_bind_inv in H as ([e|] & w2 & Hx & H); [discriminate|].
  step H (any_Chmod refBinDir perm_0755). destruct a as [e|]; [discriminate|].
  apply run_bind_inv in H as ([e|] & w4 & Hset & H); [discriminate|].
  pose proof (grown_run _ _ _ _
                (any_setChartValues range Decode Encode DefaultJobImage dataDir
                   (Registry resolver)) Hset) as Hg4.
  step H (any_RemoveAll (symlinkBinDir dataDir)).
  step H (any_Symlink refBinDir (symlinkBinDir dataDir)).
  injection H as _ <-. split.
  - intros h body Hin Hty Hplan. eapply added_later.
    + eapply extractToDirs_logs; eauto.
    + grow.
  - exists w4. split; [rewrite Hs0; simpl; rewrite Hs1; reflexivity|]. split.
    + eapply added_earlier; [eapply grown_trans; [|exact Hg]|].
      { eapply grown_run; [|exact Hx]. by apply adds_extractToDirs. }
      pose proof Hset as Hrun. unfold setChartValues in Hrun.
      apply run_bind_inv in Hrun as (v & wa & Hwalk & Hrun).
      rewrite Walk_eq in Hwalk. injection Hwalk as _ <-.
      apply (added_later _ (snd (os.sys CWalk (manifestsDir dataDir) w0))).
      * exists [EvSys CWalk (manifestsDir dataDir)]. split; [reflexivity | by left].
      * destruct v as [visited [e|]].
        -- injection Hrun as _ <-. apply grown_refl.
        -- apply run_bind_inv in Hrun as (errs & wb & Hrw & Hrun).
           injection Hrun as _ <-.
           eapply grown_run; [|exact Hrw]. by apply adds_rewrite_files.
    + rewrite Hreg. pose proof (setChartValues_settles w0) as Hs4.
      rewrite Hreg, Hset in Hs4. exact Hs4.
Qed.

End Settles.

End RerunFacts.

(** C3.  The plan of [Stage], on every run, from any world.  The plan
    sends [charts] to the manifests directory and has nothing but [charts]
    and [bin]; [bin] is in it, sent to the bin directory of the runtime
    image, exactly when that directory does not exist when [Stage] is
    called.  A run either ends with an error before there is an image,
    with the file system untouched, or it stages the image it found or
    pulled by that plan.  When such a run succeeds, every file of the
    image under [charts] was extracted in it, and [setChartValues] has
    walked the manifests directory and left every manifest in it settled
    before the link is made.  With the bin directory in place the run is,
    call for call, the run on the image stripped of everything outside
    [charts]: nothing under [bin] is extracted, while the charts are
    extracted and patched again. *)
Theorem Stage_extraction_plan
    (range : forall V : Type, gmap string V -> list (string * V))
    (Registries : Type)
    (tarball_parse : Opener -> string -> name.Reference -> error + Image)
    (remote_Image : name.Reference -> Registries -> error + Image)
    (getPrivateRegistries : string -> World -> error + Registries)
    (Decode : string -> error + Object) (Encode : HelmChart -> error + string)
    (DefaultJobImage : string)
    (dataDir privateRegistry : string) (resolver : Resolver) (w : World) :
  (forall V (m : gmap string V), range V m ≡ₚ map_to_list m) ->
  (forall chart out, Encode chart = inr out -> Decode out = inr (ObjHelmChart chart)) ->
  (forall chart, Decode "" <> inr (ObjHelmChart chart)) ->
  let ref := MustGetReference resolver None in
  let refBinDir := binDirForDigest dataDir (fst (releaseRefDigest ref)) in
  let charts : gmap string string := {[ "charts" := manifestsDir dataDir ]} in
  let plan := if fst (dirExists refBinDir w) then charts else <["bin" := refBinDir]> charts in
  let run := Stage range Registries tarball_parse remote_Image getPrivateRegistries
               Decode Encode DefaultJobImage dataDir privateRegistry resolver w in
  (plan !! "charts" = Some (manifestsDir dataDir)
   /\ (plan !! "bin" = Some refBinDir <-> fst (dirExists refBinDir w) = false)
   /\ dom plan ⊆ {[ "charts"; "bin" ]})
  /\ ((exists e w1, run = (("", Some e), w1) /\ disk w1 = disk w)
      \/ (exists img w1,
            disk w1 = disk w
            /\ run = stageWith range Decode Encode DefaultJobImage dataDir resolver
                       refBinDir img plan w1
            /\ forall path w', run = ((path, None), w') ->
                 (forall h body,
                    (h, body) ∈ entries img -> tar.Typeflag h = tar.TypeReg ->
                    filepath.Dir (tar.Name h) = "charts" ->
                    added w w' (EvLog LInfo ("Extracting file " +:+ tar.Name h)))
                 /\ exists w4,
                      w' = snd (os.Symlink refBinDir (symlinkBinDir dataDir)
                                  (snd (os.RemoveAll (symlinkBinDir dataDir) w4)))
                      /\ added w w4 (EvSys CWalk (manifestsDir dataDir))
                      /\ manifests_settled Decode DefaultJobImage dataDir
                           (Registry resolver) w4))
  /\ (fst (dirExists refBinDir w) = true ->
      run = Stage range Registries
              (fun o b t => under_charts (tarball_parse o b t))
              (fun r regs => under_charts (remote_Image r regs))
              getPrivateRegistries Decode Encode DefaultJobImage
              dataDir privateRegistry resolver w).
Proof.
  intros Hrange HDE HDempty ref refBinDir charts plan run.
  assert (Hcharts : forall ex : bool,
            is_Some ((if ex then charts else <["bin" := refBinDir]> charts) !! "charts")).
  { intros []; subst charts; [rewrite lookup_singleton_eq | rewrite lookup_insert_ne by done;
      rewrite lookup_singleton_eq]; eauto. }
  (* what staging by the plan gives, from a later world with the disk of [w] *)
  assert (Hstage : forall img w0, disk w0 = disk w -> grown w w0 ->
    exists w1,
      disk w1 = disk w
      /\ stageImage range Decode Encode DefaultJobImage dataDir resolver ref refBinDir img w0
         = stageWith range Decode Encode DefaultJobImage dataDir resolver refBinDir img plan w1
      /\ forall path w',
           stageImage range Decode Encode DefaultJobImage dataDir resolver ref refBinDir img w0
           = ((path, None), w') ->
           (forall h body,
              (h, body) ∈ entries img -> tar.Typeflag h = tar.TypeReg ->
              filepath.Dir (tar.Name h) = "charts" ->
              added w w' (EvLog LInfo ("Extracting file " +:+ tar.Name h)))
           /\ exists w4,
                w' = snd (os.Symlink refBinDir (symlinkBinDir dataDir)
                            (snd (os.RemoveAll (symlinkBinDir dataDir) w4)))
                /\ added w w4 (EvSys CWalk (manifestsDir dataDir))
                /\ manifests_settled Decode DefaultJobImage dataDir (Registry resolver) w4).
  { intros img w0 Hw0 Hg0.
    destruct (extractPaths_plan dataDir ref refBinDir w0) as [Hplan Hd].
    rewrite (dirExists_disk refBinDir w w0 Hw0) in Hplan. fold charts plan in Hplan.
    assert (Hg1 : grown w (snd (extractPaths dataDir ref refBinDir w0))).
    { eapply grown_trans; [exact Hg0|].
      eapply (grown_run (extractPaths dataDir ref refBinDir));
        [apply any_extractPaths | apply surjective_pairing]. }
    assert (Heq : stageImage range Decode Encode DefaultJobImage dataDir resolver ref
                    refBinDir img w0
                  = stageWith range Decode Encode DefaultJobImage dataDir resolver
                      refBinDir img plan (snd (extractPaths dataDir ref refBinDir w0))).
    { unfold stageImage. rewrite run_bind, <- Hplan.
      destruct (extractPaths dataDir ref refBinDir w0). reflexivity. }
    exists (snd (extractPaths dataDir ref refBinDir w0)).
    split; [congruence|]. split; [exact Heq|].
    intros path w' Hrun. rewrite Heq in Hrun.
    destruct (stageWith_success range Decode Encode DefaultJobImage dataDir
                (Registry resolver) Hrange HDE HDempty resolver refBinDir img plan _
                path w' eq_refl Hrun) as [Hlogs (w4 & Hw' & Hwalk & Hsettled)].
    split.
    - intros h body Hin Hty Hdir. eapply added_earlier; [exact Hg1|].
      apply (Hlogs h body Hin Hty). rewrite Hdir. apply Hcharts.
    - exists w4. split; [exact Hw'|]. split; [|exact Hsettled].
      eapply added_earlier; [exact Hg1 | exact Hwalk]. }
  split; [|split].
  - (* the plan *)
    subst plan charts. destruct (fst (dirExists refBinDir w)).
    + rewrite lookup_singleton_eq, lookup_singleton_ne by done.
      split; [reflexivity|]. split; [split; discriminate|].
      rewrite dom_singleton_L. set_solver.
    + rewrite lookup_insert_ne by done. rewrite lookup_singleton_eq, lookup_insert_eq.
      split; [reflexivity|]. split; [split; reflexivity|].
      rewrite dom_insert_L, dom_singleton_L. set_solver.
  - (* every run *)
    subst run. unfold Stage. fold ref.
    assert (Hbin : refBinDir = binDirForDigest dataDir (fst (releaseRefDigest ref)))
      by reflexivity.
    clearbody refBinDir.
    destruct (releaseRefDigest ref) as [refDigest [e|]]; simpl in Hbin; subst refBinDir.
    { left. exists e, w. split; reflexivity. }
    rewrite run_bind.
    pose proof (disk_preloadBootstrapFromRuntime range tarball_parse dataDir resolver w)
      as Hlook.
    pose proof (grown_run _ w _ _
                  (any_preloadBootstrapFromRuntime range tarball_parse dataDir resolver)
                  (surjective_pairing _)) as Hg0.
    destruct (preloadBootstrapFromRuntime range tarball_parse dataDir resolver w)
      as [[found err] w0].
    simpl in Hlook, Hg0. cbv beta iota.
    destruct err as [e|]; [left; exists e, w0; split; [reflexivity | exact Hlook]|].
    rewrite run_bind. destruct found as [i|].
    + right. destruct (Hstage i w0 Hlook Hg0) as (w1 & Hd & Heq & Hok).
      exists i, w1. split; [exact Hd|]. split; [exact Heq | exact Hok].
    + pose proof (pullImage_disk Registries remote_Image getPrivateRegistries
                    privateRegistry ref w0) as Hpull.
      pose proof (grown_run _ w0 _ _
                    (any_pullImage Registries remote_Image getPrivateRegistries
                       privateRegistry ref) (surjective_pairing _)) as Hg1.
      destruct (pullImage Registries remote_Image getPrivateRegistries privateRegistry ref w0)
        as [[e|img] w1]; simpl in Hpull, Hg1.
      * left. exists e, w1. split; [reflexivity | congruence].
      * right.
        destruct (Hstage img w1 ltac:(congruence) ltac:(eapply grown_trans; eassumption))
          as (w2 & Hd & Heq & Hok).
        exists img, w2. split; [exact Hd|]. split; [exact Heq | exact Hok].
  - (* the bin directory is in place *)
    intros Hex. subst run. unfold Stage. fold ref.
    assert (Hbin : refBinDir = binDirForDigest dataDir (fst (releaseRefDigest ref)))
      by reflexivity.
    clearbody refBinDir.
    destruct (releaseRefDigest ref) as [refDigest [e|]]; simpl in Hbin; subst refBinDir;
      [reflexivity|].
    rewrite !run_bind, preloadBootstrapFromRuntime_charts.
    pose proof (disk_preloadBootstrapFromRuntime range tarball_parse dataDir resolver w)
      as Hlook.
    destruct (preloadBootstrapFromRuntime range tarball_parse dataDir resolver w)
      as [[found err] w0].
    simpl in Hlook. cbn [fst snd]. cbv beta iota.
    destruct err as [e|]; [reflexivity|].
    rewrite !run_bind. destruct found as [i|]; simpl.
    + apply stageImage_charts. rewrite (dirExists_disk _ w w0 Hlook). exact Hex.
    + rewrite pullImage_charts.
      pose proof (pullImage_disk Registries remote_Image getPrivateRegistries
                    privateRegistry ref w0) as Hpull.
      destruct (pullImage Registries remote_Image getPrivateRegistries privateRegistry ref w0)
        as [[e|img] w1]; simpl in *; [reflexivity|].
      apply stageImage_charts.
      rewrite (dirExists_disk _ w w1 ltac:(congruence)). exact Hex.
Qed.

Lemma Stage_extraction_plan_witness :
  let binDir := binDirForDigest Examples.dataDir "v1.21.5-rke2r1-bbb95ee11828" in
  fst (dirExists binDir staged_node) = true
  /\ fst (dirExists binDir Examples.fresh) = false
  /\ Stage Examples.in_order unit Examples.parse Examples.pull Examples.no_registries
       Examples.Decode Examples.Encode Examples.jobImage Examples.dataDir ""
       Examples.resolver staged_node
     = Stage Examples.in_order unit
         (fun o b t => under_charts (Examples.parse o b t))
         (fun r regs => under_charts (Examples.pull r regs))
         Examples.no_registries Examples.Decode Examples.Encode Examples.jobImage
         Examples.dataDir "" Examples.resolver staged_node.
Proof.
  intros binDir.
  assert (Hex : fst (dirExists binDir staged_node) = true) by (vm_compute; reflexivity).
  split; [exact Hex|]. split; [vm_compute; reflexivity|].
  destruct (Stage_extraction_plan Examples.in_order unit Examples.parse Examples.pull
              Examples.no_registries Examples.Decode Examples.Encode Examples.jobImage
              Examples.dataDir "" Examples.resolver staged_node
              (fun V m => reflexivity _) standin_Decode_Encode standin_Decode_empty)
    as (_ & _ & Hrerun).
  apply Hrerun. exact Hex.
Defined.
